(** * gmail-invoice-tagger: the labelling pipeline of [main.py] and [tagger.py]

    A shallow embedding of the two variants of the pipeline (fetch unread
    messages, extract their plain text, classify it with a generative
    model, resolve a label, apply it and mark the message read) and the
    properties of the specification that can be stated over it.

    Python [str] values are represented by their UTF-8 encoding, held in a
    Rocq [string] (a list of bytes): two texts are equal exactly when their
    encodings are, the empty text is the empty encoding, and concatenation
    of texts is concatenation of encodings, which is all the pipeline does
    with text. *)

From Stdlib Require Import ZArith NArith Ascii String List DecimalString Bool Lia.
From stdpp Require Import base gmap strings list.

Local Open Scope string_scope.
Local Open Scope list_scope.

(** ** Python values and exceptions *)

(** The double quote character, for the literals of the source that hold one. *)
Definition dq : string := String (ascii_of_nat 34) EmptyString.

(** The exception classes the two files can meet.  All of them derive from
    [Exception]; only [HttpError] is what [except HttpError] catches, and
    only [JSONDecodeError] what [except json.JSONDecodeError] catches. *)
Inductive exn_class : Type :=
| HttpError          (* googleapiclient.errors.HttpError *)
| TransportError     (* any other failure of a request: socket, auth refresh, ... *)
| ModelError         (* a failure of the generative-model call *)
| KeyError
| ValueError
| BinasciiError      (* binascii.Error, raised by base64 decoding *)
| UnicodeDecodeError
| JSONDecodeError
| AttributeError
| TypeError.

(** An exception: its class and what [str] gives for it.  The texts of the
    exceptions raised by the libraries are shortened. *)
Record exn : Type := Exn { exn_cls : exn_class; exn_str : string }.

Definition is_HttpError (e : exn) : bool :=
  match exn_cls e with HttpError => true | _ => false end.

Definition is_JSONDecodeError (e : exn) : bool :=
  match exn_cls e with JSONDecodeError => true | _ => false end.

(** [except Exception] catches every class above. *)
Definition is_Exception (e : exn) : bool := true.

Inductive result (A : Type) : Type :=
| Ok (a : A)
| Raise (e : exn).
Arguments Ok {A} a.
Arguments Raise {A} e.

Definition result_bind {A B} (r : result A) (k : A -> result B) : result B :=
  match r with
  | Ok a => k a
  | Raise e => Raise e
  end.

(** Truthiness of the values the source tests with [if x] / [if not x]. *)
Definition truthy_str (s : string) : bool :=
  match s with EmptyString => false | _ => true end.

Definition truthy_opt_str (o : option string) : bool :=
  match o with Some s => truthy_str s | None => false end.

Definition str_of_nat (n : nat) : string := NilZero.string_of_uint (Nat.to_uint n).

(** [sep.join(l)] *)
Fixpoint join (sep : string) (l : list string) : string :=
  match l with
  | [] => ""
  | [x] => x
  | x :: rest => x ++ sep ++ join sep rest
  end.

(** ** base64.urlsafe_b64decode and bytes.decode("utf-8")

    Both belong to Python's standard library; they are modelled here as
    CPython implements them, since the extractor's result is what they
    compute. *)

Module Base64.

(** [table_a2b_base64] after the URL-safe translation of [-] and [_]:
    the 6-bit value of an alphabet character, [None] for any other byte. *)
Definition value (c : ascii) : option N :=
  let n := N_of_ascii c in
  if (65 <=? n)%N && (n <=? 90)%N then Some (n - 65)%N
  else if (97 <=? n)%N && (n <=? 122)%N then Some (n - 97 + 26)%N
  else if (48 <=? n)%N && (n <=? 57)%N then Some (n - 48 + 52)%N
  else if (n =? 43)%N || (n =? 45)%N then Some 62%N
  else if (n =? 47)%N || (n =? 95)%N then Some 63%N
  else None.

Definition is_pad (c : ascii) : bool := (N_of_ascii c =? 61)%N.

Definition byte_of (n : N) : ascii := ascii_of_N (N.land n 255).

(** The decoding loop of [binascii.a2b_base64] in its default, non-strict
    mode: characters outside the alphabet are skipped, a pad that
    completes a quad ends the input, and the bytes produced so far are
    kept in [out] (most recent first). *)
Fixpoint a2b_loop (s : string) (quad_pos : nat) (leftchar : N) (pads : nat)
         (out : list ascii) : result (list ascii) :=
  match s with
  | EmptyString =>
      match quad_pos with
      | 0 => Ok (rev out)
      | 1 => Raise (Exn BinasciiError
               "Invalid base64-encoded string: number of data characters cannot be 1 more than a multiple of 4")
      | _ => Raise (Exn BinasciiError "Incorrect padding")
      end
  | String c rest =>
      if is_pad c then
        if (2 <=? quad_pos)%nat then
          if (4 <=? quad_pos + S pads)%nat then Ok (rev out)
          else a2b_loop rest quad_pos leftchar (S pads) out
        else a2b_loop rest quad_pos leftchar pads out
      else
        match value c with
        | None => a2b_loop rest quad_pos leftchar pads out
        | Some this_ch =>
            match quad_pos with
            | 0 => a2b_loop rest 1 this_ch 0 out
            | 1 => a2b_loop rest 2 (N.land this_ch 15) 0
                     (byte_of (N.lor (N.shiftl leftchar 2) (N.shiftr this_ch 4)) :: out)
            | 2 => a2b_loop rest 3 (N.land this_ch 3) 0
                     (byte_of (N.lor (N.shiftl leftchar 4) (N.shiftr this_ch 2)) :: out)
            | _ => a2b_loop rest 0 0%N 0
                     (byte_of (N.lor (N.shiftl leftchar 6) this_ch) :: out)
            end
        end
  end.

Fixpoint all_ascii (s : string) : bool :=
  match s with
  | EmptyString => true
  | String c rest => (N_of_ascii c <? 128)%N && all_ascii rest
  end.

(** [base64.urlsafe_b64decode(s)] for a [str] argument: the bytes. *)
Definition urlsafe_b64decode (s : string) : result string :=
  if all_ascii s then
    result_bind (a2b_loop s 0 0%N 0 []) (fun bs => Ok (string_of_list_ascii bs))
  else Raise (Exn ValueError "string argument should contain only ASCII characters").

End Base64.

Module Utf8.

Definition between (lo hi : N) (c : ascii) : bool :=
  let n := N_of_ascii c in (lo <=? n)%N && (n <=? hi)%N.

Definition cont (c : ascii) : bool := between 128 191 c.

(** Well-formed UTF-8 as the strict decoder accepts it: shortest forms
    only, no surrogates, nothing above U+10FFFF. *)
Fixpoint well_formed (s : string) : bool :=
  match s with
  | EmptyString => true
  | String b0 r0 =>
      if between 0 127 b0 then well_formed r0
      else
        match r0 with
        | EmptyString => false
        | String b1 r1 =>
            if between 194 223 b0 then cont b1 && well_formed r1
            else
              match r1 with
              | EmptyString => false
              | String b2 r2 =>
                  if between 224 239 b0 then
                    (if between 224 224 b0 then between 160 191 b1
                     else if between 237 237 b0 then between 128 159 b1
                     else cont b1)
                    && cont b2 && well_formed r2
                  else
                    match r2 with
                    | EmptyString => false
                    | String b3 r3 =>
                        between 240 244 b0
                        && (if between 240 240 b0 then between 144 191 b1
                            else if between 244 244 b0 then between 128 143 b1
                            else cont b1)
                        && cont b2 && cont b3 && well_formed r3
                    end
              end
        end
  end.

(** [bs.decode("utf-8")]: the text, held as its own encoding. *)
Definition decode (bs : string) : result string :=
  if well_formed bs then Ok bs
  else Raise (Exn UnicodeDecodeError "'utf-8' codec can't decode byte: invalid start byte").

End Utf8.

(** [base64.urlsafe_b64decode(data).decode("utf-8")] *)
Definition b64_text (data : string) : result string :=
  result_bind (Base64.urlsafe_b64decode data) Utf8.decode.

(** ** The mail service and the generative model, as the pipeline sees them *)

(** A message resource ([messages.get] with [format="full"]), restricted to
    the fields the two files read.  A field the service may leave out is an
    [option]; the parts nested inside a part are not represented, since
    neither file looks into them. *)
Record body : Type := Body { data : option string }.
Record part : Type := Part { mimeType : option string; part_body : option body }.
Record payload : Type := Payload { payload_body : option body; parts : option (list part) }.
Record message : Type := Message { msg_payload : option payload; labelIds : gset string }.

(** An element of [messages.list]'s answer: its key [id]. *)
Record msg_summary : Type := Summary { msg_id : string }.

(** A label resource: its keys [name] and [id], which the service always
    sends. *)
Record label : Type := Label { lname : string; lid : string }.

Inductive request : Type :=
| ListMessages (q : string) (maxResults : nat)
| GetMessage (id : string)
| ListLabels
| CreateLabel (name : string) (labelListVisibility messageListVisibility : string)
| ModifyMessage (id : string) (addLabelIds removeLabelIds : list string).

Record model_request : Type :=
  ModelRequest { model : string; contents : string; system_instruction : option string }.

(** What a call of the generative model gives back: a response whose text
    may be missing, or an exception. *)
Inductive llm_outcome : Type :=
| Responds (text : option string)
| Fails (e : exn).

Inductive auth_outcome : Type :=
| NoKey                 (* the variable of the credentials is unset; for main.py, or empty *)
| KeyNotJson            (* json.loads raises JSONDecodeError *)
| AuthFails (e : exn)   (* the credential or discovery libraries raise *)
| Authenticated.

(** The world a run executes in.  [fault n] is the exception that the
    [n]-th request sent to the mail service raises, if it raises one;
    [llm n r] is the outcome of the [n]-th call of the model, made with
    request [r].  [requests], [prompts] and [stdout] record what the run
    did, oldest first. *)
Record world : Type := World {
  auth : auth_outcome;
  mailbox : gmap string message;
  labels : list label;
  next_label : nat;
  unread : option (list msg_summary);
  fault : nat -> option exn;
  requests : list request;
  llm : nat -> model_request -> llm_outcome;
  prompts : list model_request;
  stdout : list string
}.

Definition set_mailbox (mb : gmap string message) (w : world) : world :=
  World (auth w) mb (labels w) (next_label w) (unread w) (fault w) (requests w)
        (llm w) (prompts w) (stdout w).

Definition add_label (l : label) (w : world) : world :=
  World (auth w) (mailbox w) (labels w ++ [l]) (S (next_label w)) (unread w) (fault w)
        (requests w) (llm w) (prompts w) (stdout w).

Definition log_request (r : request) (w : world) : world :=
  World (auth w) (mailbox w) (labels w) (next_label w) (unread w) (fault w)
        (requests w ++ [r]) (llm w) (prompts w) (stdout w).

Definition log_prompt (r : model_request) (w : world) : world :=
  World (auth w) (mailbox w) (labels w) (next_label w) (unread w) (fault w)
        (requests w) (llm w) (prompts w ++ [r]) (stdout w).

Definition log_stdout (s : string) (w : world) : world :=
  World (auth w) (mailbox w) (labels w) (next_label w) (unread w) (fault w)
        (requests w) (llm w) (prompts w) (stdout w ++ [s]).

(** *** Programs: state passing with exceptions *)

Definition M (A : Type) : Type := world -> result A * world.

Definition ret {A} (a : A) : M A := fun w => (Ok a, w).

Definition raise {A} (e : exn) : M A := fun w => (Raise e, w).

Definition bind {A B} (m : M A) (k : A -> M B) : M B :=
  fun w => match m w with
           | (Ok a, w') => k a w'
           | (Raise e, w') => (Raise e, w')
           end.

Definition lift {A} (r : result A) : M A := fun w => (r, w).

(** [try: body / except C as error: handler error], where [catches] tells
    which exceptions class [C] covers. *)
Definition try_except {A} (body : M A) (catches : exn -> bool) (handler : exn -> M A) : M A :=
  fun w => match body w with
           | (Ok a, w') => (Ok a, w')
           | (Raise e, w') => if catches e then handler e w' else (Raise e, w')
           end.

Declare Scope py_scope.
Delimit Scope py_scope with py.
Notation "x <- m ;; k" := (bind m (fun x => k))
  (at level 100, m at next level, right associativity) : py_scope.
Notation "m ;;; k" := (bind m (fun _ => k))
  (at level 100, right associativity) : py_scope.
Local Open Scope py_scope.

Definition print (s : string) : M unit := fun w => (Ok tt, log_stdout s w).

(** [for x in l: body x] *)
Fixpoint for_each {A} (l : list A) (body : A -> M unit) : M unit :=
  match l with
  | [] => ret tt
  | x :: rest => body x ;;; for_each rest body
  end.

(** *** The five requests of the mail service

    Sending a request records it and consults [fault]; only a request that
    does not fail reads or changes the service's state. *)
Definition execute (r : request) : M unit :=
  fun w => match fault w (length (requests w)) with
           | Some e => (Raise e, log_request r w)
           | None => (Ok tt, log_request r w)
           end.

Definition not_found (id : string) : exn :=
  Exn HttpError ("<HttpError 404: Requested entity was not found: " ++ id ++ ">").

(** [service.users().messages().list(userId="me", q=q, maxResults=n).execute()]:
    the value under the key "messages", which the service leaves out when
    nothing matches. *)
Definition messages_list (q : string) (n : nat) : M (option (list msg_summary)) :=
  execute (ListMessages q n) ;;; fun w => (Ok (unread w), w).

(** [service.users().messages().get(userId="me", id=id, format="full").execute()] *)
Definition messages_get (id : string) : M message :=
  execute (GetMessage id) ;;;
  fun w => match mailbox w !! id with
           | Some m => (Ok m, w)
           | None => (Raise (not_found id), w)
           end.

(** [service.users().labels().list(userId="me").execute()]: the value under
    the key "labels". *)
Definition labels_list : M (list label) :=
  execute ListLabels ;;; fun w => (Ok (labels w), w).

(** [service.users().labels().create(userId="me", body=...).execute()]: the
    service assigns the identifier of the new label. *)
Definition labels_create (name llv mlv : string) : M label :=
  execute (CreateLabel name llv mlv) ;;;
  fun w => let l := Label name ("Label_" ++ str_of_nat (next_label w)) in
           (Ok l, add_label l w).

(** The one update of a message: add the labels of [add], then remove
    those of [remove]. *)
Definition relabel (add remove : list string) (m : message) : message :=
  Message (msg_payload m) ((labelIds m ∪ list_to_set add) ∖ list_to_set remove).

(** [service.users().messages().modify(userId="me", id=id, body=mods).execute()] *)
Definition messages_modify (id : string) (add remove : list string) : M unit :=
  execute (ModifyMessage id add remove) ;;;
  fun w => match mailbox w !! id with
           | Some m => (Ok tt, set_mailbox (<[id := relabel add remove m]> (mailbox w)) w)
           | None => (Raise (not_found id), w)
           end.

(** A call of the generative model. *)
Definition generate (r : model_request) : M (option string) :=
  fun w => match llm w (length (prompts w)) r with
           | Responds t => (Ok t, log_prompt r w)
           | Fails e => (Raise e, log_prompt r w)
           end.

Definition CATEGORIES : list string := ["Orders"; "Invoices"; "Other"].

(** [x in CATEGORIES] for a string [x] *)
Definition in_CATEGORIES (x : string) : bool := existsb (String.eqb x) CATEGORIES.

Definition UNREAD : string := "UNREAD".

#[local] Set Warnings "-register-all".

(** A decoded JSON value, for [tagger.py]'s use of [json.loads]. *)
Inductive json : Type :=
| JNull
| JBool (b : bool)
| JNumber (literal : string)
| JString (s : string)
| JArray (items : list json)
| JObject (fields : list (string * json)).

(** [d.get(key)] on a decoded object: [None] when the key is absent. *)
Fixpoint dict_get (key : string) (fields : list (string * json)) : option json :=
  match fields with
  | [] => None
  | (k, v) :: rest => if String.eqb k key then Some v else dict_get key rest
  end.

(** ** main.py *)

Module Main.

(** [gmail_authenticate()]: [Some tt] stands for the service object. The
    credential libraries are not modelled; [auth] tells which of the
    function's four exits is taken. *)
Definition gmail_authenticate : M (option unit) :=
  fun w =>
    match auth w with
    | NoKey =>
        (print "Error: GMAIL_SERVICE_ACCOUNT_KEY environment variable not set." ;;;
         print "Please store your service account JSON key in this variable." ;;;
         ret None) w
    | KeyNotJson =>
        (print "Error: Could not decode the JSON in GMAIL_SERVICE_ACCOUNT_KEY." ;;;
         print "Please ensure the service account key is valid JSON." ;;;
         ret None) w
    | AuthFails error =>
        (print ("Authentication failed: " ++ exn_str error) ;;; ret None) w
    | Authenticated =>
        (print "Successfully authenticated with Gmail API using service account." ;;;
         ret (Some tt)) w
    end.

Definition fetch_unread_message_ids : M (list msg_summary) :=
  try_except
    (response <- messages_list "is:unread" 10 ;;
     ret (default [] response))
    is_HttpError
    (fun error =>
       print ("An error occurred while fetching messages: " ++ exn_str error) ;;;
       ret []).

(** The [for part in parts] loop of [get_message_text]; [text_content] is
    the text accumulated so far. *)
Fixpoint parts_text (ps : list part) (text_content : string) : result string :=
  match ps with
  | [] => Ok text_content
  | p :: rest =>
      if bool_decide (mimeType p = Some "text/plain") then
        let data := default "" (data (default (Body None) (part_body p))) in
        result_bind (b64_text data)
          (fun t => parts_text rest (text_content ++ t))
      else parts_text rest text_content
  end.

(** What [get_message_text] computes from the message it was sent. *)
Definition message_text (msg : message) : result string :=
  let pl := default (Payload None None) (msg_payload msg) in
  let parts := default [] (parts pl) in
  match parts with
  | [] =>
      let body_data := data (default (Body None) (payload_body pl)) in
      if truthy_opt_str body_data then b64_text (default "" body_data)
      else Ok ""
  | _ => parts_text parts ""
  end.

Definition get_message_text (msg_id : string) : M string :=
  try_except
    (msg <- messages_get msg_id ;;
     lift (message_text msg))
    is_HttpError
    (fun error =>
       print ("An error occurred while getting message text: " ++ exn_str error) ;;;
       ret "").

Definition get_or_create_label (label_name : string) : M string :=
  try_except
    (labels <- labels_list ;;
     match List.find (fun l => String.eqb (lname l) label_name) labels with
     | Some l => ret (lid l)
     | None =>
         created_label <- labels_create label_name "labelShow" "show" ;;
         ret (lid created_label)
     end)
    is_HttpError
    (fun error =>
       print ("An error occurred while processing labels: " ++ exn_str error) ;;;
       ret "").

(** [apply_label] has no [return]: its value is [None], here [tt]. *)
Definition apply_label (msg_id label_id : string) : M unit :=
  try_except
    (messages_modify msg_id [label_id] [UNREAD])
    is_HttpError
    (fun error =>
       print ("An error occurred while applying the label: " ++ exn_str error)).

Definition system_instruction : string :=
  "Respond with a single JSON object like {" ++ dq ++ "category" ++ dq ++ ": "
    ++ dq ++ "..." ++ dq ++ "}.".

Definition prompt_of (text : string) : string :=
  "Classify this email into one of the following categories: "
    ++ join ", " CATEGORIES ++ ". Email text: '" ++ text ++ "'. ".

Definition classify_email (text : string) : M string :=
  if negb (truthy_str text) then ret "Other"
  else
    returned <-
      try_except
        (category <- generate (ModelRequest "gemini-2.5-flash-lite-preview-06-17"
                                 (prompt_of text) (Some system_instruction)) ;;
         match category with
         | Some c => if in_CATEGORIES c then ret (Some c) else ret None
         | None => ret None
         end)
        is_Exception
        (fun e =>
           print ("An error occurred during AI classification: " ++ exn_str e) ;;;
           ret None) ;;
    match returned with
    | Some category => ret category
    | None => ret "Other"
    end.

Definition skipped_line (msg_id : string) : string :=
  "Msg " ++ msg_id ++ ": Could not retrieve text, skipping.".

Definition classified_line (msg_id category : string) : string :=
  "Msg " ++ msg_id ++ ": Classified as '" ++ category ++ "'".

Definition success_line (msg_id : string) : string :=
  "Msg " ++ msg_id ++ ": Successfully labeled and marked as read.".

(** The body of [for msg_summary in messages] in [main]. *)
Definition main_loop_body (msg_summary : msg_summary) : M unit :=
  let msg_id := msg_id msg_summary in
  text <- get_message_text msg_id ;;
  if negb (truthy_str text) then print (skipped_line msg_id)
  else
    category <- classify_email text ;;
    print (classified_line msg_id category) ;;;
    label_id <- get_or_create_label category ;;
    if truthy_str label_id then
      apply_label msg_id label_id ;;;
      print (success_line msg_id)
    else ret tt.

Definition main : M unit :=
  print "Starting email classification process..." ;;;
  service <- gmail_authenticate ;;
  match service with
  | None => print "Could not authenticate with Gmail. Exiting."
  | Some _ =>
      messages <- fetch_unread_message_ids ;;
      match messages with
      | [] => print "No unread messages found."
      | _ =>
          print ("Found " ++ str_of_nat (length messages) ++ " unread emails. Processing...") ;;;
          for_each messages main_loop_body ;;;
          print "Processing complete."
      end
  end.

End Main.

(** ** tagger.py

    The variant with the interactive OAuth flow.  None of its requests is
    guarded by [try], so every exception ends the run.  [json.loads] is
    the standard library's: the development holds for any decoder,
    [None] standing for [JSONDecodeError].  As the file stands
    [gmail_authenticate] cannot return, so that [main] ends there; what
    [main] does with a service is [main_loop]. *)

Module Tagger.

Definition key_error {A} (key : string) : result A :=
  Raise (Exn KeyError ("'" ++ key ++ "'")).

(** [gmail_authenticate] as it stands.  It subscripts [os.environ], which
    raises [KeyError] when the variable is unset, and decodes the value,
    which raises [JSONDecodeError] when it is not JSON.  The next statement
    calls [InstalledAppFlow.fromclientconfig(client_config, SCOPES)]: the
    class has no attribute of that name, so that evaluating the callee
    raises [AttributeError] (and the argument [client_config] is a name
    nothing binds: the assignment above is to [clientconfig]).  No path
    reaches [return]. *)
Definition gmail_authenticate : M unit :=
  fun w =>
    match auth w with
    | NoKey => (key_error "GMAIL_OAUTH_CLIENT_CONFIG", w)
    | KeyNotJson => (Raise (Exn JSONDecodeError "Expecting value"), w)
    | AuthFails _ | Authenticated =>
        (Raise (Exn AttributeError
                  "type object 'InstalledAppFlow' has no attribute 'fromclientconfig'"), w)
    end.

Definition fetch_unread_message_ids : M (list msg_summary) :=
  resp <- messages_list "is:unread" 10 ;;
  ret (default [] resp).

(** The [for part in parts] loop; [text] is the text accumulated so far. *)
Fixpoint parts_text (ps : list part) (text : string) : result string :=
  match ps with
  | [] => Ok text
  | p :: rest =>
      match mimeType p with
      | None => key_error "mimeType"
      | Some mt =>
          if String.eqb mt "text/plain" then
            match part_body p with
            | None => key_error "body"
            | Some b =>
                match data b with
                | None => key_error "data"
                | Some data =>
                    result_bind (b64_text data) (fun t => parts_text rest (text ++ t))
                end
            end
          else parts_text rest text
      end
  end.

Definition message_text (msg : message) : result string :=
  match msg_payload msg with
  | None => key_error "payload"
  | Some pl => parts_text (default [] (parts pl)) ""
  end.

Definition get_message_text (msg_id : string) : M string :=
  msg <- messages_get msg_id ;;
  lift (message_text msg).

Definition nl : string := String (ascii_of_nat 10) EmptyString.

Definition prompt_of (text : string) : string :=
  "Classify this email into one of these categories: "
    ++ join ", " CATEGORIES
    ++ "." ++ nl ++ nl ++ "Email:" ++ nl
    ++ text
    ++ nl ++ nl ++ "Respond with a single JSON object like {" ++ dq ++ "category" ++ dq
    ++ ": " ++ dq ++ "..." ++ dq ++ "}.".

Section WithJson.

Variable json_loads : string -> option json.

(** The [try] block of [classify_email]: [Ok (Some c)] when it returns
    [c], [Ok None] when control leaves it without returning. *)
Definition parse_category (content : option string) : result (option string) :=
  match content with
  | None => Raise (Exn TypeError
              "the JSON object must be str, bytes or bytearray, not NoneType")
  | Some s =>
      match json_loads s with
      | None => Raise (Exn JSONDecodeError "Expecting value")
      | Some (JObject out) =>
          match dict_get "category" out with
          | Some (JString c) => if in_CATEGORIES c then Ok (Some c) else Ok None
          | _ => Ok None
          end
      | Some _ => Raise (Exn AttributeError "object has no attribute 'get'")
      end
  end.

Definition classify_email (text : string) : M string :=
  content <- generate (ModelRequest "models/gemini-2.5-flash-lite-preview-06-17"
                         (prompt_of text) None) ;;
  returned <- try_except (lift (parse_category content))
                is_JSONDecodeError (fun _ => ret None) ;;
  match returned with
  | Some category => ret category
  | None => ret "Other"
  end.

Definition get_or_create_label (label_name : string) : M string :=
  labels <- labels_list ;;
  match List.find (fun l => String.eqb (lname l) label_name) labels with
  | Some l => ret (lid l)
  | None =>
      created <- labels_create label_name "labelShow" "show" ;;
      ret (lid created)
  end.

Definition apply_label (msg_id label_id : string) : M unit :=
  messages_modify msg_id [label_id] [UNREAD].

(** The body of [for msg in fetch_unread_message_ids(service)]. *)
Definition main_loop_body (msg : msg_summary) : M unit :=
  let mid := msg_id msg in
  text <- get_message_text mid ;;
  category <- classify_email text ;;
  label_id <- get_or_create_label category ;;
  apply_label mid label_id ;;;
  print ("Msg " ++ mid ++ ": â†’ " ++ category).

(** The [for] statement of [main], lines 100 to 106: what [main] does with
    a service. *)
Definition main_loop : M unit :=
  messages <- fetch_unread_message_ids ;;
  for_each messages main_loop_body.

Definition main : M unit :=
  gmail_authenticate ;;;
  main_loop.

End WithJson.

End Tagger.

(** ** The properties of a run, as predicates over its two ends *)

(** Concatenation of decoded texts, in order. *)
Definition concat_text (ts : list string) : string := fold_right String.append "" ts.

Definition is_plain (p : part) : bool := bool_decide (mimeType p = Some "text/plain").

(** [part["body"]["data"]], when both keys are there. *)
Definition part_data (p : part) : option string :=
  match part_body p with
  | Some b => data b
  | None => None
  end.

(** The mailbox is as it was. *)
Definition untouched (w w' : world) : Prop := mailbox w' = mailbox w.

(** Message [id] has received the label of a category and lost [UNREAD], in
    one update; nothing else in the mailbox changed. *)
Definition labelled_and_read (w w' : world) (id : string) : Prop :=
  exists m l c,
    mailbox w !! id = Some m /\
    mailbox w' = <[id := relabel [l] [UNREAD] m]> (mailbox w) /\
    In c CATEGORIES /\ In (Label c l) (labels w').

(** Does identifier [l] belong to a label that bears a category's name? *)
Definition is_category_label (w : world) (l : string) : bool :=
  existsb (fun x => String.eqb (lid x) l && in_CATEGORIES (lname x)) (labels w).

Definition category_labels_on (w : world) (id : string) : list string :=
  match mailbox w !! id with
  | Some m => List.filter (is_category_label w) (elements (labelIds m))
  | None => []
  end.

Definition is_unread (w : world) (id : string) : bool :=
  match mailbox w !! id with
  | Some m => bool_decide (UNREAD ∈ labelIds m)
  | None => false
  end.

(** State (a) of the specification's invariant, read literally. *)
Definition one_category_label_and_read (w' : world) (id : string) : Prop :=
  length (category_labels_on w' id) = 1 /\ is_unread w' id = false.

(** The requests a run added to the trace. *)
Definition sent (w w' : world) : list request := drop (length (requests w)) (requests w').

(** A mutation carries exactly one label identifier, and not the empty one. *)
Definition mutation_ok (r : request) : Prop :=
  match r with
  | ModifyMessage _ add _ => exists l, add = [l] /\ l <> ""
  | _ => True
  end.

(** The identifiers whose message was retrieved, in order. *)
Definition retrieved (rs : list request) : list string :=
  flat_map (fun r => match r with GetMessage id => [id] | _ => [] end) rs.

(** The only failures of requests are the ones the service reports as
    [HttpError]. *)
Definition only_HttpError (w : world) : Prop :=
  forall n e, fault w n = Some e -> is_HttpError e = true.

(** Every message of the mailbox has a text that decodes. *)
Definition payloads_decode (w : world) : Prop :=
  forall id m, mailbox w !! id = Some m -> exists t, Main.message_text m = Ok t.

(** What [main.py]'s fetch hands to the loop in world [w]. *)
Definition fetched (w : world) : list msg_summary :=
  match fault w (length (requests w)) with
  | Some _ => []
  | None => default [] (unread w)
  end.

(** The run of [main.py] ends normally, having retrieved every message the
    fetch returned, in order. *)
Definition run_completes (w : world) : Prop :=
  fst (Main.main w) = Ok tt /\
  retrieved (sent w (snd (Main.main w))) = map msg_id (fetched w).

(** The request [main.py] sends to the model for [text]. *)
Definition main_request (text : string) : model_request :=
  ModelRequest "gemini-2.5-flash-lite-preview-06-17" (Main.prompt_of text)
               (Some Main.system_instruction).

Definition tagger_request (text : string) : model_request :=
  ModelRequest "models/gemini-2.5-flash-lite-preview-06-17" (Tagger.prompt_of text) None.

(** The answer the system instruction asks for: [{"category": "c"}]. *)
Definition json_answer (c : string) : string :=
  "{" ++ dq ++ "category" ++ dq ++ ": " ++ dq ++ c ++ dq ++ "}".

(** ** Fixtures *)

Module Fixture.

Definition no_fault : nat -> option exn := fun _ => None.

Definition answers (t : string) : nat -> model_request -> llm_outcome :=
  fun _ _ => Responds (Some t).

Definition inbox : gset string := {[ "UNREAD"; "INBOX" ]}.

(** The single-part message of the specification. *)
Definition single_part : message :=
  Message (Some (Payload (Some (Body (Some "SGVsbG8gV29ybGQ="))) None)) inbox.

Definition plain_hello : part := Part (Some "text/plain") (Some (Body (Some "SGVsbG8="))).
Definition html_hello : part := Part (Some "text/html") (Some (Body (Some "PGI-SGVsbG88L2I-"))).

(** The multi-part message of the specification. *)
Definition multi_part : message :=
  Message (Some (Payload (Some (Body None)) (Some [plain_hello; html_hello]))) inbox.

(** A single-part message in ISO-8859-1: its body is the one byte E9. *)
Definition latin1 : message :=
  Message (Some (Payload (Some (Body (Some "6Q=="))) None)) inbox.

(** A message that was labelled [Orders] by an earlier run and marked
    unread again since. *)
Definition relabelled : message :=
  Message (Some (Payload (Some (Body (Some "SGVsbG8gV29ybGQ="))) None))
          {[ "UNREAD"; "INBOX"; "Label_1" ]}.

Definition two_labels : list label := [Label "Orders" "Label_1"; Label "Invoices" "Label_2"].

Definition world_of (mb : gmap string message) (ids : list string)
           (f : nat -> option exn) (g : nat -> model_request -> llm_outcome) : world :=
  World Authenticated mb two_labels 3 (Some (map Summary ids)) f [] g [] [].

(** One unread single-part message; the model answers [Invoices]. *)
Definition w_single : world :=
  world_of {[ "m1" := single_part ]} ["m1"] no_fault (answers "Invoices").

Definition w_multi : world :=
  world_of {[ "m1" := multi_part ]} ["m1"] no_fault (answers "Invoices").

(** The message already bears the [Orders] label. *)
Definition w_relabelled : world :=
  world_of {[ "m1" := relabelled ]} ["m1"] no_fault (answers "Invoices").

(** Two unread messages, the first one in ISO-8859-1. *)
Definition w_latin1 : world :=
  world_of {[ "m1" := latin1; "m2" := single_part ]} ["m1"; "m2"] no_fault
           (answers "Invoices").

(** The fourth request of the run, the [modify], is refused. *)
Definition refuse_fourth : nat -> option exn :=
  fun n => if Nat.eqb n 3 then Some (Exn HttpError "<HttpError 403: Forbidden>") else None.

Definition w_refused : world :=
  world_of {[ "m1" := single_part ]} ["m1"] refuse_fourth (answers "Invoices").

(** Two unread messages; the second request of the run, which retrieves
    the first of them, fails. *)
Definition fail_second : nat -> option exn :=
  fun n => if Nat.eqb n 1 then Some (Exn HttpError "<HttpError 500: Backend Error>") else None.

Definition w_flaky : world :=
  world_of {[ "m1" := single_part; "m2" := multi_part ]} ["m1"; "m2"] fail_second
           (answers "Invoices").

(** The first retrieval fails with something else than [HttpError]. *)
Definition time_out_second : nat -> option exn :=
  fun n => if Nat.eqb n 1 then Some (Exn TransportError "timed out") else None.

Definition w_timeout : world :=
  world_of {[ "m1" := single_part; "m2" := multi_part ]} ["m1"; "m2"] time_out_second
           (answers "Invoices").

(** The model is unreachable. *)
Definition unreachable : nat -> model_request -> llm_outcome :=
  fun _ _ => Fails (Exn ModelError "503 UNAVAILABLE").

Definition w_unreachable : world :=
  world_of {[ "m1" := multi_part ]} ["m1"] no_fault unreachable.

(** A decoder that knows the answers of the fixtures and rejects the
    rest, standing for [json.loads] where a concrete one is needed. *)
Definition json_loads (s : string) : option json :=
  if String.eqb s (json_answer "Invoices") then Some (JObject [("category", JString "Invoices")])
  else if String.eqb s (json_answer "Orders") then Some (JObject [("category", JString "Orders")])
  else if String.eqb s "[]" then Some (JArray [])
  else None.

End Fixture.


(** ** Relations between the two ends of a program *)

(** [stable R m]: whatever the world, running [m] takes it to a world
    related to it by [R], whether [m] returns or raises. *)
Definition stable (R : relation world) {A} (m : M A) : Prop :=
  forall w, R w (snd (m w)).

(** From [w] to [w']: the environment is the same, the payloads of the
    messages are the same, labels and requests were only added. *)
Record evolves (w w' : world) : Prop := Evolves {
  ev_fault : fault w' = fault w;
  ev_llm : llm w' = llm w;
  ev_unread : unread w' = unread w;
  ev_auth : auth w' = auth w;
  ev_payload : forall id, msg_payload <$> (mailbox w' !! id) = msg_payload <$> (mailbox w !! id);
  ev_labels : exists new, labels w' = labels w ++ new /\ Forall (fun x => lid x <> "") new;
  ev_requests : exists new, requests w' = requests w ++ new
}.

(** [steady]: moreover the mailbox itself is the same. *)
Definition steady (w w' : world) : Prop := evolves w w' /\ mailbox w' = mailbox w.

Abbreviation steadily := (stable steady).
Abbreviation evolving := (stable evolves).

(** The requests of label resolution: the listing, and the creation when no
    label bears the name. *)
Definition resolve_requests (name : string) (rs : list request) : Prop :=
  rs = [ListLabels] \/ rs = [ListLabels; CreateLabel name "labelShow" "show"].

(** From [w] to [w'] requests were added, all of them satisfying [P]. *)
Definition sends (P : request -> Prop) (w w' : world) : Prop :=
  exists new, requests w' = requests w ++ new /\ Forall P new.

(** The identifiers of the labels the service lists are not empty. *)
Definition labels_ok (w : world) : Prop := Forall (fun x => lid x <> "") (labels w).

(** The relation of [tagger.py]'s runs: under [labels_ok], only well-formed
    mutations are sent and [labels_ok] is kept. *)
Definition sends_if_ok (w w' : world) : Prop :=
  labels_ok w -> labels_ok w' /\ sends mutation_ok w w'.

(** What one iteration of [main.py] sends: the retrieval of the message,
    then the requests of label resolution, then at most one mutation, of
    this message. *)
Inductive body_requests (id : string) : list request -> Prop :=
| sent_get : body_requests id [GetMessage id]
| sent_resolve (name : string) (rs : list request) :
    resolve_requests name rs -> body_requests id (GetMessage id :: rs)
| sent_mutation (name : string) (rs : list request) (l : string) :
    resolve_requests name rs ->
    body_requests id (GetMessage id :: rs ++ [ModifyMessage id [l] [UNREAD]]).

(** The two conditions of a run that no exception ends. *)
Definition forgiving (w : world) : Prop := only_HttpError w /\ payloads_decode w.

(** The state of message [id] at the end of a run, against its state at the
    start: as it was, or relabelled once. *)
Definition terminal (w w' : world) (id : string) : Prop :=
  mailbox w' !! id = mailbox w !! id \/
  exists m l c,
    mailbox w !! id = Some m /\
    mailbox w' !! id = Some (relabel [l] [UNREAD] m) /\
    In c CATEGORIES /\ In (Label c l) (labels w').

(** ** Further predicates on requests and runs *)

(** The requests the two files build, with the constants they put in. *)
Definition request_wellformed (r : request) : Prop :=
  match r with
  | ListMessages q n => q = "is:unread" /\ n = 10
  | GetMessage _ => True
  | ListLabels => True
  | CreateLabel name llv mlv => In name CATEGORIES /\ llv = "labelShow" /\ mlv = "show"
  | ModifyMessage _ add remove => (exists l, add = [l]) /\ remove = [UNREAD]
  end.

(** The message a request is about. *)
Definition message_of (r : request) : option string :=
  match r with
  | GetMessage id => Some id
  | ModifyMessage id _ _ => Some id
  | _ => None
  end.

(** The requests of one iteration of either loop, for message [id]: its
    retrieval, then the resolution of the label of a category, then the
    mutation of this same message. *)
Inductive iteration_trace (id : string) : list request -> Prop :=
| trace_get : iteration_trace id [GetMessage id]
| trace_resolve (c : string) (rs : list request) :
    In c CATEGORIES -> resolve_requests c rs ->
    iteration_trace id (GetMessage id :: rs)
| trace_mutation (c : string) (rs : list request) (l : string) :
    In c CATEGORIES -> resolve_requests c rs ->
    iteration_trace id (GetMessage id :: rs ++ [ModifyMessage id [l] [UNREAD]]).

(** No [HttpError] leaves [m]. *)
Definition no_HttpError_escapes {A} (m : M A) : Prop :=
  forall w e, fst (m w) = Raise e -> is_HttpError e = false.

(** From [w] to [w'] the label table is the same. *)
Definition same_labels (w w' : world) : Prop := labels w' = labels w.

(** From [w] to [w'] no message was added, none lost a label other than
    [UNREAD] and none gained [UNREAD]. *)
Definition keeps_labels (w w' : world) : Prop :=
  forall id m',
    mailbox w' !! id = Some m' ->
    exists m, mailbox w !! id = Some m /\
              labelIds m ∖ {[ UNREAD ]} ⊆ labelIds m' /\
              (UNREAD ∈ labelIds m' -> UNREAD ∈ labelIds m).

(** From [w] to [w'] labels were only created under the names of
    categories, at most one per name, and under no name that was listed. *)
Definition creates_fresh (w w' : world) : Prop :=
  exists new,
    labels w' = labels w ++ new /\
    NoDup (map lname new) /\
    Forall (fun x => In (lname x) CATEGORIES /\
                     Forall (fun y => lname y <> lname x) (labels w)) new.

(** Messages other than those of [ids] are as they were. *)
Definition touches_only (ids : list string) (w w' : world) : Prop :=
  forall id, ~ In id ids -> mailbox w' !! id = mailbox w !! id.

(** ** More fixtures *)

Module Cases.

(** A message the service sends without payload. *)
Definition bare : message := Message None Fixture.inbox.

(** A multi-part message whose plain part is an attachment: its body has
    an attachment identifier and no data. *)
Definition attachment : message :=
  Message (Some (Payload (Some (Body None))
                         (Some [Part (Some "text/plain") (Some (Body None));
                                Fixture.html_hello])))
          Fixture.inbox.

(** Parts of four kinds: one without media type, a plain one, a plain one
    without body, a plain one again. *)
Definition mixed_parts : list part :=
  [Part None (Some (Body (Some "SGVsbG8=")));
   Fixture.plain_hello;
   Part (Some "text/plain") None;
   Part (Some "text/plain") (Some (Body (Some "IFdvcmxk")))].

Definition mixed : message := Message (Some (Payload None (Some mixed_parts))) ∅.

(** A multi-part message with a text attachment after the body parts: the
    body of the attachment has an attachment identifier and no data. *)
Definition with_attachment : message :=
  Message (Some (Payload (Some (Body None))
                         (Some [Fixture.plain_hello; Fixture.html_hello;
                                Part (Some "text/plain") (Some (Body None))])))
          Fixture.inbox.

(** A multi-part message whose plain part is in ISO-8859-1: the one byte
    E9. *)
Definition latin1_parts : message :=
  Message (Some (Payload (Some (Body None))
                         (Some [Part (Some "text/plain") (Some (Body (Some "6Q==")));
                                Fixture.html_hello])))
          Fixture.inbox.

Definition w_attachments : world :=
  Fixture.world_of {[ "m1" := latin1_parts; "m2" := with_attachment ]} ["m1"; "m2"]
                   Fixture.no_fault (Fixture.answers "Other").

(** A single-part message whose data lacks its padding. *)
Definition unpadded : message :=
  Message (Some (Payload (Some (Body (Some "SGVsbG8"))) None)) Fixture.inbox.

(** No label exists yet. *)
Definition w_no_labels : world :=
  World Authenticated {[ "m1" := Fixture.single_part ]} [] 1 (Some [Summary "m1"])
        Fixture.no_fault [] (Fixture.answers "Invoices") [] [].

(** The credentials are missing. *)
Definition w_no_key : world :=
  World NoKey {[ "m1" := Fixture.single_part ]} Fixture.two_labels 3
        (Some [Summary "m1"]) Fixture.no_fault [] (Fixture.answers "Invoices") [] [].

(** Nothing is unread: the answer of the listing has no [messages]. *)
Definition w_nothing_unread : world :=
  World Authenticated {[ "m1" := Fixture.single_part ]} Fixture.two_labels 3
        None Fixture.no_fault [] (Fixture.answers "Invoices") [] [].

(** The first request of the run, the listing, fails. *)
Definition fail_first : nat -> option exn :=
  fun n => if Nat.eqb n 0 then Some (Exn HttpError "<HttpError 500: Backend Error>") else None.

Definition w_fetch_fails : world :=
  Fixture.world_of {[ "m1" := Fixture.single_part ]} ["m1"] fail_first
                   (Fixture.answers "Invoices").

(** Three unread messages, one per category; the model names the category
    after the call it is asked in. *)
Definition by_turn : nat -> model_request -> llm_outcome :=
  fun n _ => match n with
             | 0 => Responds (Some "Orders")
             | 1 => Responds (Some "Invoices")
             | _ => Responds (Some "Other")
             end.

Definition w_three : world :=
  World Authenticated
        {[ "m1" := Fixture.single_part; "m2" := Fixture.single_part;
           "m3" := Fixture.single_part ]}
        [] 1 (Some [Summary "m1"; Summary "m2"; Summary "m3"])
        Fixture.no_fault [] by_turn [] [].

End Cases.

(** * Properties *)

Ltac unfold_py :=
  unfold bind, ret, raise, lift, try_except, print, generate, execute in *;
  cbv beta in *.

(** ** Decoding *)

Example b64_text_hello_world : b64_text "SGVsbG8gV29ybGQ=" = Ok "Hello World".
Proof. reflexivity. Qed.

Example b64_text_hello : b64_text "SGVsbG8=" = Ok "Hello".
Proof. reflexivity. Qed.

Example b64_text_empty : b64_text "" = Ok "".
Proof. reflexivity. Qed.

Example b64_text_urlsafe : b64_text "Pz8-Xw==" = Ok "??>_".
Proof. reflexivity. Qed.

Example b64_text_bad_padding :
  exists e, b64_text "SGVsbG8" = Raise e /\ exn_cls e = BinasciiError.
Proof. eexists. split; reflexivity. Qed.

Example b64_text_latin1 :
  exists e, b64_text "6Q==" = Raise e /\ exn_cls e = UnicodeDecodeError.
Proof. eexists. split; reflexivity. Qed.

(** ** The classifier *)

Lemma in_CATEGORIES_spec (x : string) :
  in_CATEGORIES x = true <-> x = "Orders" \/ x = "Invoices" \/ x = "Other".
Proof.
  unfold in_CATEGORIES, CATEGORIES. simpl.
  rewrite !orb_true_iff, !String.eqb_eq. intuition discriminate.
Qed.

Lemma in_CATEGORIES_In (x : string) : in_CATEGORIES x = true <-> In x CATEGORIES.
Proof.
  rewrite in_CATEGORIES_spec. unfold CATEGORIES. simpl. intuition congruence.
Qed.

(** [main.py]'s classifier, one case per outcome of the model call. *)
Lemma main_classify_email_eq (text : string) (w : world) :
  text <> "" ->
  Main.classify_email text w =
    match llm w (length (prompts w)) (main_request text) with
    | Responds (Some c) =>
        (Ok (if in_CATEGORIES c then c else "Other"), log_prompt (main_request text) w)
    | Responds None => (Ok "Other", log_prompt (main_request text) w)
    | Fails e =>
        (Ok "Other",
         log_stdout ("An error occurred during AI classification: " ++ exn_str e)
           (log_prompt (main_request text) w))
    end.
Proof.
  intros Ht. unfold Main.classify_email.
  destruct text as [|a text']; [contradiction|].
  cbn [truthy_str negb]. unfold_py. fold (main_request (String a text')).
  destruct (llm w _ _) as [[c|]|e]; simpl; try reflexivity.
  destruct (in_CATEGORIES c); reflexivity.
Qed.

Lemma main_classify_email_empty (w : world) :
  Main.classify_email "" w = (Ok "Other", w).
Proof. reflexivity. Qed.

(** [main.py]'s classifier is total and closed: it returns, and what it
    returns is one of the three categories, whatever the model call does. *)
Lemma main_classify_email_total (text : string) (w : world) :
  exists c, fst (Main.classify_email text w) = Ok c /\ In c CATEGORIES.
Proof.
  destruct (string_dec text "") as [->|Ht].
  - exists "Other". split; [reflexivity | simpl; auto].
  - rewrite (main_classify_email_eq text w Ht).
    destruct (llm w _ _) as [[c|]|e]; simpl.
    + destruct (in_CATEGORIES c) eqn:Hc.
      * exists c. split; [reflexivity | now apply in_CATEGORIES_In].
      * exists "Other". split; [reflexivity | simpl; auto].
    + exists "Other". split; [reflexivity | simpl; auto].
    + exists "Other". split; [reflexivity | simpl; auto].
Qed.

(** [tagger.py]'s classifier, one case per outcome of the model call. *)
Lemma tagger_classify_email_eq (json_loads : string -> option json)
      (text : string) (w : world) :
  Tagger.classify_email json_loads text w =
    match llm w (length (prompts w)) (tagger_request text) with
    | Responds content =>
        match Tagger.parse_category json_loads content with
        | Ok (Some c) => (Ok c, log_prompt (tagger_request text) w)
        | Ok None => (Ok "Other", log_prompt (tagger_request text) w)
        | Raise e =>
            if is_JSONDecodeError e then (Ok "Other", log_prompt (tagger_request text) w)
            else (Raise e, log_prompt (tagger_request text) w)
        end
    | Fails e => (Raise e, log_prompt (tagger_request text) w)
    end.
Proof.
  unfold Tagger.classify_email. unfold_py. fold (tagger_request text).
  destruct (llm w _ _) as [content|e]; [|reflexivity].
  destruct (Tagger.parse_category json_loads content) as [[c|]|e]; try reflexivity.
  destruct (is_JSONDecodeError e); reflexivity.
Qed.

(** On the three kinds of malformed answer, [tagger.py]'s classifier falls
    back to "Other": an answer that [json.loads] rejects, an object
    without the key [category], an object whose [category] is no member
    of the set. *)
Lemma tagger_classify_email_malformed (json_loads : string -> option json)
      (text content : string) (w : world) :
  llm w (length (prompts w)) (tagger_request text) = Responds (Some content) ->
  json_loads content = None \/
  (exists out, json_loads content = Some (JObject out) /\
     (dict_get "category" out = None \/
      exists v, dict_get "category" out = Some v /\
                forall c, v = JString c -> ~ In c CATEGORIES)) ->
  fst (Tagger.classify_email json_loads text w) = Ok "Other".
Proof.
  intros Hllm Hbad. rewrite tagger_classify_email_eq, Hllm.
  unfold Tagger.parse_category.
  destruct Hbad as [->|(out & -> & [->|(v & -> & Hv)])]; try reflexivity.
  destruct v as [| | |c| |]; try reflexivity.
  destruct (in_CATEGORIES c) eqn:Hc; [|reflexivity].
  exfalso. apply (Hv c eq_refl). now apply in_CATEGORIES_In.
Qed.

(** C2, at the failing input: when the model call fails, [tagger.py]'s
    classifier returns no category; the exception of the call leaves
    [classify_email], where [main.py]'s returns "Other"
    ([main_classify_email_total]). *)
Theorem tagger_classify_email_propagates_model_failure
        (json_loads : string -> option json) (text : string) (w : world) (e : exn) :
  llm w (length (prompts w)) (tagger_request text) = Fails e ->
  fst (Tagger.classify_email json_loads text w) = Raise e.
Proof.
  intros H. rewrite tagger_classify_email_eq, H. reflexivity.
Qed.

Lemma tagger_classify_email_propagates_model_failure_witness :
  fst (Tagger.classify_email Fixture.json_loads "Hello" Fixture.w_unreachable)
    = Raise (Exn ModelError "503 UNAVAILABLE").
Proof.
  apply (tagger_classify_email_propagates_model_failure
           Fixture.json_loads "Hello" Fixture.w_unreachable).
  reflexivity.
Defined.

(** An answer that decodes to something else than an object also leaves
    [tagger.py]'s classifier as an exception. *)
Example tagger_classify_email_array :
  exists e, fst (Tagger.classify_email Fixture.json_loads "Hello"
                   (Fixture.world_of ∅ [] Fixture.no_fault (Fixture.answers "[]")))
            = Raise e /\ exn_cls e = AttributeError.
Proof. eexists. split; reflexivity. Qed.

(** C3, at the failing input: the answer [Orders], which is not JSON, makes
    [main.py]'s classifier return "Orders" and not "Other". *)
Theorem main_classify_email_accepts_bare_word (text : string) (w : world) :
  text <> "" ->
  llm w (length (prompts w)) (main_request text) = Responds (Some "Orders") ->
  fst (Main.classify_email text w) = Ok "Orders".
Proof.
  intros Ht H. rewrite (main_classify_email_eq text w Ht), H. reflexivity.
Qed.

Lemma main_classify_email_accepts_bare_word_witness :
  fst (Main.classify_email "Hello"
         (Fixture.world_of ∅ [] Fixture.no_fault (Fixture.answers "Orders"))) = Ok "Orders".
Proof.
  apply main_classify_email_accepts_bare_word; [discriminate | reflexivity].
Defined.

(** C4, at the failing input: on the empty text [tagger.py]'s classifier
    sends its prompt to the model all the same; what it returns is what
    the answer says ([tagger_classify_email_empty_orders]). *)
Theorem tagger_classify_email_empty_calls_model
        (json_loads : string -> option json) (w : world) :
  prompts (snd (Tagger.classify_email json_loads "" w)) = prompts w ++ [tagger_request ""].
Proof.
  rewrite tagger_classify_email_eq.
  destruct (llm w _ _) as [content|e]; [|reflexivity].
  destruct (Tagger.parse_category json_loads content) as [[c|]|e]; try reflexivity.
  destruct (is_JSONDecodeError e); reflexivity.
Qed.

Example tagger_classify_email_empty_orders :
  fst (Tagger.classify_email Fixture.json_loads ""
         (Fixture.world_of ∅ [] Fixture.no_fault (Fixture.answers (json_answer "Orders"))))
  = Ok "Orders".
Proof. reflexivity. Qed.

(** C9: [main.py] compares the raw text of the answer with the categories.
    A category other than "Other" comes back only when the model answered
    with exactly that word, "Orders" or "Invoices", and it does come back
    then, after the one call of the model that a text which is not empty
    gets; an answer that opens a JSON object, [{"category": "Orders"}] for
    one, gives "Other". *)
Theorem main_classify_email_compares_raw_text (text : string) (w : world) :
  (forall c, fst (Main.classify_email text w) = Ok c -> c <> "Other" ->
     llm w (length (prompts w)) (main_request text) = Responds (Some c) /\
     (c = "Orders" \/ c = "Invoices")) /\
  (forall rest,
     llm w (length (prompts w)) (main_request text) = Responds (Some (String "{" rest)) ->
     fst (Main.classify_email text w) = Ok "Other") /\
  (forall c,
     llm w (length (prompts w)) (main_request text) = Responds (Some (json_answer c)) ->
     fst (Main.classify_email text w) = Ok "Other") /\
  (forall c,
     text <> "" ->
     c = "Orders" \/ c = "Invoices" ->
     llm w (length (prompts w)) (main_request text) = Responds (Some c) ->
     Main.classify_email text w = (Ok c, log_prompt (main_request text) w)).
Proof.
  assert (Hraw : forall c,
     text <> "" ->
     c = "Orders" \/ c = "Invoices" ->
     llm w (length (prompts w)) (main_request text) = Responds (Some c) ->
     Main.classify_email text w = (Ok c, log_prompt (main_request text) w)).
  { intros c Ht Hc H. rewrite (main_classify_email_eq text w Ht), H.
    destruct Hc as [-> | ->]; reflexivity. }
  assert (Hobj : forall rest,
     llm w (length (prompts w)) (main_request text) = Responds (Some (String "{" rest)) ->
     fst (Main.classify_email text w) = Ok "Other").
  { intros rest H. destruct (string_dec text "") as [->|Ht]; [reflexivity|].
    rewrite (main_classify_email_eq text w Ht), H. reflexivity. }
  split; [|split; [exact Hobj | split; [intros c; apply Hobj | exact Hraw]]].
  intros c Hc Hne. destruct (string_dec text "") as [->|Ht].
  - simpl in Hc. congruence.
  - rewrite (main_classify_email_eq text w Ht) in Hc.
    destruct (llm w _ _) as [[c'|]|e]; simpl in Hc; try congruence.
    destruct (in_CATEGORIES c') eqn:Hin; [|congruence].
    injection Hc as ->. split; [reflexivity|].
    apply in_CATEGORIES_spec in Hin. intuition congruence.
Qed.

Lemma main_classify_email_compares_raw_text_witness :
  fst (Main.classify_email "Hello"
         (Fixture.world_of ∅ [] Fixture.no_fault (Fixture.answers (json_answer "Orders"))))
  = Ok "Other" /\
  fst (Main.classify_email "Hello"
         (Fixture.world_of ∅ [] Fixture.no_fault (Fixture.answers "Invoices")))
  = Ok "Invoices".
Proof.
  split.
  - apply (proj1 (proj2 (proj2 (main_classify_email_compares_raw_text "Hello"
             (Fixture.world_of ∅ [] Fixture.no_fault
                               (Fixture.answers (json_answer "Orders"))))))
             "Orders").
    reflexivity.
  - rewrite (proj2 (proj2 (proj2 (main_classify_email_compares_raw_text "Hello"
               (Fixture.world_of ∅ [] Fixture.no_fault (Fixture.answers "Invoices")))))
               "Invoices");
      [reflexivity | discriminate | right; reflexivity | reflexivity].
Defined.

(** ** The extractor *)

Lemma append_cons (x : ascii) (a b : string) :
  (String x a ++ b = String x (a ++ b))%string.
Proof. reflexivity. Qed.

Lemma append_assoc (a b c : string) : ((a ++ b) ++ c = a ++ (b ++ c))%string.
Proof.
  induction a as [|x a IH]; [reflexivity|].
  now rewrite !append_cons, IH.
Qed.

Lemma append_empty_r (a : string) : (a ++ "" = a)%string.
Proof.
  induction a as [|x a IH]; [reflexivity|].
  now rewrite append_cons, IH.
Qed.

(** The decoders raise their own exceptions, never an [HttpError]. *)
Lemma a2b_loop_raises (s : string) :
  forall quad_pos leftchar pads out e,
    Base64.a2b_loop s quad_pos leftchar pads out = Raise e -> exn_cls e = BinasciiError.
Proof.
  induction s as [|c s IH]; intros qp lc pads out e H; cbn [Base64.a2b_loop] in H.
  - destruct qp as [|[|qp]]; [discriminate | |]; injection H as <-; reflexivity.
  - destruct (Base64.is_pad c).
    + destruct (2 <=? qp)%nat; [destruct (4 <=? qp + S pads)%nat|];
        [discriminate | eauto | eauto].
    + destruct (Base64.value c); [|eauto].
      destruct qp as [|[|[|qp]]]; eauto.
Qed.

Lemma b64_text_raises (d : string) (e : exn) :
  b64_text d = Raise e -> is_HttpError e = false.
Proof.
  unfold b64_text, Base64.urlsafe_b64decode, Utf8.decode. intros H.
  destruct (Base64.all_ascii d).
  - destruct (Base64.a2b_loop d 0 0 0 []) as [bs|e1] eqn:Hl; simpl in H.
    + destruct (Utf8.well_formed _); [discriminate|]. injection H as <-. reflexivity.
    + injection H as <-. apply a2b_loop_raises in Hl.
      unfold is_HttpError. now rewrite Hl.
  - simpl in H. injection H as <-. reflexivity.
Qed.

Lemma main_parts_text_raises (ps : list part) :
  forall acc e, Main.parts_text ps acc = Raise e -> is_HttpError e = false.
Proof.
  induction ps as [|p ps IH]; intros acc e H; simpl in H; [discriminate|].
  destruct (bool_decide _); [|eauto].
  destruct (b64_text _) as [t|e'] eqn:Hd; simpl in H; [eauto|].
  injection H as <-. eauto using b64_text_raises.
Qed.

Lemma main_message_text_raises (m : message) (e : exn) :
  Main.message_text m = Raise e -> is_HttpError e = false.
Proof.
  unfold Main.message_text. intros H.
  destruct (default [] (parts _)); [|eauto using main_parts_text_raises].
  destruct (truthy_opt_str _); [eauto using b64_text_raises | discriminate].
Qed.

(** A request that is answered: the message comes back, the world only
    records the request. *)
Lemma messages_get_answered (id : string) (m : message) (w : world) :
  fault w (length (requests w)) = None ->
  mailbox w !! id = Some m ->
  messages_get id w = (Ok m, log_request (GetMessage id) w).
Proof.
  intros Hf Hm. unfold messages_get. unfold_py. rewrite Hf. simpl. now rewrite Hm.
Qed.

Lemma main_get_message_text_answered (id : string) (m : message) (w : world) :
  fault w (length (requests w)) = None ->
  mailbox w !! id = Some m ->
  fst (Main.get_message_text id w) = Main.message_text m.
Proof.
  intros Hf Hm. unfold Main.get_message_text, try_except, bind, lift.
  rewrite (messages_get_answered id m w Hf Hm).
  destruct (Main.message_text m) as [t|e] eqn:Ht; [reflexivity|].
  simpl. now rewrite (main_message_text_raises m e Ht).
Qed.

Lemma tagger_get_message_text_answered (id : string) (m : message) (w : world) :
  fault w (length (requests w)) = None ->
  mailbox w !! id = Some m ->
  fst (Tagger.get_message_text id w) = Tagger.message_text m.
Proof.
  intros Hf Hm. unfold Tagger.get_message_text, bind, lift.
  rewrite (messages_get_answered id m w Hf Hm). reflexivity.
Qed.

(** *** Multi-part messages *)

Lemma main_parts_text_concat (ps : list part) :
  forall ts acc,
    Forall2 (fun p t => b64_text (default "" (part_data p)) = Ok t)
            (List.filter is_plain ps) ts ->
    Main.parts_text ps acc = Ok (acc ++ concat_text ts)%string.
Proof.
  induction ps as [|p ps IH]; intros ts acc H; simpl in *.
  - inversion H; subst. simpl. now rewrite append_empty_r.
  - unfold is_plain in H at 1. destruct (bool_decide _).
    + inversion H as [|p' t ps' ts' Hd Hrest]; subst.
      unfold part_data in Hd.
      replace (default "" (data (default (Body None) (part_body p))))
        with (default "" match part_body p with Some b => data b | None => None end)
        by (destruct (part_body p); reflexivity).
      rewrite Hd. simpl. rewrite (IH ts' _ Hrest).
      now rewrite append_assoc.
    + now apply IH.
Qed.

Lemma tagger_parts_text_concat (ps : list part) :
  forall ts acc,
    Forall (fun p => mimeType p <> None) ps ->
    Forall2 (fun p t => exists d, part_data p = Some d /\ b64_text d = Ok t)
            (List.filter is_plain ps) ts ->
    Tagger.parts_text ps acc = Ok (acc ++ concat_text ts)%string.
Proof.
  induction ps as [|p ps IH]; intros ts acc Hmt H; simpl in *.
  - inversion H; subst. simpl. now rewrite append_empty_r.
  - inversion Hmt as [|p' ps' Hp Hps]; subst.
    unfold is_plain in H at 1.
    destruct (mimeType p) as [mt|] eqn:Hmime; [|contradiction].
    destruct (String.eqb mt "text/plain") eqn:Heq.
    + apply String.eqb_eq in Heq. subst mt.
      rewrite bool_decide_eq_true_2 in H by reflexivity.
      inversion H as [|p' t ps' ts' (d & Hd & Hb) Hrest]; subst.
      unfold part_data in Hd. destruct (part_body p) as [b|]; [|discriminate].
      rewrite Hd, Hb. simpl. rewrite (IH ts' _ Hps Hrest).
      now rewrite append_assoc.
    + rewrite bool_decide_eq_false_2 in H.
      * now apply IH.
      * intros [= ->]. now rewrite String.eqb_refl in Heq.
Qed.

Lemma main_parts_text_inv (ps : list part) :
  forall acc t,
    Main.parts_text ps acc = Ok t ->
    exists ts,
      Forall2 (fun p t => b64_text (default "" (part_data p)) = Ok t)
              (List.filter is_plain ps) ts /\
      t = (acc ++ concat_text ts)%string.
Proof.
  induction ps as [|p ps IH]; intros acc t H; simpl in H.
  - injection H as <-. exists []. split; [constructor|]. simpl. now rewrite append_empty_r.
  - simpl. unfold is_plain at 1. destruct (bool_decide _).
    + replace (default "" (data (default (Body None) (part_body p))))
        with (default "" (part_data p)) in H
        by (unfold part_data; destruct (part_body p); reflexivity).
      destruct (b64_text (default "" (part_data p))) as [t0|e] eqn:Hd; simpl in H;
        [|discriminate].
      destruct (IH _ _ H) as (ts & F & ->).
      exists (t0 :: ts). split; [now constructor|]. simpl. now rewrite append_assoc.
    + now apply IH.
Qed.

Lemma tagger_parts_text_inv (ps : list part) :
  forall acc t,
    Tagger.parts_text ps acc = Ok t ->
    Forall (fun p => mimeType p <> None) ps /\
    exists ts,
      Forall2 (fun p t => exists d, part_data p = Some d /\ b64_text d = Ok t)
              (List.filter is_plain ps) ts /\
      t = (acc ++ concat_text ts)%string.
Proof.
  induction ps as [|p ps IH]; intros acc t H; simpl in H.
  - injection H as <-. split; [constructor|]. exists []. split; [constructor|].
    simpl. now rewrite append_empty_r.
  - simpl. unfold is_plain at 1.
    destruct (mimeType p) as [mt|] eqn:Hmime; [|discriminate].
    destruct (String.eqb mt "text/plain") eqn:Heq.
    + apply String.eqb_eq in Heq. subst mt.
      rewrite bool_decide_eq_true_2 by reflexivity.
      destruct (part_body p) as [b|] eqn:Hb; [|discriminate].
      destruct (data b) as [d|] eqn:Hd; [|discriminate].
      destruct (b64_text d) as [t0|e] eqn:Ht; simpl in H; [|discriminate].
      destruct (IH _ _ H) as (Hmt & ts & F & ->).
      split; [constructor; [now rewrite Hmime | exact Hmt]|].
      exists (t0 :: ts). split.
      * constructor; [|exact F]. exists d. unfold part_data. rewrite Hb. auto.
      * simpl. now rewrite append_assoc.
    + rewrite bool_decide_eq_false_2
        by (intros [= ->]; now rewrite String.eqb_refl in Heq).
      destruct (IH _ _ H) as (Hmt & ts & F & ->).
      split; [constructor; [now rewrite Hmime | exact Hmt]|]. eauto.
Qed.

(** C6, as the two variants have it: on a multi-part message the
    extractor returns exactly when the data of the parts whose media
    type is exactly [text/plain] decode, and then it returns their
    decoded texts concatenated in the order of the parts, the other
    parts contributing nothing.  [main.py] reads a plain part without
    data as the empty text; [tagger.py] demands a media type of every
    part and data of every plain part.  Otherwise the extractor raises. *)
Theorem get_message_text_multi_part
        (id : string) (m : message) (pl : payload) (ps : list part) (w : world) :
  fault w (length (requests w)) = None ->
  mailbox w !! id = Some m ->
  msg_payload m = Some pl ->
  parts pl = Some ps ->
  ps <> [] ->
  (forall t,
     fst (Main.get_message_text id w) = Ok t <->
     exists ts,
       Forall2 (fun p t => b64_text (default "" (part_data p)) = Ok t)
               (List.filter is_plain ps) ts /\
       t = concat_text ts) /\
  (forall t,
     fst (Tagger.get_message_text id w) = Ok t <->
     Forall (fun p => mimeType p <> None) ps /\
     exists ts,
       Forall2 (fun p t => exists d, part_data p = Some d /\ b64_text d = Ok t)
               (List.filter is_plain ps) ts /\
       t = concat_text ts).
Proof.
  intros Hf Hm Hpl Hps Hne.
  rewrite (main_get_message_text_answered id m w Hf Hm).
  rewrite (tagger_get_message_text_answered id m w Hf Hm).
  unfold Main.message_text, Tagger.message_text. rewrite Hpl. simpl. rewrite !Hps. simpl.
  split; intros t; split.
  - destruct ps as [|p ps']; [contradiction|]. intros H.
    exact (main_parts_text_inv (p :: ps') "" t H).
  - intros (ts & F & ->). destruct ps as [|p ps']; [contradiction|].
    exact (main_parts_text_concat (p :: ps') ts "" F).
  - intros H. exact (tagger_parts_text_inv ps "" t H).
  - intros (Hmt & ts & F & ->). exact (tagger_parts_text_concat ps ts "" Hmt F).
Qed.

(** The fixture of the specification: the plain part gives "Hello", the
    markup part is left out. *)
Lemma get_message_text_multi_part_witness :
  fst (Main.get_message_text "m1" Fixture.w_multi) = Ok "Hello" /\
  fst (Tagger.get_message_text "m1" Fixture.w_multi) = Ok "Hello".
Proof.
  destruct (get_message_text_multi_part "m1" Fixture.multi_part
              (Payload (Some (Body None)) (Some [Fixture.plain_hello; Fixture.html_hello]))
              [Fixture.plain_hello; Fixture.html_hello] Fixture.w_multi)
    as [Hmain Htagger];
    [reflexivity | reflexivity | reflexivity | reflexivity | discriminate |].
  split.
  - apply (proj2 (Hmain "Hello")). exists ["Hello"].
    split; [repeat constructor | reflexivity].
  - apply (proj2 (Htagger "Hello")). split; [repeat constructor; discriminate|].
    exists ["Hello"]. split; [|reflexivity].
    repeat constructor. exists "SGVsbG8=". split; reflexivity.
Defined.

(** C6 as stated fails, for it speaks of every multi-part message.  A
    plain part in ISO-8859-1 makes both variants raise
    [UnicodeDecodeError] and return nothing; and with a text attachment,
    a plain part without data, [main.py] returns the text of the other
    plain parts where [tagger.py] raises [KeyError]. *)
Lemma multi_part_message_without_text :
  (exists e, fst (Main.get_message_text "m1" Cases.w_attachments) = Raise e /\
             exn_cls e = UnicodeDecodeError) /\
  (exists e, fst (Tagger.get_message_text "m1" Cases.w_attachments) = Raise e /\
             exn_cls e = UnicodeDecodeError) /\
  fst (Main.get_message_text "m2" Cases.w_attachments) = Ok "Hello" /\
  (exists e, fst (Tagger.get_message_text "m2" Cases.w_attachments) = Raise e /\
             exn_cls e = KeyError).
Proof.
  split; [eexists; split; reflexivity|].
  split; [eexists; split; reflexivity|].
  split; [reflexivity|]. eexists; split; reflexivity.
Qed.

(** In [main.py] a plain part without data counts as the empty text, and a
    part without media type is passed over. *)
Lemma main_get_message_text_multi_part
      (id : string) (m : message) (pl : payload) (ps : list part)
      (ts : list string) (w : world) :
  fault w (length (requests w)) = None ->
  mailbox w !! id = Some m ->
  msg_payload m = Some pl ->
  parts pl = Some ps ->
  ps <> [] ->
  Forall2 (fun p t => b64_text (default "" (part_data p)) = Ok t)
          (List.filter is_plain ps) ts ->
  fst (Main.get_message_text id w) = Ok (concat_text ts).
Proof.
  intros Hf Hm Hpl Hps Hne Hdata.
  rewrite (main_get_message_text_answered id m w Hf Hm).
  unfold Main.message_text. rewrite Hpl. simpl. rewrite Hps. simpl.
  destruct ps as [|p ps']; [contradiction|].
  exact (main_parts_text_concat (p :: ps') ts "" Hdata).
Qed.

(** *** Single-part messages *)

(** [main.py] decodes the body of a message without parts. *)
Lemma main_get_message_text_single_part
      (id : string) (m : message) (pl : payload) (b : body) (d t : string) (w : world) :
  fault w (length (requests w)) = None ->
  mailbox w !! id = Some m ->
  msg_payload m = Some pl ->
  parts pl = None \/ parts pl = Some [] ->
  payload_body pl = Some b ->
  data b = Some d ->
  b64_text d = Ok t ->
  fst (Main.get_message_text id w) = Ok t.
Proof.
  intros Hf Hm Hpl Hps Hb Hd Ht.
  rewrite (main_get_message_text_answered id m w Hf Hm).
  unfold Main.message_text. rewrite Hpl. simpl.
  replace (default [] (parts pl)) with (@nil part) by (destruct Hps as [-> | ->]; reflexivity).
  rewrite Hb. simpl. rewrite Hd. simpl.
  destruct d as [|c d']; [|exact Ht].
  simpl. now injection Ht as <-.
Qed.

Example main_get_message_text_hello_world :
  fst (Main.get_message_text "m1" Fixture.w_single) = Ok "Hello World".
Proof. reflexivity. Qed.

(** C5, at the failing input: [tagger.py] only walks the parts, so a
    message without parts has the empty text, whatever its body holds. *)
Theorem tagger_get_message_text_single_part
        (id : string) (m : message) (pl : payload) (w : world) :
  fault w (length (requests w)) = None ->
  mailbox w !! id = Some m ->
  msg_payload m = Some pl ->
  parts pl = None \/ parts pl = Some [] ->
  fst (Tagger.get_message_text id w) = Ok "".
Proof.
  intros Hf Hm Hpl Hps.
  rewrite (tagger_get_message_text_answered id m w Hf Hm).
  unfold Tagger.message_text. rewrite Hpl.
  destruct Hps as [-> | ->]; reflexivity.
Qed.

Lemma tagger_get_message_text_single_part_witness :
  fst (Tagger.get_message_text "m1" Fixture.w_single) = Ok "".
Proof.
  apply (tagger_get_message_text_single_part "m1" Fixture.single_part
           (Payload (Some (Body (Some "SGVsbG8gV29ybGQ="))) None) Fixture.w_single).
  - reflexivity.
  - reflexivity.
  - reflexivity.
  - left. reflexivity.
Defined.

(** ** The combinators respect a preorder on worlds *)

Section Stable.

Context (R : relation world) `{!PreOrder R}.

Lemma stable_ret {A} (a : A) : stable R (ret a).
Proof. intros w. reflexivity. Qed.

Lemma stable_raise {A} (e : exn) : stable R (@raise A e).
Proof. intros w. reflexivity. Qed.

Lemma stable_lift {A} (r : result A) : stable R (lift r).
Proof. intros w. reflexivity. Qed.

Lemma stable_bind {A B} (m : M A) (k : A -> M B) :
  stable R m -> (forall a, stable R (k a)) -> stable R (bind m k).
Proof.
  intros Hm Hk w. unfold bind. specialize (Hm w).
  destruct (m w) as [[a|e] w1]; simpl in *; [|exact Hm].
  transitivity w1; [exact Hm | apply Hk].
Qed.

Lemma stable_try_except {A} (body : M A) (catches : exn -> bool) (handler : exn -> M A) :
  stable R body -> (forall e, stable R (handler e)) ->
stable R (try_except body catches handler).
Proof.
  intros Hb Hh w. unfold try_except. specialize (Hb w).
  destruct (body w) as [[a|e] w1]; simpl in *; [exact Hb|].
  destruct (catches e); [|exact Hb].
  transitivity w1; [exact Hb | apply Hh].
Qed.

Lemma stable_for_each {A} (l : list A) (body : A -> M unit) :
  (forall x, stable R (body x)) -> stable R (for_each l body).
Proof.
  intros Hb. induction l as [|x l IH]; simpl.
  - apply stable_ret.
  - apply stable_bind; [apply Hb | intros _; exact IH].
Qed.

End Stable.

Lemma evolves_refl (w : world) : evolves w w.
Proof.
  split; try reflexivity; exists []; rewrite app_nil_r; auto.
Qed.

Lemma evolves_trans (w1 w2 w3 : world) : evolves w1 w2 -> evolves w2 w3 -> evolves w1 w3.
Proof.
  intros [f1 l1 u1 a1 p1 (n1 & b1 & c1) [r1 q1]] [f2 l2 u2 a2 p2 (n2 & b2 & c2) [r2 q2]].
  split; [congruence | congruence | congruence | congruence | | |].
  - intros id. now rewrite p2, p1.
  - exists (n1 ++ n2). split; [now rewrite b2, b1, <- app_assoc | now apply Forall_app].
  - exists (r1 ++ r2). now rewrite q2, q1, <- app_assoc.
Qed.

#[local] Instance evolves_preorder : PreOrder evolves.
Proof. split; [exact evolves_refl | exact evolves_trans]. Qed.

Lemma steady_refl (w : world) : steady w w.
Proof. split; [apply evolves_refl | reflexivity]. Qed.

Lemma steady_trans (w1 w2 w3 : world) : steady w1 w2 -> steady w2 w3 -> steady w1 w3.
Proof.
  intros [e1 m1] [e2 m2]. split; [eapply evolves_trans; eauto | congruence].
Qed.

#[local] Instance steady_preorder : PreOrder steady.
Proof. split; [exact steady_refl | exact steady_trans]. Qed.

Lemma steady_evolves (w w' : world) : steady w w' -> evolves w w'.
Proof. now intros [H _]. Qed.

Lemma steady_log_stdout (s : string) (w : world) : steady w (log_stdout s w).
Proof.
  split; [|reflexivity].
  split; try reflexivity; exists []; simpl; rewrite app_nil_r; auto.
Qed.

Lemma steady_log_prompt (r : model_request) (w : world) : steady w (log_prompt r w).
Proof.
  split; [|reflexivity].
  split; try reflexivity; exists []; simpl; rewrite app_nil_r; auto.
Qed.

Lemma steady_log_request (r : request) (w : world) : steady w (log_request r w).
Proof.
  split; [|reflexivity].
  split; try reflexivity; [exists [] | exists [r]]; simpl; rewrite ?app_nil_r; auto.
Qed.

Lemma steady_add_label (l : label) (w : world) :
  lid l <> "" -> steady w (add_label l w).
Proof.
  intros Hl. split; [|reflexivity].
  split; try reflexivity; [exists [l] | exists []]; simpl; rewrite ?app_nil_r; auto.
Qed.

Lemma evolves_set_mailbox (id : string) (m : message) (add remove : list string) (w : world) :
  mailbox w !! id = Some m ->
  evolves w (set_mailbox (<[id := relabel add remove m]> (mailbox w)) w).
Proof.
  intros Hm. split; try reflexivity; try (exists []; simpl; rewrite app_nil_r; now auto).
  intros id'. simpl. destruct (decide (id = id')) as [<-|Hne].
  - now rewrite lookup_insert_eq, Hm.
  - now rewrite lookup_insert_ne.
Qed.

Lemma steadily_print (s : string) : steadily (print s).
Proof. intros w. apply steady_log_stdout. Qed.

Lemma steadily_execute (r : request) : steadily (execute r).
Proof.
  intros w. unfold execute. destruct (fault w _); apply steady_log_request.
Qed.

Lemma steadily_generate (r : model_request) : steadily (generate r).
Proof.
  intros w. unfold generate. destruct (llm w _ _); apply steady_log_prompt.
Qed.

Create HintDb stable.
#[local] Hint Resolve steadily_print steadily_execute steadily_generate : stable.
#[local] Hint Extern 1 (stable _ (ret _)) => apply stable_ret; typeclasses eauto : stable.
#[local] Hint Extern 1 (stable _ (lift _)) => apply stable_lift; typeclasses eauto : stable.
#[local] Hint Extern 1 (stable _ (raise _)) => apply stable_raise; typeclasses eauto : stable.

Ltac stable_step :=
  first
    [ solve [auto with stable]
    | apply stable_try_except; [typeclasses eauto | | intros ?]
    | apply stable_bind; [typeclasses eauto | | intros ?]
    | match goal with
      | |- stable _ (match ?x with _ => _ end) => destruct x eqn:?
      | |- stable _ (if ?b then _ else _) => destruct b eqn:?
      end ].

Ltac stable_tac := repeat stable_step.

Lemma steadily_messages_list (q : string) (n : nat) : steadily (messages_list q n).
Proof.
  unfold messages_list. stable_tac. intros w. apply steady_refl.
Qed.

Lemma steadily_messages_get (id : string) : steadily (messages_get id).
Proof.
  unfold messages_get. stable_tac. intros w. destruct (mailbox w !! id); apply steady_refl.
Qed.

Lemma steadily_labels_list : steadily labels_list.
Proof.
  unfold labels_list. stable_tac. intros w. apply steady_refl.
Qed.

Lemma steadily_labels_create (name llv mlv : string) : steadily (labels_create name llv mlv).
Proof.
  unfold labels_create. stable_tac. intros w. apply steady_add_label. discriminate.
Qed.

#[local] Hint Resolve steadily_messages_list steadily_messages_get steadily_labels_list
  steadily_labels_create : stable.

Lemma steadily_main_fetch : steadily Main.fetch_unread_message_ids.
Proof. unfold Main.fetch_unread_message_ids. stable_tac. Qed.

Lemma steadily_main_get_message_text (id : string) : steadily (Main.get_message_text id).
Proof. unfold Main.get_message_text. stable_tac. Qed.

Lemma steadily_main_classify_email (text : string) : steadily (Main.classify_email text).
Proof. unfold Main.classify_email. stable_tac. Qed.

Lemma steadily_main_get_or_create_label (name : string) :
  steadily (Main.get_or_create_label name).
Proof. unfold Main.get_or_create_label. stable_tac. Qed.

Lemma steadily_tagger_fetch : steadily Tagger.fetch_unread_message_ids.
Proof. unfold Tagger.fetch_unread_message_ids. stable_tac. Qed.

Lemma steadily_tagger_get_message_text (id : string) : steadily (Tagger.get_message_text id).
Proof. unfold Tagger.get_message_text. stable_tac. Qed.

Lemma steadily_tagger_classify_email (json_loads : string -> option json) (text : string) :
  steadily (Tagger.classify_email json_loads text).
Proof. unfold Tagger.classify_email. stable_tac. Qed.

Lemma steadily_tagger_get_or_create_label (name : string) :
  steadily (Tagger.get_or_create_label name).
Proof. unfold Tagger.get_or_create_label. stable_tac. Qed.

#[local] Hint Resolve steadily_main_fetch steadily_main_get_message_text
  steadily_main_classify_email steadily_main_get_or_create_label
  steadily_tagger_fetch steadily_tagger_get_message_text
  steadily_tagger_classify_email steadily_tagger_get_or_create_label : stable.

(** ** The stages of [main.py], one by one *)

Ltac break_match :=
  match goal with
  | |- context [match ?x with _ => _ end] =>
      lazymatch x with
      | context [match _ with _ => _ end] => fail
      | _ => destruct x eqn:?
      end
  end.

Ltac py_cases := unfold_py; repeat (break_match; cbn [fst snd]).

(** The requests a stage sends. *)
Lemma main_get_message_text_requests (id : string) (w : world) :
  requests (snd (Main.get_message_text id w)) = requests w ++ [GetMessage id].
Proof.
  unfold Main.get_message_text, messages_get. py_cases; reflexivity.
Qed.

Lemma main_classify_email_requests (text : string) (w : world) :
  requests (snd (Main.classify_email text w)) = requests w.
Proof.
  unfold Main.classify_email. py_cases; reflexivity.
Qed.

Lemma main_get_or_create_label_requests (name : string) (w : world) :
  exists rs, requests (snd (Main.get_or_create_label name w)) = requests w ++ rs /\
             resolve_requests name rs.
Proof.
  unfold Main.get_or_create_label, labels_list, labels_create, resolve_requests.
  py_cases; simpl; rewrite <- ?app_assoc; simpl; eauto.
Qed.

(** What label resolution returns: the empty identifier, or the identifier
    of a label that bears the name asked for. *)
Lemma main_get_or_create_label_returns (name l : string) (w : world) :
  fst (Main.get_or_create_label name w) = Ok l ->
  l = "" \/ In (Label name l) (labels (snd (Main.get_or_create_label name w))).
Proof.
  unfold Main.get_or_create_label, labels_list, labels_create.
  py_cases; simpl; intros [= <-]; auto.
  - right. match goal with H : List.find _ _ = Some ?x |- _ =>
      apply find_some in H; destruct H as [Hin Heq]; apply String.eqb_eq in Heq;
      destruct x; simpl in *; subst; exact Hin end.
  - right. apply in_or_app. right. left. reflexivity.
Qed.

(** [apply_label], one case per outcome of the [modify] request. *)
Lemma main_apply_label_eq (id l : string) (w : world) :
  Main.apply_label id l w =
    let w1 := log_request (ModifyMessage id [l] [UNREAD]) w in
    let failed e :=
      (Ok tt, log_stdout ("An error occurred while applying the label: " ++ exn_str e) w1) in
    match fault w (length (requests w)) with
    | Some e => if is_HttpError e then failed e else (Raise e, w1)
    | None =>
        match mailbox w !! id with
        | Some m => (Ok tt, set_mailbox (<[id := relabel [l] [UNREAD] m]> (mailbox w)) w1)
        | None => failed (not_found id)
        end
    end.
Proof.
  unfold Main.apply_label, messages_modify. py_cases; simpl in *; try congruence.
  unfold is_HttpError, not_found in *. simpl in *. discriminate.
Qed.

(** The loop body, stage after stage. *)
Lemma main_loop_body_eq (s : msg_summary) (w : world) :
  Main.main_loop_body s w =
    let id := msg_id s in
    match Main.get_message_text id w with
    | (Raise e, w1) => (Raise e, w1)
    | (Ok text, w1) =>
        if truthy_str text then
          match Main.classify_email text w1 with
          | (Raise e, w2) => (Raise e, w2)
          | (Ok category, w2) =>
              match Main.get_or_create_label category
                      (log_stdout (Main.classified_line id category) w2) with
              | (Raise e, w3) => (Raise e, w3)
              | (Ok l, w3) =>
                  if truthy_str l then
                    match Main.apply_label id l w3 with
                    | (Raise e, w4) => (Raise e, w4)
                    | (Ok _, w4) => (Ok tt, log_stdout (Main.success_line id) w4)
                    end
                  else (Ok tt, w3)
              end
          end
        else (Ok tt, log_stdout (Main.skipped_line id) w1)
    end.
Proof.
  unfold Main.main_loop_body. cbv zeta. unfold bind at 1.
  destruct (Main.get_message_text (msg_id s) w) as [[text|e] w1]; [|reflexivity].
  destruct (truthy_str text); [|reflexivity]. cbn [negb].
  unfold bind at 1.
  destruct (Main.classify_email text w1) as [[c|e] w2]; [|reflexivity].
  unfold bind at 1. unfold print at 1. unfold bind at 1.
  destruct (Main.get_or_create_label c _) as [[l|e] w3]; [|reflexivity].
  destruct (truthy_str l); [|reflexivity].
  unfold bind at 1.
  destruct (Main.apply_label (msg_id s) l w3) as [[[]|e] w4]; reflexivity.
Qed.

(** ** The stages of [tagger.py] *)

Lemma tagger_get_message_text_requests (id : string) (w : world) :
  requests (snd (Tagger.get_message_text id w)) = requests w ++ [GetMessage id].
Proof.
  unfold Tagger.get_message_text, messages_get. py_cases; reflexivity.
Qed.

Lemma tagger_classify_email_requests (json_loads : string -> option json)
      (text : string) (w : world) :
  requests (snd (Tagger.classify_email json_loads text w)) = requests w.
Proof.
  unfold Tagger.classify_email. py_cases; reflexivity.
Qed.

(** When [tagger.py]'s classifier returns, it returns a category. *)
Lemma tagger_classify_email_closed (json_loads : string -> option json)
      (text c : string) (w : world) :
  fst (Tagger.classify_email json_loads text w) = Ok c -> In c CATEGORIES.
Proof.
  rewrite tagger_classify_email_eq.
  destruct (llm w _ _) as [content|e]; [|discriminate].
  destruct (Tagger.parse_category json_loads content) as [[c'|]|e] eqn:Hp.
  - intros [= <-]. unfold Tagger.parse_category in Hp.
    repeat match type of Hp with
           | context [match ?x with _ => _ end] => destruct x eqn:?; try discriminate
           end.
    injection Hp as <-. now apply in_CATEGORIES_In.
  - intros [= <-]. simpl. auto.
  - destruct (is_JSONDecodeError e); [|discriminate].
    intros [= <-]. simpl. auto.
Qed.

Lemma tagger_get_or_create_label_requests (name : string) (w : world) :
  exists rs, requests (snd (Tagger.get_or_create_label name w)) = requests w ++ rs /\
             resolve_requests name rs.
Proof.
  unfold Tagger.get_or_create_label, labels_list, labels_create, resolve_requests.
  py_cases; simpl; rewrite <- ?app_assoc; simpl; eauto.
Qed.

(** What [tagger.py]'s label resolution returns is the identifier of a
    label that bears the name asked for. *)
Lemma tagger_get_or_create_label_returns (name l : string) (w : world) :
  fst (Tagger.get_or_create_label name w) = Ok l ->
  In (Label name l) (labels (snd (Tagger.get_or_create_label name w))).
Proof.
  unfold Tagger.get_or_create_label, labels_list, labels_create.
  py_cases; simpl; intros [= <-]; auto.
  - match goal with H : List.find _ _ = Some ?x |- _ =>
      apply find_some in H; destruct H as [Hin Heq]; apply String.eqb_eq in Heq;
      destruct x; simpl in *; subst; exact Hin end.
  - apply in_or_app. right. left. reflexivity.
Qed.

Lemma tagger_apply_label_eq (id l : string) (w : world) :
  Tagger.apply_label id l w =
    let w1 := log_request (ModifyMessage id [l] [UNREAD]) w in
    match fault w (length (requests w)) with
    | Some e => (Raise e, w1)
    | None =>
        match mailbox w !! id with
        | Some m => (Ok tt, set_mailbox (<[id := relabel [l] [UNREAD] m]> (mailbox w)) w1)
        | None => (Raise (not_found id), w1)
        end
    end.
Proof.
  unfold Tagger.apply_label, messages_modify. py_cases; simpl in *; congruence.
Qed.

Lemma tagger_loop_body_eq (json_loads : string -> option json) (s : msg_summary) (w : world) :
  Tagger.main_loop_body json_loads s w =
    let mid := msg_id s in
    match Tagger.get_message_text mid w with
    | (Raise e, w1) => (Raise e, w1)
    | (Ok text, w1) =>
        match Tagger.classify_email json_loads text w1 with
        | (Raise e, w2) => (Raise e, w2)
        | (Ok category, w2) =>
            match Tagger.get_or_create_label category w2 with
            | (Raise e, w3) => (Raise e, w3)
            | (Ok l, w3) =>
                match Tagger.apply_label mid l w3 with
                | (Raise e, w4) => (Raise e, w4)
                | (Ok _, w4) => (Ok tt, log_stdout ("Msg " ++ mid ++ ": â†’ " ++ category) w4)
                end
            end
        end
    end.
Proof.
  unfold Tagger.main_loop_body. cbv zeta. unfold bind at 1.
  destruct (Tagger.get_message_text (msg_id s) w) as [[text|e] w1]; [|reflexivity].
  unfold bind at 1.
  destruct (Tagger.classify_email json_loads text w1) as [[c|e] w2]; [|reflexivity].
  unfold bind at 1.
  destruct (Tagger.get_or_create_label c w2) as [[l|e] w3]; [|reflexivity].
  unfold bind at 1.
  destruct (Tagger.apply_label (msg_id s) l w3) as [[[]|e] w4]; reflexivity.
Qed.

(** ** Mutations and the label they carry *)

#[local] Instance sends_preorder (P : request -> Prop) : PreOrder (sends P).
Proof.
  split.
  - intros w. exists []. split; [now rewrite app_nil_r | constructor].
  - intros w1 w2 w3 (n1 & E1 & F1) (n2 & E2 & F2).
    exists (n1 ++ n2). split; [now rewrite E2, E1, <- app_assoc | now apply Forall_app].
Qed.

Lemma sends_sent (P : request -> Prop) (w w' : world) :
  sends P w w' -> Forall P (sent w w').
Proof.
  intros (new & E & F). unfold sent. rewrite E. now rewrite drop_app_length.
Qed.

Lemma sends_same (P : request -> Prop) (w w' : world) :
  requests w' = requests w -> sends P w w'.
Proof. intros E. exists []. split; [now rewrite app_nil_r | constructor]. Qed.

Lemma sends_one (P : request -> Prop) (r : request) (w w' : world) :
  requests w' = requests w ++ [r] -> P r -> sends P w w'.
Proof. intros E Hr. exists [r]. split; [exact E | repeat constructor; exact Hr]. Qed.

Lemma sends_resolve (name : string) (w w' : world) :
  (exists rs, requests w' = requests w ++ rs /\ resolve_requests name rs) ->
  sends mutation_ok w w'.
Proof.
  intros (rs & E & [-> | ->]); eexists; (split; [exact E|]); repeat constructor.
Qed.

Lemma truthy_str_nonempty (s : string) : truthy_str s = true <-> s <> "".
Proof. destruct s; simpl; split; congruence. Qed.

(** [main.py]: one iteration sends no mutation with the empty identifier. *)
Lemma main_loop_body_sends (s : msg_summary) (w : world) :
  sends mutation_ok w (snd (Main.main_loop_body s w)).
Proof.
  rewrite main_loop_body_eq. cbv zeta.
  pose proof (main_get_message_text_requests (msg_id s) w) as H1.
  destruct (Main.get_message_text (msg_id s) w) as [[text|e] w1]; simpl in H1;
    [|now apply (sends_one _ _ _ _ H1)].
  assert (S1 : sends mutation_ok w w1) by now apply (sends_one _ _ _ _ H1).
  destruct (truthy_str text); [|etransitivity; [exact S1 | now apply sends_same]].
  pose proof (main_classify_email_requests text w1) as H2.
  destruct (Main.classify_email text w1) as [[c|e] w2]; simpl in H2;
    [|etransitivity; [exact S1 | now apply sends_same]].
  assert (S2 : sends mutation_ok w w2)
    by (etransitivity; [exact S1 | now apply sends_same]).
  pose proof (main_get_or_create_label_requests c
                (log_stdout (Main.classified_line (msg_id s) c) w2)) as H3.
  destruct (Main.get_or_create_label c _) as [[l|e] w3]; simpl in H3;
    apply sends_resolve in H3;
    assert (S3 : sends mutation_ok w w3)
      by (etransitivity; [exact S2 | exact H3]);
    [|exact S3].
  destruct (truthy_str l) eqn:Hl; [|exact S3].
  apply truthy_str_nonempty in Hl.
  assert (S4 : sends mutation_ok w3 (snd (Main.apply_label (msg_id s) l w3))).
  { rewrite main_apply_label_eq. cbv zeta.
    assert (Hok : mutation_ok (ModifyMessage (msg_id s) [l] [UNREAD]))
      by (simpl; eauto).
    repeat break_match; simpl; eapply sends_one; eauto. }
  destruct (Main.apply_label (msg_id s) l w3) as [[[]|e] w4]; simpl in *;
    etransitivity; solve [exact S3 | exact S4].
Qed.

(** *** What [tagger.py]'s [main] does as it stands *)

Lemma sent_same (w : world) : sent w w = [].
Proof. unfold sent. apply drop_all. Qed.

(** [gmail_authenticate] raises and leaves the world as it found it, so
    [main] ends before its loop. *)
Lemma tagger_main_stops (json_loads : string -> option json) (w : world) :
  exists e, Tagger.main json_loads w = (Raise e, w) /\ is_HttpError e = false.
Proof.
  unfold Tagger.main, Tagger.gmail_authenticate, bind.
  destruct (auth w); eexists; split; reflexivity.
Qed.

(** *** Every program of the pipeline evolves the world *)

Lemma evolving_of_steadily {A} (m : M A) : steadily m -> evolving m.
Proof. intros H w. apply steady_evolves, H. Qed.

Lemma evolving_messages_modify (id : string) (add remove : list string) :
  evolving (messages_modify id add remove).
Proof.
  intros w. unfold messages_modify, bind, execute.
  destruct (fault w _); cbn [snd].
  - apply steady_evolves, steady_log_request.
  - destruct (mailbox (log_request _ w) !! id) as [m|] eqn:Hm; cbn [snd].
    + transitivity (log_request (ModifyMessage id add remove) w).
      * apply steady_evolves, steady_log_request.
      * now apply evolves_set_mailbox.
    + apply steady_evolves, steady_log_request.
Qed.

Lemma steadily_gmail_authenticate : steadily Main.gmail_authenticate.
Proof.
  intros w. unfold Main.gmail_authenticate.
  destruct (auth w); unfold_py; cbn [snd];
    repeat (etransitivity; [|apply steady_log_stdout]); reflexivity.
Qed.

#[local] Hint Resolve evolving_of_steadily evolving_messages_modify
  steadily_gmail_authenticate : stable.

Ltac stable_loop :=
  repeat first
    [ apply stable_for_each; [typeclasses eauto | intros ?]
    | stable_step ].

Lemma evolving_main_apply_label (id l : string) : evolving (Main.apply_label id l).
Proof. unfold Main.apply_label. stable_tac. Qed.

Lemma evolving_tagger_apply_label (id l : string) : evolving (Tagger.apply_label id l).
Proof. unfold Tagger.apply_label. stable_tac. Qed.

#[local] Hint Resolve evolving_main_apply_label evolving_tagger_apply_label : stable.

Lemma evolving_main_loop_body (s : msg_summary) : evolving (Main.main_loop_body s).
Proof. unfold Main.main_loop_body. cbv zeta. stable_tac. Qed.

Lemma evolving_tagger_loop_body (json_loads : string -> option json) (s : msg_summary) :
  evolving (Tagger.main_loop_body json_loads s).
Proof. unfold Tagger.main_loop_body. cbv zeta. stable_tac. Qed.

#[local] Hint Resolve evolving_main_loop_body evolving_tagger_loop_body : stable.

Lemma evolving_main : evolving Main.main.
Proof. unfold Main.main. stable_loop. Qed.

Lemma evolving_tagger_main (json_loads : string -> option json) :
  evolving (Tagger.main_loop json_loads).
Proof. unfold Tagger.main_loop. stable_loop. Qed.

(** *** What a run sends *)

Lemma sends_steadily_quiet (P : request -> Prop) {A} (m : M A) :
  (forall w, requests (snd (m w)) = requests w) -> stable (sends P) m.
Proof. intros H w. apply sends_same, H. Qed.

Lemma sends_print (P : request -> Prop) (s : string) : stable (sends P) (print s).
Proof. now apply sends_steadily_quiet. Qed.

Lemma sends_gmail_authenticate (P : request -> Prop) :
  stable (sends P) Main.gmail_authenticate.
Proof.
  apply sends_steadily_quiet. intros w. unfold Main.gmail_authenticate.
  destruct (auth w); reflexivity.
Qed.

Lemma sends_messages_list (q : string) (n : nat) :
  stable (sends mutation_ok) (messages_list q n).
Proof.
  intros w. apply (sends_one _ (ListMessages q n)); [|exact I].
  unfold messages_list. py_cases; reflexivity.
Qed.

Lemma main_loop_body_sends_stable (s : msg_summary) :
  stable (sends mutation_ok) (Main.main_loop_body s).
Proof. intros w. apply main_loop_body_sends. Qed.

#[local] Hint Resolve sends_print sends_gmail_authenticate sends_messages_list
  main_loop_body_sends_stable : stable.

Lemma main_sends : stable (sends mutation_ok) Main.main.
Proof.
  unfold Main.main, Main.fetch_unread_message_ids. stable_loop.
Qed.

Lemma labels_ok_evolves (w w' : world) : evolves w w' -> labels_ok w -> labels_ok w'.
Proof.
  intros [_ _ _ _ _ (new & E & F) _] H. unfold labels_ok. rewrite E.
  now apply Forall_app.
Qed.

(** [tagger.py]: one iteration sends no mutation with the empty identifier,
    as long as the service has no label with that identifier. *)
Lemma tagger_loop_body_sends (json_loads : string -> option json)
      (s : msg_summary) (w : world) :
  labels_ok w -> sends mutation_ok w (snd (Tagger.main_loop_body json_loads s w)).
Proof.
  intros Hok. rewrite tagger_loop_body_eq. cbv zeta.
  pose proof (tagger_get_message_text_requests (msg_id s) w) as H1.
  pose proof (steadily_tagger_get_message_text (msg_id s) w) as E1.
  destruct (Tagger.get_message_text (msg_id s) w) as [[text|e] w1]; simpl in H1, E1;
    [|now apply (sends_one _ _ _ _ H1)].
  assert (S1 : sends mutation_ok w w1) by now apply (sends_one _ _ _ _ H1).
  pose proof (tagger_classify_email_requests json_loads text w1) as H2.
  pose proof (steadily_tagger_classify_email json_loads text w1) as E2.
  destruct (Tagger.classify_email json_loads text w1) as [[c|e] w2]; simpl in H2, E2;
    [|etransitivity; [exact S1 | now apply sends_same]].
  assert (S2 : sends mutation_ok w w2)
    by (etransitivity; [exact S1 | now apply sends_same]).
  pose proof (tagger_get_or_create_label_requests c w2) as H3.
  pose proof (steadily_tagger_get_or_create_label c w2) as E3.
  pose proof (fun l => tagger_get_or_create_label_returns c l w2) as R3.
  destruct (Tagger.get_or_create_label c w2) as [[l|e] w3]; simpl in H3, E3, R3;
    apply sends_resolve in H3;
    assert (S3 : sends mutation_ok w w3)
      by (etransitivity; [exact S2 | exact H3]);
    [|exact S3].
  assert (Hl : l <> "").
  { assert (Hok3 : labels_ok w3).
    { apply (labels_ok_evolves w); [|exact Hok].
      transitivity w1; [apply steady_evolves, E1|].
      transitivity w2; [apply steady_evolves, E2 | apply steady_evolves, E3]. }
    exact (proj1 (List.Forall_forall _ _) Hok3 _ (R3 l eq_refl)). }
  assert (S4 : sends mutation_ok w3 (snd (Tagger.apply_label (msg_id s) l w3))).
  { rewrite tagger_apply_label_eq. cbv zeta.
    assert (Hm : mutation_ok (ModifyMessage (msg_id s) [l] [UNREAD]))
      by (simpl; eauto).
    repeat break_match; simpl; eapply sends_one; eauto. }
  destruct (Tagger.apply_label (msg_id s) l w3) as [[[]|e] w4]; simpl in *;
    etransitivity; solve [exact S3 | exact S4].
Qed.

#[local] Instance sends_if_ok_preorder : PreOrder sends_if_ok.
Proof.
  split.
  - intros w H. split; [exact H | reflexivity].
  - intros w1 w2 w3 H12 H23 H. destruct (H12 H) as [H2 S12].
    destruct (H23 H2) as [H3 S23]. split; [exact H3 | now transitivity w2].
Qed.

Lemma sends_if_ok_intro {A} (m : M A) :
  evolving m -> stable (sends mutation_ok) m -> stable sends_if_ok m.
Proof.
  intros He Hs w Hok. split; [exact (labels_ok_evolves w _ (He w) Hok) | apply Hs].
Qed.

Lemma tagger_loop_body_sends_if_ok (json_loads : string -> option json) (s : msg_summary) :
  stable sends_if_ok (Tagger.main_loop_body json_loads s).
Proof.
  intros w Hok. split.
  - exact (labels_ok_evolves w _ (evolving_tagger_loop_body json_loads s w) Hok).
  - now apply tagger_loop_body_sends.
Qed.

Lemma tagger_main_sends (json_loads : string -> option json) :
  stable sends_if_ok (Tagger.main_loop json_loads).
Proof.
  unfold Tagger.main_loop. apply stable_bind; [typeclasses eauto | |].
  - apply sends_if_ok_intro; [auto with stable|].
    unfold Tagger.fetch_unread_message_ids. stable_tac.
  - intros messages. apply stable_for_each; [typeclasses eauto|].
    intros s. apply tagger_loop_body_sends_if_ok.
Qed.

(** When label resolution gives the empty identifier, the iteration of
    [main.py] ends right there. *)
Lemma main_loop_body_skips_mutation
      (s : msg_summary) (w : world) (text : string) (w1 : world)
      (category : string) (w2 w3 : world) :
  Main.get_message_text (msg_id s) w = (Ok text, w1) ->
  text <> "" ->
  Main.classify_email text w1 = (Ok category, w2) ->
  Main.get_or_create_label category
    (log_stdout (Main.classified_line (msg_id s) category) w2) = (Ok "", w3) ->
  Main.main_loop_body s w = (Ok tt, w3).
Proof.
  intros H1 Ht H2 H3. rewrite main_loop_body_eq. cbv zeta. rewrite H1.
  apply truthy_str_nonempty in Ht. rewrite Ht, H2, H3. reflexivity.
Qed.

(** C7: no run sends a mutation that carries the empty label identifier.
    [main.py] guards the mutation with [if label_id]: when resolution
    gives the empty identifier the iteration ends in the world resolution
    left, nothing more being sent.  In [tagger.py] a failed resolution is
    an exception, which ends the run before the mutation, so that the
    identifier its loop passes on is one the service listed or assigned;
    [main] itself, which ends at authentication, sends no mutation at
    all. *)
Theorem mutation_never_carries_empty_label
        (json_loads : string -> option json) (w : world) :
  Forall mutation_ok (sent w (snd (Main.main w))) /\
  (forall s text w1 category w2 w3,
     Main.get_message_text (msg_id s) w = (Ok text, w1) ->
     text <> "" ->
     Main.classify_email text w1 = (Ok category, w2) ->
     Main.get_or_create_label category
       (log_stdout (Main.classified_line (msg_id s) category) w2) = (Ok "", w3) ->
     Main.main_loop_body s w = (Ok tt, w3)) /\
  (labels_ok w -> Forall mutation_ok (sent w (snd (Tagger.main_loop json_loads w)))) /\
  Forall mutation_ok (sent w (snd (Tagger.main json_loads w))).
Proof.
  split; [|split; [|split]].
  - apply sends_sent, main_sends.
  - intros s text w1 category w2 w3. apply main_loop_body_skips_mutation.
  - intros Hok. apply sends_sent. now apply (tagger_main_sends json_loads w).
  - destruct (tagger_main_stops json_loads w) as (e & -> & _).
    cbn [snd]. rewrite sent_same. constructor.
Qed.

Lemma mutation_never_carries_empty_label_witness :
  Forall mutation_ok (sent Fixture.w_multi (snd (Main.main Fixture.w_multi))) /\
  Forall mutation_ok
    (sent Fixture.w_multi (snd (Tagger.main_loop Fixture.json_loads Fixture.w_multi))).
Proof.
  destruct (mutation_never_carries_empty_label Fixture.json_loads Fixture.w_multi)
    as (Hmain & _ & Htagger & _).
  split; [exact Hmain | apply Htagger].
  repeat constructor; discriminate.
Defined.

(** The guard at work: label resolution fails, nothing is mutated. *)
Example main_skips_mutation_when_resolution_fails :
  let w := Fixture.world_of {[ "m1" := Fixture.single_part ]} ["m1"]
             (fun n => if Nat.eqb n 2 then Some (Exn HttpError "<HttpError 500>") else None)
             (Fixture.answers "Invoices") in
  sent w (snd (Main.main w)) = [ListMessages "is:unread" 10; GetMessage "m1"; ListLabels] /\
  mailbox (snd (Main.main w)) = mailbox w.
Proof. split; reflexivity. Qed.

(** ** The mutation and its report *)

Lemma retrieved_app (a b : list request) : retrieved (a ++ b) = retrieved a ++ retrieved b.
Proof. unfold retrieved. now rewrite flat_map_app. Qed.

Lemma main_apply_label_requests (id l : string) (w : world) :
  requests (snd (Main.apply_label id l w)) = requests w ++ [ModifyMessage id [l] [UNREAD]].
Proof.
  rewrite main_apply_label_eq. cbv zeta. repeat break_match; reflexivity.
Qed.

Lemma main_loop_body_requests (s : msg_summary) (w : world) :
  exists rs, requests (snd (Main.main_loop_body s w)) = requests w ++ rs /\
             body_requests (msg_id s) rs.
Proof.
  rewrite main_loop_body_eq. cbv zeta.
  pose proof (main_get_message_text_requests (msg_id s) w) as H1.
  destruct (Main.get_message_text (msg_id s) w) as [[text|e] w1]; simpl in H1;
    [|exists [GetMessage (msg_id s)]; split; [exact H1 | constructor]].
  destruct (truthy_str text);
    [|exists [GetMessage (msg_id s)]; split; [exact H1 | constructor]].
  pose proof (main_classify_email_requests text w1) as H2.
  destruct (Main.classify_email text w1) as [[c|e] w2]; simpl in H2;
    [|exists [GetMessage (msg_id s)]; split; [simpl; congruence | constructor]].
  destruct (main_get_or_create_label_requests c
              (log_stdout (Main.classified_line (msg_id s) c) w2)) as (rs & H3 & Hrs).
  simpl in H3.
  assert (E3 : requests (snd (Main.get_or_create_label c
                 (log_stdout (Main.classified_line (msg_id s) c) w2)))
               = requests w ++ GetMessage (msg_id s) :: rs)
    by (rewrite H3, H2, H1, <- app_assoc; reflexivity).
  destruct (Main.get_or_create_label c _) as [[l|e] w3]; simpl in E3;
    [|exists (GetMessage (msg_id s) :: rs); split; [exact E3 | econstructor; exact Hrs]].
  destruct (truthy_str l);
    [|exists (GetMessage (msg_id s) :: rs); split; [exact E3 | econstructor; exact Hrs]].
  pose proof (main_apply_label_requests (msg_id s) l w3) as H4.
  exists (GetMessage (msg_id s) :: rs ++ [ModifyMessage (msg_id s) [l] [UNREAD]]).
  split; [|econstructor; exact Hrs].
  destruct (Main.apply_label (msg_id s) l w3) as [[[]|e] w4]; simpl in *;
    rewrite H4, E3, <- app_assoc; reflexivity.
Qed.

Lemma last_resolve_requests (name : string) (rs : list request) (x : request) :
  resolve_requests name rs ->
  last (x :: rs) = Some ListLabels \/ last (x :: rs) = Some (CreateLabel name "labelShow" "show").
Proof. intros [-> | ->]; simpl; auto. Qed.

(** C10: [apply_label] returns [None] when the [modify] request succeeds
    and when it raises [HttpError]; so whenever an iteration of [main.py]
    gets as far as the mutation and the request does one or the other,
    the iteration ends normally and its last printed line is the success
    line, whether the message has changed or not. *)
Theorem main_apply_label_reports_nothing (s : msg_summary) (w : world) :
  (forall l,
     (forall e, fault w (length (requests w)) = Some e -> is_HttpError e = true) ->
     fst (Main.apply_label (msg_id s) l w) = Ok tt) /\
  (forall l,
     let w' := snd (Main.main_loop_body s w) in
     last (requests w') = Some (ModifyMessage (msg_id s) [l] [UNREAD]) ->
     (forall e, fault w (length (requests w') - 1) = Some e -> is_HttpError e = true) ->
     fst (Main.main_loop_body s w) = Ok tt /\
     last (stdout w') = Some (Main.success_line (msg_id s))).
Proof.
  assert (HA : forall l w0,
     (forall e, fault w0 (length (requests w0)) = Some e -> is_HttpError e = true) ->
     exists w1, Main.apply_label (msg_id s) l w0 = (Ok tt, w1)).
  { intros l w0 Hf. rewrite main_apply_label_eq. cbv zeta.
    destruct (fault w0 _) as [e|] eqn:He.
    - rewrite (Hf e eq_refl). eauto.
    - destruct (mailbox w0 !! msg_id s); eauto. }
  split.
  { intros l Hf. destruct (HA l w Hf) as [w1 ->]. reflexivity. }
  intros l w' Hlast Hf. subst w'.
  rewrite main_loop_body_eq in *. cbv zeta in *.
  pose proof (main_get_message_text_requests (msg_id s) w) as H1.
  pose proof (steadily_main_get_message_text (msg_id s) w) as E1.
  destruct (Main.get_message_text (msg_id s) w) as [[text|e] w1]; simpl in H1, E1;
    [|simpl in Hlast; rewrite H1, last_snoc in Hlast; discriminate].
  destruct (truthy_str text);
    [|simpl in Hlast; rewrite H1, last_snoc in Hlast; discriminate].
  pose proof (main_classify_email_requests text w1) as H2.
  pose proof (steadily_main_classify_email text w1) as E2.
  destruct (Main.classify_email text w1) as [[c|e] w2]; simpl in H2, E2;
    [|simpl in Hlast; rewrite H2, H1, last_snoc in Hlast; discriminate].
  destruct (main_get_or_create_label_requests c
              (log_stdout (Main.classified_line (msg_id s) c) w2)) as (rs & H3 & Hrs).
  pose proof (steadily_main_get_or_create_label c
                (log_stdout (Main.classified_line (msg_id s) c) w2)) as E3.
  simpl in H3.
  assert (Hnot : forall w3, requests w3 = requests w2 ++ rs ->
                 last (requests w3) = Some (ModifyMessage (msg_id s) [l] [UNREAD]) -> False).
  { intros w3 E Hl. rewrite E in Hl.
    destruct Hrs as [-> | ->].
    - rewrite last_snoc in Hl. discriminate.
    - change [ListLabels; CreateLabel c "labelShow" "show"]
        with ([ListLabels] ++ [CreateLabel c "labelShow" "show"]) in Hl.
      rewrite app_assoc, last_snoc in Hl. discriminate. }
  destruct (Main.get_or_create_label c _) as [[l'|e] w3]; simpl in H3, E3;
    [|exfalso; exact (Hnot w3 H3 Hlast)].
  destruct (truthy_str l'); [|exfalso; exact (Hnot w3 H3 Hlast)].
  pose proof (main_apply_label_requests (msg_id s) l' w3) as H4.
  assert (Hfault : fault w3 = fault w).
  { destruct E1 as [[F1 _ _ _ _ _ _] _]. destruct E2 as [[F2 _ _ _ _ _ _] _].
    destruct E3 as [[F3 _ _ _ _ _ _] _]. simpl in F3. congruence. }
  assert (Hf3 : forall e, fault w3 (length (requests w3)) = Some e -> is_HttpError e = true).
  { intros e He. apply Hf. rewrite <- Hfault, <- He. f_equal.
    destruct (Main.apply_label (msg_id s) l' w3) as [[[]|e'] w4]; simpl in *;
      rewrite H4, length_app; simpl; lia. }
  destruct (HA l' w3 Hf3) as [w4 E4]. rewrite E4. simpl.
  split; [reflexivity | apply last_snoc].
Qed.

(** The fourth request of the run, the [modify], is refused: the message
    is as it was, and the run reports it labelled and read. *)
Lemma main_apply_label_reports_nothing_witness :
  let w := log_request (ListMessages "is:unread" 10) Fixture.w_refused in
  let w' := snd (Main.main_loop_body (Summary "m1") w) in
  fst (Main.main_loop_body (Summary "m1") w) = Ok tt /\
  last (stdout w') = Some "Msg m1: Successfully labeled and marked as read." /\
  mailbox w' = mailbox w.
Proof.
  intros w w'.
  destruct (proj2 (main_apply_label_reports_nothing (Summary "m1") w) "Label_2")
    as [Hr Hl].
  - reflexivity.
  - intros e He. vm_compute in He. injection He as <-. reflexivity.
  - split; [exact Hr | split; [exact Hl | reflexivity]].
Defined.

Example main_reports_success_after_failed_mutation :
  let w' := snd (Main.main Fixture.w_refused) in
  mailbox w' = mailbox Fixture.w_refused /\
  stdout w' =
    ["Starting email classification process...";
     "Successfully authenticated with Gmail API using service account.";
     "Found 1 unread emails. Processing...";
     "Msg m1: Classified as 'Invoices'";
     "An error occurred while applying the label: <HttpError 403: Forbidden>";
     "Msg m1: Successfully labeled and marked as read.";
     "Processing complete."].
Proof. split; reflexivity. Qed.

(** ** Terminal states of a processed message *)

(** The update the mutation makes: the label is added, [UNREAD] is gone. *)
Lemma relabel_labelIds (l : string) (m : message) :
  labelIds (relabel [l] [UNREAD] m) = (labelIds m ∪ {[ l ]}) ∖ {[ UNREAD ]}.
Proof.
  unfold relabel. simpl. now rewrite !union_empty_r_L.
Qed.

Lemma relabel_read (l : string) (m : message) :
  (UNREAD ∉ labelIds (relabel [l] [UNREAD] m)) /\
  (l <> UNREAD -> l ∈ labelIds (relabel [l] [UNREAD] m)).
Proof.
  rewrite relabel_labelIds. split.
  - rewrite elem_of_difference, elem_of_singleton. tauto.
  - intros Hl. rewrite elem_of_difference, elem_of_union, !elem_of_singleton. tauto.
Qed.

Lemma steady_untouched (w w' : world) : steady w w' -> untouched w w'.
Proof. now intros [_ H]. Qed.

Lemma steady_labels_incl (w w' : world) (x : label) :
  steady w w' -> In x (labels w) -> In x (labels w').
Proof.
  intros [[_ _ _ _ _ (new & E & _) _] _] H. rewrite E. apply in_or_app. now left.
Qed.

(** The outcome of [main.py]'s mutation on the mailbox. *)
Lemma main_apply_label_mailbox (id l : string) (w : world) :
  let w' := snd (Main.apply_label id l w) in
  labels w' = labels w /\
  (mailbox w' = mailbox w \/
   exists m, mailbox w !! id = Some m /\
             fst (Main.apply_label id l w) = Ok tt /\
             mailbox w' = <[id := relabel [l] [UNREAD] m]> (mailbox w)).
Proof.
  rewrite main_apply_label_eq. cbv zeta.
  repeat break_match; simpl; split; eauto.
Qed.

Lemma tagger_apply_label_mailbox (id l : string) (w : world) :
  let w' := snd (Tagger.apply_label id l w) in
  labels w' = labels w /\
  (mailbox w' = mailbox w /\ (forall u, fst (Tagger.apply_label id l w) <> Ok u) \/
   exists m, mailbox w !! id = Some m /\
             fst (Tagger.apply_label id l w) = Ok tt /\
             mailbox w' = <[id := relabel [l] [UNREAD] m]> (mailbox w)).
Proof.
  rewrite tagger_apply_label_eq. cbv zeta.
  repeat break_match; simpl; split; eauto; left; split; congruence.
Qed.

(** One iteration of [main.py]. *)
Lemma main_loop_body_terminal (s : msg_summary) (w : world) :
  let id := msg_id s in
  let w' := snd (Main.main_loop_body s w) in
  (untouched w w' \/ labelled_and_read w w' id) /\
  (fst (Main.get_message_text id w) = Ok "" -> untouched w w') /\
  (forall text w1 category w2 w3,
      Main.get_message_text id w = (Ok text, w1) ->
      Main.classify_email text w1 = (Ok category, w2) ->
      Main.get_or_create_label category
        (log_stdout (Main.classified_line id category) w2) = (Ok "", w3) ->
      untouched w w') /\
  (forall e, fst (Main.main_loop_body s w) = Raise e -> untouched w w').
Proof.
  cbv zeta. rewrite main_loop_body_eq. cbv zeta.
  pose proof (steadily_main_get_message_text (msg_id s) w) as E1.
  destruct (Main.get_message_text (msg_id s) w) as [[text|e] w1]; simpl in E1.
  2:{ pose proof (steady_untouched _ _ E1) as U. simpl.
      repeat split; auto. }
  destruct (truthy_str text) eqn:Ht.
  2:{ assert (U : untouched w (log_stdout (Main.skipped_line (msg_id s)) w1))
        by exact (steady_untouched _ _ E1).
      simpl. repeat split; auto. }
  pose proof (steadily_main_classify_email text w1) as E2.
  pose proof (main_classify_email_total text w1) as (c0 & Hc0 & Hcat).
  destruct (Main.classify_email text w1) as [[c|e] w2] eqn:H2c; simpl in E2, Hc0;
    [|discriminate].
  injection Hc0 as <-.
  assert (E12 : steady w (log_stdout (Main.classified_line (msg_id s) c) w2)).
  { transitivity w1; [exact E1|]. transitivity w2; [exact E2 | apply steady_log_stdout]. }
  pose proof (steadily_main_get_or_create_label c
                (log_stdout (Main.classified_line (msg_id s) c) w2)) as E3.
  pose proof (fun l => main_get_or_create_label_returns c l
                (log_stdout (Main.classified_line (msg_id s) c) w2)) as R3.
  destruct (Main.get_or_create_label c _) as [[l|e] w3] eqn:H3; simpl in E3, R3.
  2:{ assert (U : untouched w w3) by (apply steady_untouched; now transitivity
        (log_stdout (Main.classified_line (msg_id s) c) w2)).
      simpl. repeat split; auto. }
  assert (E03 : steady w w3)
    by (now transitivity (log_stdout (Main.classified_line (msg_id s) c) w2)).
  destruct (truthy_str l) eqn:Hl.
  2:{ pose proof (steady_untouched _ _ E03) as U. simpl.
      repeat split; auto. }
  apply truthy_str_nonempty in Hl.
  destruct (R3 l eq_refl) as [->|Hin]; [contradiction|].
  destruct (main_apply_label_mailbox (msg_id s) l w3) as [Hlab Hmb].
  assert (Hdisj : forall w4 (u : result unit),
            Main.apply_label (msg_id s) l w3 = (u, w4) ->
            untouched w w4 \/ labelled_and_read w w4 (msg_id s)).
  { intros w4 u E4. rewrite E4 in Hlab, Hmb. simpl in Hlab, Hmb.
    destruct E03 as [_ M03]. destruct Hmb as [M4 | (m & Hm & _ & M4)].
    - left. unfold untouched. congruence.
    - right. exists m, l, c. rewrite M4, M03. repeat split; auto.
      + now rewrite <- M03.
      + now rewrite Hlab. }
  assert (Hraise : forall w4 e, Main.apply_label (msg_id s) l w3 = (Raise e, w4) ->
            untouched w w4).
  { intros w4 e E4. rewrite E4 in Hmb. simpl in Hmb.
    destruct E03 as [_ M03]. destruct Hmb as [M4 | (m & _ & Hok & _)]; [|discriminate].
    unfold untouched. congruence. }
  destruct (Main.apply_label (msg_id s) l w3) as [[[]|e] w4] eqn:E4; simpl.
  - repeat split.
    + exact (Hdisj w4 _ eq_refl).
    + simpl. intros [= ->]. discriminate.
    + intros t w1' c' w2' w3' [= <- <-] Hc Hg.
      rewrite H2c in Hc. injection Hc as <- <-.
      rewrite H3 in Hg. injection Hg as Hl' _. contradiction.
    + discriminate.
  - repeat split.
    + exact (Hdisj w4 _ eq_refl).
    + simpl. intros [= ->]. discriminate.
    + intros t w1' c' w2' w3' [= <- <-] Hc Hg.
      rewrite H2c in Hc. injection Hc as <- <-.
      rewrite H3 in Hg. injection Hg as Hl' _. contradiction.
    + intros _ _. exact (Hraise w4 e eq_refl).
Qed.

(** One iteration of [tagger.py]. *)
Lemma tagger_loop_body_terminal (json_loads : string -> option json)
      (s : msg_summary) (w : world) :
  let id := msg_id s in
  let w' := snd (Tagger.main_loop_body json_loads s w) in
  (untouched w w' \/ labelled_and_read w w' id) /\
  (forall e, fst (Tagger.main_loop_body json_loads s w) = Raise e -> untouched w w').
Proof.
  cbv zeta. rewrite tagger_loop_body_eq. cbv zeta.
  pose proof (steadily_tagger_get_message_text (msg_id s) w) as E1.
  destruct (Tagger.get_message_text (msg_id s) w) as [[text|e] w1]; simpl in E1.
  2:{ pose proof (steady_untouched _ _ E1) as U. simpl. split; auto. }
  pose proof (steadily_tagger_classify_email json_loads text w1) as E2.
  pose proof (tagger_classify_email_closed json_loads text) as C2.
  specialize (fun c => C2 c w1).
  destruct (Tagger.classify_email json_loads text w1) as [[c|e] w2]; simpl in E2, C2.
  2:{ assert (U : untouched w w2) by (apply steady_untouched; now transitivity w1).
      simpl. split; auto. }
  specialize (C2 c eq_refl).
  pose proof (steadily_tagger_get_or_create_label c w2) as E3.
  pose proof (fun l => tagger_get_or_create_label_returns c l w2) as R3.
  destruct (Tagger.get_or_create_label c w2) as [[l|e] w3]; simpl in E3, R3.
  2:{ assert (U : untouched w w3)
        by (apply steady_untouched; transitivity w1; [|transitivity w2]; assumption).
      simpl. split; auto. }
  assert (E03 : steady w w3) by (transitivity w1; [|transitivity w2]; assumption).
  specialize (R3 l eq_refl).
  destruct (tagger_apply_label_mailbox (msg_id s) l w3) as [Hlab Hmb].
  destruct E03 as [_ M03].
  destruct (Tagger.apply_label (msg_id s) l w3) as [[[]|e] w4]; simpl in *.
  - split; [|discriminate].
    destruct Hmb as [[M4 Hno] | (m & Hm & _ & M4)].
    + exfalso. exact (Hno tt eq_refl).
    + right. exists m, l, c. simpl. rewrite M4, M03. repeat split; auto.
      * now rewrite <- M03.
      * now rewrite Hlab.
  - destruct Hmb as [[M4 Hno] | (m & _ & Hok & _)]; [|discriminate].
    assert (U : untouched w w4) by (unfold untouched; congruence).
    split; auto.
Qed.


(** ** Failures and the run *)

Lemma main_message_text_payload (m m' : message) :
  msg_payload m = msg_payload m' -> Main.message_text m = Main.message_text m'.
Proof. unfold Main.message_text. now intros ->. Qed.

Lemma forgiving_evolves (w w' : world) : evolves w w' -> forgiving w -> forgiving w'.
Proof.
  intros [F _ _ _ P _ _] [Hf Hp]. split.
  - intros n e. rewrite F. apply Hf.
  - intros id m' Hm'. specialize (P id). rewrite Hm' in P. simpl in P.
    destruct (mailbox w !! id) as [m|] eqn:Hm; [|discriminate].
    injection P as P. destruct (Hp id m Hm) as [t Ht].
    exists t. now rewrite (main_message_text_payload m' m P).
Qed.

(** Under these conditions no stage of [main.py] raises. *)
Lemma main_get_message_text_returns (id : string) (w : world) :
  forgiving w -> exists text, fst (Main.get_message_text id w) = Ok text.
Proof.
  intros [Hf Hp]. unfold Main.get_message_text, messages_get. unfold_py.
  destruct (fault w _) as [e|] eqn:He; simpl.
  - rewrite (Hf _ e He). simpl. eauto.
  - destruct (mailbox w !! id) as [m|] eqn:Hm; simpl.
    + destruct (Hp id m Hm) as [t ->]. simpl. eauto.
    + eauto.
Qed.

Lemma main_get_or_create_label_returns_always (name : string) (w : world) :
  forgiving w -> exists l, fst (Main.get_or_create_label name w) = Ok l.
Proof.
  intros [Hf _]. unfold Main.get_or_create_label, labels_list, labels_create. unfold_py.
  destruct (fault w (length (requests w))) as [e|] eqn:He; simpl.
  - rewrite (Hf _ e He). simpl. eauto.
  - destruct (List.find _ _); simpl; [eauto|].
    destruct (fault w (length (requests w ++ [ListLabels]))) as [e|] eqn:He'; simpl.
    + rewrite (Hf _ e He'). simpl. eauto.
    + eauto.
Qed.

Lemma main_apply_label_returns (id l : string) (w : world) :
  forgiving w -> fst (Main.apply_label id l w) = Ok tt.
Proof.
  intros [Hf _]. rewrite main_apply_label_eq. cbv zeta.
  destruct (fault w _) as [e|] eqn:He.
  - now rewrite (Hf _ e He).
  - now destruct (mailbox w !! id).
Qed.

Lemma main_loop_body_returns (s : msg_summary) (w : world) :
  forgiving w -> fst (Main.main_loop_body s w) = Ok tt.
Proof.
  intros Hw. rewrite main_loop_body_eq. cbv zeta.
  pose proof (evolving_of_steadily _ (steadily_main_get_message_text (msg_id s)) w) as E1.
  destruct (main_get_message_text_returns (msg_id s) w Hw) as [text H1].
  destruct (Main.get_message_text (msg_id s) w) as [[text'|e] w1]; simpl in E1, H1;
    [|discriminate].
  pose proof (forgiving_evolves _ _ E1 Hw) as Hw1.
  destruct (truthy_str text'); [|reflexivity].
  pose proof (evolving_of_steadily _ (steadily_main_classify_email text') w1) as E2.
  destruct (main_classify_email_total text' w1) as (c & H2 & _).
  destruct (Main.classify_email text' w1) as [[c'|e] w2]; simpl in E2, H2;
    [|discriminate].
  pose proof (forgiving_evolves _ _ E2 Hw1) as Hw2.
  assert (Hw2' : forgiving (log_stdout (Main.classified_line (msg_id s) c') w2))
    by (apply (forgiving_evolves w2); [apply steady_evolves, steady_log_stdout | exact Hw2]).
  pose proof (evolving_of_steadily _ (steadily_main_get_or_create_label c') _ : evolves
                (log_stdout (Main.classified_line (msg_id s) c') w2) _) as E3.
  destruct (main_get_or_create_label_returns_always c' _ Hw2') as [l H3].
  destruct (Main.get_or_create_label c' _) as [[l'|e] w3]; simpl in E3, H3;
    [|discriminate].
  pose proof (forgiving_evolves _ _ E3 Hw2') as Hw3.
  destruct (truthy_str l'); [|reflexivity].
  pose proof (main_apply_label_returns (msg_id s) l' w3 Hw3) as H4.
  destruct (Main.apply_label (msg_id s) l' w3) as [[[]|e] w4]; simpl in H4;
    [reflexivity | discriminate].
Qed.

Lemma body_requests_retrieved (id : string) (rs : list request) :
  body_requests id rs -> retrieved rs = [id].
Proof.
  intros [| name rs' [-> | ->] | name rs' l [-> | ->]]; reflexivity.
Qed.

(** The loop goes through every message it was given, in order. *)
Lemma main_for_each_returns (l : list msg_summary) :
  forall w, forgiving w ->
    fst (for_each l Main.main_loop_body w) = Ok tt /\
    exists rs, requests (snd (for_each l Main.main_loop_body w)) = requests w ++ rs /\
               retrieved rs = map msg_id l.
Proof.
  induction l as [|s l IH]; intros w Hw; simpl.
  - split; [reflexivity|]. exists []. now rewrite app_nil_r.
  - unfold bind.
    pose proof (main_loop_body_returns s w Hw) as Hr.
    pose proof (evolving_main_loop_body s w) as Ev.
    destruct (main_loop_body_requests s w) as (rs1 & E1 & B1).
    destruct (Main.main_loop_body s w) as [[[]|e] w1]; simpl in Hr, Ev, E1;
      [|discriminate].
    destruct (IH w1 (forgiving_evolves _ _ Ev Hw)) as (Hok & rs2 & E2 & R2).
    split; [exact Hok|].
    exists (rs1 ++ rs2). split.
    + now rewrite E2, E1, <- app_assoc.
    + now rewrite retrieved_app, (body_requests_retrieved _ _ B1), R2.
Qed.

(** [main.py]'s fetch, one case per outcome of the request. *)
Lemma main_fetch_eq (w : world) :
  only_HttpError w ->
  exists w1, Main.fetch_unread_message_ids w = (Ok (fetched w), w1) /\
             steady w w1 /\
             requests w1 = requests w ++ [ListMessages "is:unread" 10] /\
             (forall e, fault w (length (requests w)) = Some e ->
                last (stdout w1) =
                  Some ("An error occurred while fetching messages: " ++ exn_str e)%string).
Proof.
  intros Hf. pose proof (steadily_main_fetch w) as St.
  unfold Main.fetch_unread_message_ids, messages_list, fetched in *. unfold_py.
  destruct (fault w (length (requests w))) as [e|] eqn:He; simpl in *.
  - rewrite (Hf _ e He) in *. simpl in *. eexists.
    split; [reflexivity|]. split; [exact St|]. split; [reflexivity|].
    intros e' [= <-]. apply last_snoc.
  - eexists.
    split; [reflexivity|]. split; [exact St|]. split; [reflexivity|].
    discriminate.
Qed.

(** [main], once authenticated, stage after stage. *)
Lemma main_eq (w : world) :
  auth w = Authenticated ->
  Main.main w =
    let w0 := log_stdout "Successfully authenticated with Gmail API using service account."
                (log_stdout "Starting email classification process..." w) in
    match Main.fetch_unread_message_ids w0 with
    | (Raise e, w1) => (Raise e, w1)
    | (Ok [], w1) => (Ok tt, log_stdout "No unread messages found." w1)
    | (Ok messages, w1) =>
        match for_each messages Main.main_loop_body
                (log_stdout ("Found " ++ str_of_nat (length messages)
                               ++ " unread emails. Processing...") w1) with
        | (Raise e, w3) => (Raise e, w3)
        | (Ok _, w3) => (Ok tt, log_stdout "Processing complete." w3)
        end
    end.
Proof.
  intros Ha. unfold Main.main. unfold bind at 1. unfold print at 1.
  unfold bind at 1. unfold Main.gmail_authenticate. cbn [auth log_stdout].
  rewrite Ha. unfold bind at 1. unfold print at 1. unfold bind at 1.
  unfold ret at 1. unfold bind at 1. cbv zeta.
  destruct (Main.fetch_unread_message_ids _) as [[[|s l]|e] w1]; reflexivity.
Qed.

(** C8, as [main.py] has it: when the failures of requests are the ones
    the service reports as [HttpError] and the texts of the messages
    decode, the run ends normally and has retrieved every identifier the
    fetch returned, in order, whatever failed on the way; and when the
    fetch itself fails, the run sends nothing more and ends with "No unread
    messages found." *)
Theorem main_survives_reported_failures (w : world) :
  auth w = Authenticated ->
  only_HttpError w ->
  payloads_decode w ->
  let w' := snd (Main.main w) in
  run_completes w /\
  (forall e, fault w (length (requests w)) = Some e ->
     sent w w' = [ListMessages "is:unread" 10] /\
     last (stdout w') = Some "No unread messages found.").
Proof.
  intros Ha Hf Hp. cbv zeta. unfold run_completes. rewrite (main_eq w Ha). cbv zeta.
  set (w0 := log_stdout _ (log_stdout _ w)).
  assert (Hw0 : forgiving w0).
  { apply (forgiving_evolves w); [|split; assumption].
    transitivity (log_stdout "Starting email classification process..." w);
      apply steady_evolves, steady_log_stdout. }
  destruct (main_fetch_eq w0 (proj1 Hw0)) as (w1 & E1 & S1 & R1 & L1).
  rewrite E1. change (fetched w0) with (fetched w).
  change (requests w0) with (requests w) in R1.
  change (fault w0 (length (requests w0))) with (fault w (length (requests w))) in L1.
  pose proof (forgiving_evolves _ _ (steady_evolves _ _ S1) Hw0) as Hw1.
  destruct (fetched w) as [|s l] eqn:Hfetched.
  - cbn [fst snd]. unfold sent. cbn [requests log_stdout]. rewrite R1, drop_app_length.
    split; [split; reflexivity|]. intros e He. split; [reflexivity | apply last_snoc].
  - set (w2 := log_stdout _ w1).
    assert (Hw2 : forgiving w2)
      by (apply (forgiving_evolves w1); [apply steady_evolves, steady_log_stdout | exact Hw1]).
    destruct (main_for_each_returns (s :: l) w2 Hw2) as (Hok & rs & E2 & R2).
    destruct (for_each (s :: l) Main.main_loop_body w2) as [[[]|e] w3]; simpl in Hok, E2;
      [|discriminate].
    cbn [fst snd]. unfold sent. cbn [requests log_stdout].
    change (requests w2) with (requests w1) in E2.
    rewrite E2, R1, <- app_assoc, drop_app_length.
    split; [split; [reflexivity|]|].
    + rewrite retrieved_app, R2. reflexivity.
    + intros e He. unfold fetched in Hfetched. rewrite He in Hfetched. discriminate.
Qed.

Lemma main_survives_reported_failures_witness :
  fst (Main.main Fixture.w_flaky) = Ok tt /\
  retrieved (sent Fixture.w_flaky (snd (Main.main Fixture.w_flaky))) = ["m1"; "m2"].
Proof.
  apply (main_survives_reported_failures Fixture.w_flaky).
  - reflexivity.
  - intros n e. unfold Fixture.w_flaky, Fixture.world_of, Fixture.fail_second. simpl.
    destruct (Nat.eqb n 1); [|discriminate]. intros [= <-]. reflexivity.
  - intros id m. unfold Fixture.w_flaky, Fixture.world_of. simpl.
    rewrite lookup_insert_Some, lookup_singleton_Some.
    intros [[_ <-] | [_ [_ <-]]]; eexists; reflexivity.
Defined.

(** What the run of the witness prints: the first message is given up, the
    second one is processed. *)
Example main_advances_past_failed_message :
  stdout (snd (Main.main Fixture.w_flaky)) =
    ["Starting email classification process...";
     "Successfully authenticated with Gmail API using service account.";
     "Found 2 unread emails. Processing...";
     "An error occurred while getting message text: <HttpError 500: Backend Error>";
     "Msg m1: Could not retrieve text, skipping.";
     "Msg m2: Classified as 'Invoices'";
     "Msg m2: Successfully labeled and marked as read.";
     "Processing complete."].
Proof. reflexivity. Qed.

(** C8 as stated fails: a message whose body is not UTF-8 raises
    [UnicodeDecodeError] in [get_message_text], which only catches
    [HttpError]; the exception ends the run and the second message is
    never retrieved. *)
Lemma undecodable_message_ends_run :
  (exists e, fst (Main.main Fixture.w_latin1) = Raise e /\ exn_cls e = UnicodeDecodeError) /\
  fetched Fixture.w_latin1 = [Summary "m1"; Summary "m2"] /\
  sent Fixture.w_latin1 (snd (Main.main Fixture.w_latin1))
    = [ListMessages "is:unread" 10; GetMessage "m1"] /\
  ~ run_completes Fixture.w_latin1.
Proof.
  split; [eexists; split; reflexivity|]. split; [reflexivity|]. split; [reflexivity|].
  intros [H _]. vm_compute in H. discriminate.
Qed.

(** So does a request that fails with anything else than [HttpError]. *)
Example transport_failure_ends_run :
  fst (Main.main Fixture.w_timeout) = Raise (Exn TransportError "timed out") /\
  ~ run_completes Fixture.w_timeout.
Proof.
  split; [reflexivity|]. intros [H _]. vm_compute in H. discriminate.
Qed.

(** ** Terminal states at the end of a run *)

Lemma evolves_labels_incl (w w' : world) (x : label) :
  evolves w w' -> In x (labels w) -> In x (labels w').
Proof.
  intros [_ _ _ _ _ (new & E & _) _] H. rewrite E. apply in_or_app. now left.
Qed.

Section Run.

Variable body : msg_summary -> M unit.

Hypothesis body_terminal :
  forall s w, untouched w (snd (body s w)) \/
              labelled_and_read w (snd (body s w)) (msg_id s).

Hypothesis body_evolving : forall s, evolving (body s).

(** A loop over distinct identifiers relabels each message at most once. *)
Lemma for_each_terminal (l : list msg_summary) :
  NoDup (map msg_id l) ->
  forall w id,
    terminal w (snd (for_each l body w)) id /\
    (~ In id (map msg_id l) ->
     mailbox (snd (for_each l body w)) !! id = mailbox w !! id).
Proof.
  induction l as [|s l IH]; intros Hnd w id; simpl.
  - split; [now left | reflexivity].
  - apply NoDup_cons in Hnd. destruct Hnd as [Hs Hnd].
    rewrite list_elem_of_In in Hs.
    unfold bind.
    pose proof (body_terminal s w) as Hb.
    destruct (body s w) as [[[]|e] w1]; simpl in Hb.
    + (* the iteration returned: the rest of the loop runs from [w1] *)
      destruct (IH Hnd w1 id) as [Hterm Hout].
      pose proof (stable_for_each evolves l body body_evolving w1) as Ev.
      assert (Hstep : mailbox w1 !! id = mailbox w !! id \/
                (id = msg_id s /\ exists m l0 c,
                   mailbox w !! id = Some m /\
                   mailbox w1 !! id = Some (relabel [l0] [UNREAD] m) /\
                   In c CATEGORIES /\ In (Label c l0) (labels w1))).
      { destruct Hb as [U | (m & l0 & c & Hm & Hmb & Hc & Hl)].
        - left. now rewrite U.
        - destruct (decide (id = msg_id s)) as [->|Hne].
          + right. split; [reflexivity|]. exists m, l0, c.
            rewrite Hmb, lookup_insert_eq. auto.
          + left. rewrite Hmb. now rewrite lookup_insert_ne. }
      split.
      * destruct Hstep as [Hsame | (-> & m & l0 & c & Hm & Hm1 & Hc & Hl)].
        -- destruct Hterm as [H2 | (m & l0 & c & Hm & Hm2 & Hc & Hl)].
           ++ left. congruence.
           ++ right. exists m, l0, c. rewrite <- Hsame. auto.
        -- right. exists m, l0, c. rewrite (Hout Hs).
           repeat split; auto. now apply (evolves_labels_incl w1).
      * intros Hnot. rewrite Hout by tauto.
        destruct Hstep as [Hsame | (-> & _)]; [exact Hsame | tauto].
    + (* the iteration raised: the loop stops in [w1] *)
      destruct Hb as [U | (m & l0 & c & Hm & Hmb & Hc & Hl)].
      * simpl. split; [left; now rewrite U | now rewrite U].
      * simpl. destruct (decide (id = msg_id s)) as [->|Hne].
        -- split; [|tauto]. right. exists m, l0, c.
           rewrite Hmb, lookup_insert_eq. auto.
        -- unfold terminal. rewrite Hmb, lookup_insert_ne by congruence.
           split; [now left | reflexivity].
Qed.

End Run.

Lemma terminal_steady_l (w0 w w' : world) (id : string) :
  steady w0 w -> terminal w w' id -> terminal w0 w' id.
Proof.
  intros [_ M] [H | (m & l & c & Hm & H)].
  - left. now rewrite <- M.
  - right. exists m, l, c. now rewrite <- M.
Qed.

Lemma terminal_steady_r (w w' w'' : world) (id : string) :
  terminal w w' id -> steady w' w'' -> terminal w w'' id.
Proof.
  intros [H | (m & l & c & Hm & Hm' & Hc & Hl)] S; pose proof S as [_ M].
  - left. now rewrite M.
  - right. exists m, l, c. rewrite M. repeat split; auto.
    now apply (steady_labels_incl w').
Qed.

Lemma main_fetch_returns (w : world) (msgs : list msg_summary) :
  fst (Main.fetch_unread_message_ids w) = Ok msgs ->
  msgs = [] \/ msgs = default [] (unread w).
Proof.
  unfold Main.fetch_unread_message_ids, messages_list. py_cases; simpl; intros [= <-]; auto.
Qed.

Lemma tagger_fetch_returns (w : world) (msgs : list msg_summary) :
  fst (Tagger.fetch_unread_message_ids w) = Ok msgs ->
  msgs = default [] (unread w).
Proof.
  unfold Tagger.fetch_unread_message_ids, messages_list. py_cases; simpl; intros [= <-]; auto.
Qed.

(** At the end of a run of [main.py] over distinct identifiers, every
    message of the mailbox is as it was or has been relabelled once. *)
Lemma main_run_terminal (w : world) (id : string) :
  NoDup (map msg_id (default [] (unread w))) ->
  terminal w (snd (Main.main w)) id.
Proof.
  intros Hnd. destruct (auth w) eqn:Ha.
  1-3: left; unfold Main.main, Main.gmail_authenticate; unfold_py; simpl; rewrite Ha;
       reflexivity.
  rewrite (main_eq w Ha). cbv zeta.
  set (w0 := log_stdout _ (log_stdout _ w)).
  assert (S0 : steady w w0).
  { transitivity (log_stdout "Starting email classification process..." w);
      apply steady_log_stdout. }
  pose proof (steadily_main_fetch w0) as S1.
  pose proof (main_fetch_returns w0) as Hret.
  destruct (Main.fetch_unread_message_ids w0) as [[msgs|e] w1]; simpl in S1, Hret.
  2:{ left. destruct S0 as [_ M0]. destruct S1 as [_ M1]. simpl. congruence. }
  assert (S01 : steady w w1) by (now transitivity w0).
  destruct msgs as [|s l].
  { left. simpl. destruct S01 as [_ M]. now rewrite M. }
  destruct (Hret _ eq_refl) as [H | H]; [discriminate|].
  change (unread w0) with (unread w) in H.
  set (w2 := log_stdout _ w1).
  assert (S02 : steady w w2) by (transitivity w1; [exact S01 | apply steady_log_stdout]).
  assert (Hnd' : NoDup (map msg_id (s :: l))) by (now rewrite H).
  destruct (for_each_terminal Main.main_loop_body
              (fun s w => proj1 (main_loop_body_terminal s w))
              evolving_main_loop_body (s :: l) Hnd' w2 id) as [Ht _].
  apply (terminal_steady_l w w2 _ id S02).
  destruct (for_each (s :: l) Main.main_loop_body w2) as [[[]|e] w3]; simpl in *.
  - apply (terminal_steady_r w2 w3); [exact Ht | apply steady_log_stdout].
  - exact Ht.
Qed.

Lemma tagger_run_terminal (json_loads : string -> option json) (w : world) (id : string) :
  NoDup (map msg_id (default [] (unread w))) ->
  terminal w (snd (Tagger.main_loop json_loads w)) id.
Proof.
  intros Hnd. unfold Tagger.main_loop, bind.
  pose proof (steadily_tagger_fetch w) as S1.
  pose proof (tagger_fetch_returns w) as Hret.
  destruct (Tagger.fetch_unread_message_ids w) as [[msgs|e] w1]; simpl in S1, Hret.
  2:{ left. simpl. destruct S1 as [_ M1]. now rewrite M1. }
  rewrite (Hret _ eq_refl).
  destruct (for_each_terminal (Tagger.main_loop_body json_loads)
              (fun s w => proj1 (tagger_loop_body_terminal json_loads s w))
              (evolving_tagger_loop_body json_loads)
              (default [] (unread w))) with (w := w1) (id := id) as [Ht _].
  - destruct S1 as [[_ _ U _ _ _ _] _]. now rewrite <- U in Hnd |- *.
  - exact (terminal_steady_l w w1 _ id S1 Ht).
Qed.

(** C1, as the two variants have it: processing a message leaves the
    mailbox as it was, or adds to this one message the label resolved for
    its category and removes [UNREAD] from it, in a single update.  In
    [main.py] the mailbox is as it was whenever extraction gives the empty
    text, label resolution gives the empty identifier, or an exception
    leaves the iteration; in [tagger.py], whenever an exception does.  So
    at the end of a run over distinct identifiers every message is as it
    was or has been relabelled once: at the end of [main.py]'s [main], of
    the loop of [tagger.py]'s [main], and of that [main] itself, which
    ends at authentication.  Which labels the message bore before plays no
    part. *)
Theorem processed_message_terminal_state
        (json_loads : string -> option json) (w : world) :
  (forall s,
     let id := msg_id s in
     let w' := snd (Main.main_loop_body s w) in
     (untouched w w' \/ labelled_and_read w w' id) /\
     (fst (Main.get_message_text id w) = Ok "" -> untouched w w') /\
     (forall text w1 category w2 w3,
         Main.get_message_text id w = (Ok text, w1) ->
         Main.classify_email text w1 = (Ok category, w2) ->
         Main.get_or_create_label category
           (log_stdout (Main.classified_line id category) w2) = (Ok "", w3) ->
         untouched w w') /\
     (forall e, fst (Main.main_loop_body s w) = Raise e -> untouched w w')) /\
  (forall s,
     let id := msg_id s in
     let w' := snd (Tagger.main_loop_body json_loads s w) in
     (untouched w w' \/ labelled_and_read w w' id) /\
     (forall e, fst (Tagger.main_loop_body json_loads s w) = Raise e -> untouched w w')) /\
  (NoDup (map msg_id (default [] (unread w))) ->
   forall id,
     terminal w (snd (Main.main w)) id /\
     terminal w (snd (Tagger.main_loop json_loads w)) id /\
     terminal w (snd (Tagger.main json_loads w)) id).
Proof.
  split; [|split].
  - intros s. exact (main_loop_body_terminal s w).
  - intros s. exact (tagger_loop_body_terminal json_loads s w).
  - intros Hnd id. split; [|split].
    + now apply main_run_terminal.
    + now apply tagger_run_terminal.
    + destruct (tagger_main_stops json_loads w) as (e & -> & _).
      left. reflexivity.
Qed.

(** An iteration that an exception leaves, and a whole run. *)
Lemma processed_message_terminal_state_witness :
  (let w := log_request (ListMessages "is:unread" 10) Fixture.w_latin1 in
   untouched w (snd (Main.main_loop_body (Summary "m1") w)) /\
   untouched w (snd (Tagger.main_loop_body Fixture.json_loads (Summary "m3") w))) /\
  terminal Fixture.w_single (snd (Main.main Fixture.w_single)) "m1" /\
  terminal Fixture.w_single (snd (Tagger.main_loop Fixture.json_loads Fixture.w_single)) "m1".
Proof.
  split.
  - intros w.
    destruct (processed_message_terminal_state Fixture.json_loads w)
      as (Hmain & Htagger & _).
    split.
    + apply (proj2 (proj2 (proj2 (Hmain (Summary "m1"))))
               (Exn UnicodeDecodeError
                  "'utf-8' codec can't decode byte: invalid start byte")).
      reflexivity.
    + apply (proj2 (Htagger (Summary "m3")) (not_found "m3")). reflexivity.
  - destruct (proj2 (proj2 (processed_message_terminal_state
                              Fixture.json_loads Fixture.w_single))
                (NoDup_singleton "m1") "m1") as (Hmain & Hloop & _).
    split; [exact Hmain | exact Hloop].
Defined.

(** The specification's state (a) read literally fails: a message that an
    earlier run labelled [Orders], marked unread since and now classified
    as [Invoices], ends with two category labels. *)
Lemma relabelled_message_has_two_category_labels :
  let w := Fixture.w_relabelled in
  let w' := snd (Main.main w) in
  category_labels_on w' "m1" = ["Label_1"; "Label_2"] /\
  ~ (one_category_label_and_read w' "m1" \/ untouched w w').
Proof.
  cbv zeta. split; [vm_compute; reflexivity|].
  intros [[H _] | H].
  - vm_compute in H. discriminate.
  - assert (Hu : is_unread (snd (Main.main Fixture.w_relabelled)) "m1"
                 = is_unread Fixture.w_relabelled "m1")
      by (unfold is_unread; now rewrite H).
    vm_compute in Hu. discriminate.
Qed.

(** * The stages on their own *)

(** ** Fetching *)

(** X1: [main.py]'s fetch sends the one listing request, for at most ten
    unread messages.  It returns the summaries listed, none when the answer
    has no [messages]; when the request raises [HttpError] it prints the
    error and returns no summary; any other exception leaves it. *)
Theorem main_fetch_outcomes (w : world) :
  let r := Main.fetch_unread_message_ids w in
  sent w (snd r) = [ListMessages "is:unread" 10] /\
  (fault w (length (requests w)) = None ->
   fst r = Ok (default [] (unread w)) /\ stdout (snd r) = stdout w) /\
  (forall e, fault w (length (requests w)) = Some e -> is_HttpError e = true ->
     fst r = Ok [] /\
     stdout (snd r) =
       stdout w ++ [("An error occurred while fetching messages: " ++ exn_str e)%string]) /\
  (forall e, fault w (length (requests w)) = Some e -> is_HttpError e = false ->
     fst r = Raise e).
Proof.
  cbv zeta. unfold Main.fetch_unread_message_ids, messages_list, sent. unfold_py.
  destruct (fault w (length (requests w))) as [e|] eqn:He; cbn [fst snd].
  - destruct (is_HttpError e) eqn:Hh; cbn [fst snd requests log_stdout log_request stdout];
      rewrite drop_app_length.
    + split; [reflexivity|]. split; [discriminate|]. split.
      * intros e' [= <-] _. split; reflexivity.
      * intros e' [= <-] Hh'. congruence.
    + split; [reflexivity|]. split; [discriminate|]. split.
      * intros e' [= <-] Hh'. congruence.
      * intros e' [= <-] _. reflexivity.
  - cbn [requests log_request stdout]. rewrite drop_app_length.
    split; [reflexivity|]. split; [intros _; split; reflexivity|].
    split; discriminate.
Qed.

Lemma main_fetch_outcomes_witness :
  fst (Main.fetch_unread_message_ids Cases.w_nothing_unread) = Ok [] /\
  fst (Main.fetch_unread_message_ids Cases.w_fetch_fails) = Ok [] /\
  stdout (snd (Main.fetch_unread_message_ids Cases.w_fetch_fails)) =
    ["An error occurred while fetching messages: <HttpError 500: Backend Error>"] /\
  fst (Main.fetch_unread_message_ids Fixture.w_timeout)
    = Ok [Summary "m1"; Summary "m2"].
Proof.
  destruct (main_fetch_outcomes Cases.w_nothing_unread) as (_ & H1 & _).
  destruct (main_fetch_outcomes Cases.w_fetch_fails) as (_ & _ & H2 & _).
  destruct (main_fetch_outcomes Fixture.w_timeout) as (_ & H3 & _).
  split; [exact (proj1 (H1 eq_refl))|].
  destruct (H2 (Exn HttpError "<HttpError 500: Backend Error>") eq_refl eq_refl)
    as [H2a H2b].
  split; [exact H2a|]. split; [exact H2b|].
  exact (proj1 (H3 eq_refl)).
Defined.

(** X2: [tagger.py]'s fetch has no handler: when the listing request
    raises, whatever it raises leaves [fetch_unread_message_ids], which
    has sent the listing and printed nothing; [main.py]'s fetch returns no
    summary when what is raised is an [HttpError]. *)
Theorem tagger_fetch_listing_failure (w : world) (e : exn) :
  fault w (length (requests w)) = Some e ->
  Tagger.fetch_unread_message_ids w
    = (Raise e, log_request (ListMessages "is:unread" 10) w) /\
  (is_HttpError e = true -> fst (Main.fetch_unread_message_ids w) = Ok []).
Proof.
  intros He. split.
  - unfold Tagger.fetch_unread_message_ids, messages_list. unfold_py. now rewrite He.
  - intros Hh. unfold Main.fetch_unread_message_ids, messages_list. unfold_py.
    rewrite He. cbn [fst snd]. now rewrite Hh.
Qed.

Lemma tagger_fetch_listing_failure_witness :
  Tagger.fetch_unread_message_ids Cases.w_fetch_fails
  = (Raise (Exn HttpError "<HttpError 500: Backend Error>"),
     log_request (ListMessages "is:unread" 10) Cases.w_fetch_fails) /\
  fst (Main.fetch_unread_message_ids Cases.w_fetch_fails) = Ok [].
Proof.
  destruct (tagger_fetch_listing_failure Cases.w_fetch_fails
              (Exn HttpError "<HttpError 500: Backend Error>")) as [H1 H2];
    [reflexivity|].
  split; [exact H1 | apply H2; reflexivity].
Defined.


(** ** Extraction *)

(** X3: [main.py]'s extractor answers a request that raises [HttpError],
    and a message the service does not know, with the empty text, after
    printing the error; the mailbox and the labels are as they were. *)
Theorem main_get_message_text_reported_failure (id : string) (w : world) (e : exn) :
  (fault w (length (requests w)) = Some e /\ is_HttpError e = true) \/
  (fault w (length (requests w)) = None /\ mailbox w !! id = None /\ e = not_found id) ->
  Main.get_message_text id w =
    (Ok "",
     log_stdout ("An error occurred while getting message text: " ++ exn_str e)
       (log_request (GetMessage id) w)).
Proof.
  unfold Main.get_message_text, messages_get. unfold_py.
  intros [[He Hh] | (He & Hm & ->)]; rewrite He; cbn [fst snd].
  - now rewrite Hh.
  - cbn [mailbox log_request]. now rewrite Hm.
Qed.

Lemma main_get_message_text_reported_failure_witness :
  fst (Main.get_message_text "m9" Fixture.w_single) = Ok "" /\
  stdout (snd (Main.get_message_text "m9" Fixture.w_single)) =
    ["An error occurred while getting message text: <HttpError 404: Requested entity was not found: m9>"].
Proof.
  rewrite (main_get_message_text_reported_failure "m9" Fixture.w_single (not_found "m9")).
  - split; reflexivity.
  - right. repeat split; reflexivity.
Defined.

(** X4: what [main.py]'s extractor does not catch: when the payload of
    the message does not decode, the exception of the decoder leaves
    [get_message_text], nothing being printed. *)
Theorem main_get_message_text_decode_failure
        (id : string) (m : message) (w : world) (e : exn) :
  fault w (length (requests w)) = None ->
  mailbox w !! id = Some m ->
  Main.message_text m = Raise e ->
  Main.get_message_text id w = (Raise e, log_request (GetMessage id) w) /\
  is_HttpError e = false.
Proof.
  intros Hf Hm He.
  pose proof (main_message_text_raises m e He) as Hh. split; [|exact Hh].
  unfold Main.get_message_text, try_except, bind, lift.
  rewrite (messages_get_answered id m w Hf Hm), He. now rewrite Hh.
Qed.

Lemma main_get_message_text_decode_failure_witness :
  exists e,
    fst (Main.get_message_text "m1"
           (Fixture.world_of {[ "m1" := Cases.unpadded ]} ["m1"] Fixture.no_fault
                             (Fixture.answers "Other"))) = Raise e /\
    exn_cls e = BinasciiError.
Proof.
  exists (Exn BinasciiError "Incorrect padding").
  split; [|reflexivity].
  destruct (main_get_message_text_decode_failure "m1" Cases.unpadded
              (Fixture.world_of {[ "m1" := Cases.unpadded ]} ["m1"] Fixture.no_fault
                                (Fixture.answers "Other"))
              (Exn BinasciiError "Incorrect padding")) as [H _];
    [reflexivity | reflexivity | reflexivity |].
  rewrite H. reflexivity.
Defined.

Lemma concat_text_app (ts1 ts2 : list string) :
  concat_text (ts1 ++ ts2) = (concat_text ts1 ++ concat_text ts2)%string.
Proof.
  induction ts1 as [|t ts1 IH]; simpl; [reflexivity|].
  now rewrite IH, append_assoc.
Qed.

(** [tagger.py]'s loop over the parts stops with [KeyError] at a plain
    part without data, when the plain parts before it decode. *)
Lemma tagger_parts_text_key_error (pre : list part) (p : part) (post : list part) :
  forall ts acc,
    mimeType p = Some "text/plain" ->
    part_data p = None ->
    Forall2 (fun q t => b64_text (default "" (part_data q)) = Ok t)
            (List.filter is_plain pre) ts ->
    exists e, Tagger.parts_text (pre ++ p :: post) acc = Raise e /\ exn_cls e = KeyError.
Proof.
  intros ts acc Hmt Hd. revert ts acc.
  induction pre as [|q pre IH]; intros ts acc F; simpl.
  - rewrite Hmt. rewrite String.eqb_refl. unfold part_data in Hd.
    destruct (part_body p) as [b|]; [rewrite Hd|]; eexists; split; reflexivity.
  - simpl in F. unfold is_plain in F at 1.
    destruct (mimeType q) as [mt|] eqn:Hq; [|eexists; split; reflexivity].
    destruct (String.eqb mt "text/plain") eqn:Heq.
    + apply String.eqb_eq in Heq. subst mt.
      rewrite bool_decide_eq_true_2 in F by reflexivity.
      inversion F as [|q' t pre' ts' Hdec Hrest]; subst.
      unfold part_data in Hdec.
      destruct (part_body q) as [b|]; [|eexists; split; reflexivity].
      destruct (data b) as [d|]; [|eexists; split; reflexivity].
      simpl in Hdec. rewrite Hdec. simpl. now apply (IH ts').
    + rewrite bool_decide_eq_false_2 in F
        by (intros [= ->]; now rewrite String.eqb_refl in Heq).
      now apply (IH ts).
Qed.

(** X5: keys the service may leave out.  A message without payload is
    the empty text for [main.py], and a plain part without body data,
    wherever it stands among the parts, counts as the empty text: the text
    of the other plain parts is returned.  [main.py] reads these keys with
    [get] and a default; [tagger.py] subscripts them and raises
    [KeyError]. *)
Theorem get_message_text_missing_keys (id : string) (m : message) (w : world) :
  fault w (length (requests w)) = None ->
  mailbox w !! id = Some m ->
  (msg_payload m = None ->
   fst (Main.get_message_text id w) = Ok "" /\
   exists e, fst (Tagger.get_message_text id w) = Raise e /\ exn_cls e = KeyError) /\
  (forall pl pre p post ts,
     msg_payload m = Some pl ->
     parts pl = Some (pre ++ p :: post) ->
     mimeType p = Some "text/plain" ->
     part_data p = None ->
     Forall2 (fun q t => b64_text (default "" (part_data q)) = Ok t)
             (List.filter is_plain (pre ++ post)) ts ->
     fst (Main.get_message_text id w) = Ok (concat_text ts) /\
     exists e, fst (Tagger.get_message_text id w) = Raise e /\ exn_cls e = KeyError).
Proof.
  intros Hf Hm.
  rewrite (main_get_message_text_answered id m w Hf Hm).
  rewrite (tagger_get_message_text_answered id m w Hf Hm).
  unfold Main.message_text, Tagger.message_text. split.
  - intros ->. split; [reflexivity|]. eexists. split; reflexivity.
  - intros pl pre p post ts -> Hps Hmt Hd F. simpl. rewrite !Hps. simpl.
    rewrite List.filter_app in F. apply Forall2_app_inv_l in F.
    destruct F as (ts1 & ts2 & F1 & F2 & ->).
    split.
    + assert (Hplain : is_plain p = true)
        by (unfold is_plain; now rewrite bool_decide_eq_true_2).
      assert (Hall : Forall2 (fun q t => b64_text (default "" (part_data q)) = Ok t)
                       (List.filter is_plain (pre ++ p :: post)) (ts1 ++ "" :: ts2)).
      { rewrite List.filter_app. apply Forall2_app; [exact F1|].
        simpl. rewrite Hplain. constructor; [now rewrite Hd | exact F2]. }
      pose proof (main_parts_text_concat (pre ++ p :: post) _ "" Hall) as H.
      rewrite !concat_text_app in *. simpl in H.
      destruct (pre ++ p :: post) as [|x xs] eqn:E;
        [now destruct pre | exact H].
    + exact (tagger_parts_text_key_error pre p post ts1 "" Hmt Hd F1).
Qed.

Lemma get_message_text_missing_keys_witness :
  let w := Fixture.world_of {[ "m1" := Cases.bare; "m2" := Cases.with_attachment ]}
             ["m1"; "m2"] Fixture.no_fault (Fixture.answers "Other") in
  fst (Main.get_message_text "m1" w) = Ok "" /\
  fst (Main.get_message_text "m2" w) = Ok "Hello" /\
  (exists e, fst (Tagger.get_message_text "m2" w) = Raise e /\ exn_cls e = KeyError).
Proof.
  intros w.
  destruct (get_message_text_missing_keys "m1" Cases.bare w) as [H1 _];
    [reflexivity | reflexivity |].
  destruct (get_message_text_missing_keys "m2" Cases.with_attachment w) as [_ H2];
    [reflexivity | reflexivity |].
  destruct (H2 (Payload (Some (Body None))
                  (Some [Fixture.plain_hello; Fixture.html_hello;
                         Part (Some "text/plain") (Some (Body None))]))
               [Fixture.plain_hello; Fixture.html_hello]
               (Part (Some "text/plain") (Some (Body None))) [] ["Hello"])
    as [H2a H2b];
    [reflexivity | reflexivity | reflexivity | reflexivity | repeat constructor |].
  split; [exact (proj1 (H1 eq_refl))|]. split; [exact H2a | exact H2b].
Defined.

(** X6: on a single-part message [main.py]'s extractor returns what the
    body data decodes to, the decoder's exception when it does not decode,
    and the empty text when the data is absent or empty. *)
Theorem main_get_message_text_body
        (id : string) (m : message) (pl : payload) (w : world) :
  fault w (length (requests w)) = None ->
  mailbox w !! id = Some m ->
  msg_payload m = Some pl ->
  parts pl = None \/ parts pl = Some [] ->
  fst (Main.get_message_text id w) =
    match payload_body pl with
    | Some (Body (Some (String c d))) => b64_text (String c d)
    | _ => Ok ""
    end.
Proof.
  intros Hf Hm Hpl Hps.
  rewrite (main_get_message_text_answered id m w Hf Hm).
  unfold Main.message_text. rewrite Hpl. simpl.
  replace (default [] (parts pl)) with (@nil part)
    by (destruct Hps as [-> | ->]; reflexivity).
  destruct (payload_body pl) as [[[[|c d]|]]|]; reflexivity.
Qed.

Lemma main_get_message_text_body_witness :
  fst (Main.get_message_text "m1" Fixture.w_single) = Ok "Hello World".
Proof.
  rewrite (main_get_message_text_body "m1" Fixture.single_part
             (Payload (Some (Body (Some "SGVsbG8gV29ybGQ="))) None) Fixture.w_single);
    [reflexivity | reflexivity | reflexivity | reflexivity | left; reflexivity].
Defined.

(** X7: on a multi-part message [main.py]'s extractor passes over the
    parts that are not [text/plain], those without media type among them,
    and counts a plain part without data as the empty text. *)
Theorem main_get_message_text_plain_parts
        (id : string) (m : message) (pl : payload) (ps : list part)
        (ts : list string) (w : world) :
  fault w (length (requests w)) = None ->
  mailbox w !! id = Some m ->
  msg_payload m = Some pl ->
  parts pl = Some ps ->
  ps <> [] ->
  Forall2 (fun p t => b64_text (default "" (part_data p)) = Ok t)
          (List.filter is_plain ps) ts ->
  fst (Main.get_message_text id w) = Ok (concat_text ts).
Proof.
  intros Hf Hm Hpl Hps Hne Hdata.
  rewrite (main_get_message_text_answered id m w Hf Hm).
  unfold Main.message_text. rewrite Hpl. simpl. rewrite Hps. simpl.
  destruct ps as [|p ps']; [contradiction|].
  exact (main_parts_text_concat (p :: ps') ts "" Hdata).
Qed.

Lemma main_get_message_text_plain_parts_witness :
  fst (Main.get_message_text "m1"
         (Fixture.world_of {[ "m1" := Cases.mixed ]} ["m1"] Fixture.no_fault
                           (Fixture.answers "Other")))
  = Ok "Hello World".
Proof.
  apply (main_get_message_text_plain_parts "m1" Cases.mixed
           (Payload None (Some Cases.mixed_parts)) Cases.mixed_parts
           ["Hello"; ""; " World"]).
  - reflexivity.
  - reflexivity.
  - reflexivity.
  - reflexivity.
  - discriminate.
  - repeat constructor.
Defined.

(** ** Label resolution *)

Lemma length_requests_logged (r : request) (w : world) :
  length (requests (log_request r w)) = S (length (requests w)).
Proof. simpl. rewrite length_app. simpl. lia. Qed.

(** [main.py]'s label resolution, one case per outcome of its requests. *)
Lemma main_get_or_create_label_eq (name : string) (w : world) :
  Main.get_or_create_label name w =
    let w1 := log_request ListLabels w in
    let w2 := log_request (CreateLabel name "labelShow" "show") w1 in
    let failed e w' :=
      (Ok "", log_stdout ("An error occurred while processing labels: " ++ exn_str e) w') in
    match fault w (length (requests w)) with
    | Some e => if is_HttpError e then failed e w1 else (Raise e, w1)
    | None =>
        match List.find (fun l => String.eqb (lname l) name) (labels w) with
        | Some x => (Ok (lid x), w1)
        | None =>
            match fault w (S (length (requests w))) with
            | Some e => if is_HttpError e then failed e w2 else (Raise e, w2)
            | None =>
                let l := Label name ("Label_" ++ str_of_nat (next_label w)) in
                (Ok (lid l), add_label l w2)
            end
        end
    end.
Proof.
  unfold Main.get_or_create_label, labels_list, labels_create. unfold_py.
  rewrite <- (length_requests_logged ListLabels w).
  destruct (fault w (length (requests w))) as [e|]; cbn [fst snd].
  - destruct (is_HttpError e); reflexivity.
  - cbn [labels log_request].
    destruct (List.find _ (labels w)); [reflexivity|].
    cbn [fault log_request].
    destruct (fault w _) as [e|]; cbn [fst snd].
    + destruct (is_HttpError e); reflexivity.
    + reflexivity.
Qed.

Lemma tagger_get_or_create_label_eq (name : string) (w : world) :
  Tagger.get_or_create_label name w =
    let w1 := log_request ListLabels w in
    let w2 := log_request (CreateLabel name "labelShow" "show") w1 in
    match fault w (length (requests w)) with
    | Some e => (Raise e, w1)
    | None =>
        match List.find (fun l => String.eqb (lname l) name) (labels w) with
        | Some x => (Ok (lid x), w1)
        | None =>
            match fault w (S (length (requests w))) with
            | Some e => (Raise e, w2)
            | None =>
                let l := Label name ("Label_" ++ str_of_nat (next_label w)) in
                (Ok (lid l), add_label l w2)
            end
        end
    end.
Proof.
  unfold Tagger.get_or_create_label, labels_list, labels_create. unfold_py.
  rewrite <- (length_requests_logged ListLabels w).
  destruct (fault w (length (requests w))) as [e|]; cbn [fst snd]; [reflexivity|].
  cbn [labels log_request].
  destruct (List.find _ (labels w)); [reflexivity|].
  cbn [fault log_request].
  destruct (fault w _) as [e|]; reflexivity.
Qed.

Lemma find_named (name : string) (ls : list label) :
  (exists x, In x ls /\ lname x = name) ->
  exists y, List.find (fun l => String.eqb (lname l) name) ls = Some y /\
            In y ls /\ lname y = name.
Proof.
  intros (x & Hin & Hx).
  destruct (List.find _ ls) as [y|] eqn:Hf.
  - exists y. apply find_some in Hf. destruct Hf as [Hy Hn].
    apply String.eqb_eq in Hn. auto.
  - exfalso. pose proof (find_none _ _ Hf x Hin) as Hn. simpl in Hn.
    rewrite Hx, String.eqb_refl in Hn. discriminate.
Qed.

Lemma find_unnamed (name : string) (ls : list label) :
  (forall x, In x ls -> lname x <> name) ->
  List.find (fun l => String.eqb (lname l) name) ls = None.
Proof.
  intros H. destruct (List.find _ ls) as [y|] eqn:Hf; [|reflexivity].
  apply find_some in Hf. destruct Hf as [Hy Hn]. apply String.eqb_eq in Hn.
  now destruct (H y Hy).
Qed.

(** X8: label resolution creates a label exactly when none of the listed
    ones bears the name.  When one does, both variants return the
    identifier of a listed label of that name, having sent the listing
    only; when none does and the creation succeeds, they have asked for
    one label of that name, shown in the label list and in the message
    list, and return the identifier the service gave it. *)
Theorem get_or_create_label_lists_then_creates (name : string) (w : world) :
  fault w (length (requests w)) = None ->
  ((exists x, In x (labels w) /\ lname x = name) ->
   exists y, In y (labels w) /\ lname y = name /\
     Main.get_or_create_label name w = (Ok (lid y), log_request ListLabels w) /\
     Tagger.get_or_create_label name w = (Ok (lid y), log_request ListLabels w)) /\
  ((forall x, In x (labels w) -> lname x <> name) ->
   fault w (S (length (requests w))) = None ->
   exists l w',
     Main.get_or_create_label name w = (Ok l, w') /\
     Tagger.get_or_create_label name w = (Ok l, w') /\
     l <> "" /\
     labels w' = labels w ++ [Label name l] /\
     sent w w' = [ListLabels; CreateLabel name "labelShow" "show"]).
Proof.
  intros Hf. rewrite main_get_or_create_label_eq, tagger_get_or_create_label_eq.
  cbv zeta. rewrite Hf. split.
  - intros Hex. destruct (find_named name (labels w) Hex) as (y & -> & Hy & Hn).
    exists y. auto.
  - intros Hno Hf'. rewrite (find_unnamed name (labels w) Hno), Hf'.
    do 2 eexists. split; [reflexivity|]. split; [reflexivity|].
    split; [discriminate|]. split; [reflexivity|].
    unfold sent. simpl. rewrite <- app_assoc. now rewrite drop_app_length.
Qed.

Lemma get_or_create_label_lists_then_creates_witness :
  (exists y, In y Fixture.two_labels /\ lname y = "Invoices" /\
     Main.get_or_create_label "Invoices" Fixture.w_single
       = (Ok (lid y), log_request ListLabels Fixture.w_single)) /\
  (exists l w',
     Tagger.get_or_create_label "Other" Fixture.w_single = (Ok l, w') /\
     l <> "" /\
     labels w' = Fixture.two_labels ++ [Label "Other" l]).
Proof.
  destruct (get_or_create_label_lists_then_creates "Invoices" Fixture.w_single eq_refl)
    as [Hfound _].
  destruct (get_or_create_label_lists_then_creates "Other" Fixture.w_single eq_refl)
    as [_ Hnew].
  split.
  - destruct Hfound as (y & Hy & Hn & Hm & _).
    { exists (Label "Invoices" "Label_2"). split; [simpl; auto | reflexivity]. }
    exists y. auto.
  - destruct Hnew as (l & w' & _ & Ht & Hne & Hl & _).
    { intros x [<- | [<- | []]]; discriminate. }
    { reflexivity. }
    exists l, w'. auto.
Defined.

(** X9: resolving the same name a second time returns the identifier
    the first resolution returned and creates nothing, as long as the
    listing is answered. *)
Theorem get_or_create_label_twice (name l : string) (w w1 : world) :
  fault w1 (length (requests w1)) = None ->
  (Main.get_or_create_label name w = (Ok l, w1) -> l <> "" ->
   Main.get_or_create_label name w1 = (Ok l, log_request ListLabels w1)) /\
  (Tagger.get_or_create_label name w = (Ok l, w1) ->
   Tagger.get_or_create_label name w1 = (Ok l, log_request ListLabels w1)).
Proof.
  intros Hf1.
  assert (Hfound : forall x, List.find (fun l => String.eqb (lname l) name) (labels w) = Some x ->
            List.find (fun l => String.eqb (lname l) name) (labels w) = Some x) by auto.
  assert (Hnew : List.find (fun l => String.eqb (lname l) name) (labels w) = None ->
            forall i, List.find (fun l => String.eqb (lname l) name)
                        (labels w ++ [Label name i]) = Some (Label name i)).
  { intros Hn i. induction (labels w) as [|x ls IH]; simpl in *.
    - now rewrite String.eqb_refl.
    - destruct (String.eqb (lname x) name); [discriminate | auto]. }
  split.
  - intros H Hl. rewrite main_get_or_create_label_eq in H. cbv zeta in H.
    rewrite main_get_or_create_label_eq. cbv zeta. rewrite Hf1.
    destruct (fault w (length (requests w))) as [e|].
    { destruct (is_HttpError e); [injection H as <- _; contradiction | discriminate]. }
    destruct (List.find _ (labels w)) as [x|] eqn:Hfind.
    { injection H as <- <-. cbn [labels log_request]. now rewrite Hfind. }
    destruct (fault w (S (length (requests w)))) as [e|].
    { destruct (is_HttpError e); [injection H as <- _; contradiction | discriminate]. }
    injection H as <- <-. cbn [labels log_request add_label lid].
    now rewrite (Hnew eq_refl).
  - intros H. rewrite tagger_get_or_create_label_eq in H. cbv zeta in H.
    rewrite tagger_get_or_create_label_eq. cbv zeta. rewrite Hf1.
    destruct (fault w (length (requests w))) as [e|]; [discriminate|].
    destruct (List.find _ (labels w)) as [x|] eqn:Hfind.
    { injection H as <- <-. cbn [labels log_request]. now rewrite Hfind. }
    destruct (fault w (S (length (requests w)))) as [e|]; [discriminate|].
    injection H as <- <-. cbn [labels log_request add_label lid].
    now rewrite (Hnew eq_refl).
Qed.

Lemma get_or_create_label_twice_witness :
  let w1 := snd (Main.get_or_create_label "Other" Cases.w_no_labels) in
  fst (Main.get_or_create_label "Other" Cases.w_no_labels) = Ok "Label_1" /\
  fst (Main.get_or_create_label "Other" w1) = Ok "Label_1" /\
  labels (snd (Main.get_or_create_label "Other" w1)) = [Label "Other" "Label_1"].
Proof.
  intros w1.
  destruct (get_or_create_label_twice "Other" "Label_1" Cases.w_no_labels w1) as [H _];
    [reflexivity|].
  rewrite H; [|reflexivity|discriminate].
  repeat split; reflexivity.
Defined.

(** X10: when [main.py]'s label resolution returns the empty
    identifier, no label was created; and it returns it whenever the
    listing, or the creation it goes on to, raises [HttpError]. *)
Theorem main_get_or_create_label_sentinel (name : string) (w : world) :
  let r := Main.get_or_create_label name w in
  (fst r = Ok "" -> labels (snd r) = labels w) /\
  (forall e, fault w (length (requests w)) = Some e -> is_HttpError e = true ->
     fst r = Ok "" /\ sent w (snd r) = [ListLabels]) /\
  (forall e, fault w (length (requests w)) = None ->
     (forall x, In x (labels w) -> lname x <> name) ->
     fault w (S (length (requests w))) = Some e -> is_HttpError e = true ->
     fst r = Ok "" /\ sent w (snd r) = [ListLabels; CreateLabel name "labelShow" "show"]).
Proof.
  cbv zeta. rewrite main_get_or_create_label_eq. cbv zeta. unfold sent.
  split; [|split].
  - destruct (fault w (length (requests w))) as [e|].
    { destruct (is_HttpError e); reflexivity. }
    destruct (List.find _ (labels w)); [reflexivity|].
    destruct (fault w (S (length (requests w)))) as [e|].
    { destruct (is_HttpError e); reflexivity. }
    simpl. discriminate.
  - intros e -> ->. simpl. now rewrite drop_app_length.
  - intros e -> Hno -> ->. rewrite (find_unnamed name (labels w) Hno).
    simpl. rewrite <- app_assoc. now rewrite drop_app_length.
Qed.

Lemma main_get_or_create_label_sentinel_witness :
  let w := Fixture.world_of ∅ [] Cases.fail_first (Fixture.answers "Other") in
  fst (Main.get_or_create_label "Other" w) = Ok "" /\
  labels (snd (Main.get_or_create_label "Other" w)) = labels w.
Proof.
  intros w.
  destruct (main_get_or_create_label_sentinel "Other" w) as (H1 & H2 & _).
  destruct (H2 (Exn HttpError "<HttpError 500: Backend Error>")) as [H _];
    [reflexivity | reflexivity |].
  split; [exact H | exact (H1 H)].
Defined.

(** ** The mutation *)

Lemma relabel_twice (l : string) (m : message) :
  relabel [l] [UNREAD] (relabel [l] [UNREAD] m) = relabel [l] [UNREAD] m.
Proof.
  unfold relabel. simpl. f_equal. apply set_eq. intros x.
  rewrite !elem_of_difference, !elem_of_union, !elem_of_difference, !elem_of_union.
  tauto.
Qed.

(** X11: a mutation that the service carries out changes the one
    message it names, and of this message the label set only: the label is
    added, [UNREAD] is removed, the other labels and the payload stay.
    Both variants make the same request, and print nothing. *)
Theorem apply_label_effect (id l : string) (m : message) (w : world) :
  fault w (length (requests w)) = None ->
  mailbox w !! id = Some m ->
  exists w',
    Main.apply_label id l w = (Ok tt, w') /\
    Tagger.apply_label id l w = (Ok tt, w') /\
    sent w w' = [ModifyMessage id [l] [UNREAD]] /\
    stdout w' = stdout w /\
    labels w' = labels w /\
    (exists m', mailbox w' !! id = Some m' /\
                msg_payload m' = msg_payload m /\
                labelIds m' = (labelIds m ∪ {[ l ]}) ∖ {[ UNREAD ]}) /\
    (forall id', id' <> id -> mailbox w' !! id' = mailbox w !! id').
Proof.
  intros Hf Hm. rewrite main_apply_label_eq, tagger_apply_label_eq. cbv zeta.
  rewrite Hf, Hm. eexists. split; [reflexivity|]. split; [reflexivity|].
  split; [unfold sent; simpl; now rewrite drop_app_length|].
  split; [reflexivity|]. split; [reflexivity|]. split.
  - exists (relabel [l] [UNREAD] m). simpl. rewrite lookup_insert_eq.
    split; [reflexivity|]. split; [reflexivity|]. apply relabel_labelIds.
  - intros id' Hne. simpl. now rewrite lookup_insert_ne by congruence.
Qed.

Lemma apply_label_effect_witness :
  exists w',
    Main.apply_label "m1" "Label_2" Fixture.w_relabelled = (Ok tt, w') /\
    exists m', mailbox w' !! "m1" = Some m' /\
               labelIds m' = ({[ "UNREAD"; "INBOX"; "Label_1" ]} ∪ {[ "Label_2" ]})
                               ∖ {[ UNREAD ]}.
Proof.
  destruct (apply_label_effect "m1" "Label_2" Fixture.relabelled Fixture.w_relabelled)
    as (w' & Hmain & _ & _ & _ & _ & (m' & Hm' & _ & Hl) & _);
    [reflexivity | reflexivity |].
  exists w'. split; [exact Hmain|]. exists m'. split; [exact Hm' | exact Hl].
Defined.

(** X12: applying the same label to the same message a second time
    leaves the mailbox as the first application left it. *)
Theorem apply_label_twice (id l : string) (w : world) :
  fault w (length (requests w)) = None ->
  mailbox (snd (Main.apply_label id l (snd (Main.apply_label id l w))))
    = mailbox (snd (Main.apply_label id l w)) /\
  mailbox (snd (Tagger.apply_label id l (snd (Tagger.apply_label id l w))))
    = mailbox (snd (Tagger.apply_label id l w)).
Proof.
  intros Hf.
  assert (Hins : forall m (mb : gmap string message),
            <[id := relabel [l] [UNREAD] (relabel [l] [UNREAD] m)]>
              (<[id := relabel [l] [UNREAD] m]> mb)
            = <[id := relabel [l] [UNREAD] m]> mb).
  { intros m mb. now rewrite relabel_twice, insert_insert_eq. }
  split.
  - rewrite (main_apply_label_eq id l w). cbv zeta. rewrite Hf.
    destruct (mailbox w !! id) as [m|] eqn:Hm; cbn [snd];
      rewrite main_apply_label_eq; cbv zeta;
      cbn [fault mailbox requests set_mailbox log_request log_stdout].
    + rewrite lookup_insert_eq.
      match goal with |- context [fault w ?n] => destruct (fault w n) as [e|] end;
        [destruct (is_HttpError e); reflexivity|].
      cbn [snd mailbox set_mailbox]. apply Hins.
    + rewrite Hm.
      match goal with |- context [fault w ?n] => destruct (fault w n) as [e|] end;
        [destruct (is_HttpError e); reflexivity|].
      reflexivity.
  - rewrite (tagger_apply_label_eq id l w). cbv zeta. rewrite Hf.
    destruct (mailbox w !! id) as [m|] eqn:Hm; cbn [snd];
      rewrite tagger_apply_label_eq; cbv zeta;
      cbn [fault mailbox requests set_mailbox log_request log_stdout].
    + rewrite lookup_insert_eq.
      match goal with |- context [fault w ?n] => destruct (fault w n) as [e|] end;
        [reflexivity|].
      cbn [snd mailbox set_mailbox]. apply Hins.
    + rewrite Hm.
      match goal with |- context [fault w ?n] => destruct (fault w n) as [e|] end;
        reflexivity.
Qed.

Lemma apply_label_twice_witness :
  let w1 := snd (Main.apply_label "m1" "Label_2" Fixture.w_single) in
  mailbox (snd (Main.apply_label "m1" "Label_2" w1)) = mailbox w1.
Proof.
  intros w1.
  exact (proj1 (apply_label_twice "m1" "Label_2" Fixture.w_single eq_refl)).
Defined.

(** ** Classification *)

(** X13: [main.py]'s classifier always returns, and always one of the
    three categories, whatever the model call does; it calls the model at
    most once and sends nothing to the mail service, whose messages and
    labels it leaves as they were. *)
Theorem main_classify_email_contained (text : string) (w : world) :
  let r := Main.classify_email text w in
  (exists c, fst r = Ok c /\ In c CATEGORIES) /\
  requests (snd r) = requests w /\
  mailbox (snd r) = mailbox w /\
  labels (snd r) = labels w /\
  (prompts (snd r) = prompts w \/ prompts (snd r) = prompts w ++ [main_request text]).
Proof.
  cbv zeta. split; [apply main_classify_email_total|].
  destruct (string_dec text "") as [->|Ht].
  - simpl. auto.
  - rewrite (main_classify_email_eq text w Ht).
    destruct (llm w _ _) as [[c|]|e]; simpl; auto.
Qed.

(** X14: [tagger.py]'s classifier returns the category a well-formed
    answer names; and whenever it returns, what it returns is one of the
    three categories. *)
Theorem tagger_classify_email_answer
        (json_loads : string -> option json) (text : string) (w : world) :
  (forall content out c,
     llm w (length (prompts w)) (tagger_request text) = Responds (Some content) ->
     json_loads content = Some (JObject out) ->
     dict_get "category" out = Some (JString c) ->
     In c CATEGORIES ->
     fst (Tagger.classify_email json_loads text w) = Ok c) /\
  (forall c, fst (Tagger.classify_email json_loads text w) = Ok c -> In c CATEGORIES).
Proof.
  split.
  - intros content out c Hllm Hj Hd Hc.
    rewrite tagger_classify_email_eq, Hllm. unfold Tagger.parse_category.
    rewrite Hj, Hd. apply in_CATEGORIES_In in Hc. now rewrite Hc.
  - intros c. apply tagger_classify_email_closed.
Qed.

Lemma tagger_classify_email_answer_witness :
  fst (Tagger.classify_email Fixture.json_loads "Hello"
         (Fixture.world_of ∅ [] Fixture.no_fault (Fixture.answers (json_answer "Invoices"))))
  = Ok "Invoices".
Proof.
  apply (proj1 (tagger_classify_email_answer Fixture.json_loads "Hello"
                  (Fixture.world_of ∅ [] Fixture.no_fault
                     (Fixture.answers (json_answer "Invoices"))))
               (json_answer "Invoices") [("category", JString "Invoices")] "Invoices").
  - reflexivity.
  - reflexivity.
  - reflexivity.
  - simpl. auto.
Defined.

(** X15: [tagger.py]'s classifier falls back to "Other" on an answer
    that [json.loads] rejects, on an object without [category], and on an
    object whose [category] is not one of the three, a value that is not
    a string among them. *)
Theorem tagger_classify_email_fallback
        (json_loads : string -> option json) (text content : string) (w : world) :
  llm w (length (prompts w)) (tagger_request text) = Responds (Some content) ->
  json_loads content = None \/
  (exists out, json_loads content = Some (JObject out) /\
     (dict_get "category" out = None \/
      exists v, dict_get "category" out = Some v /\
                forall c, v = JString c -> ~ In c CATEGORIES)) ->
  Tagger.classify_email json_loads text w = (Ok "Other", log_prompt (tagger_request text) w).
Proof.
  intros Hllm Hbad. rewrite tagger_classify_email_eq, Hllm.
  unfold Tagger.parse_category.
  destruct Hbad as [->|(out & -> & [->|(v & -> & Hv)])]; try reflexivity.
  destruct v as [| | |c| |]; try reflexivity.
  destruct (in_CATEGORIES c) eqn:Hc; [|reflexivity].
  exfalso. apply (Hv c eq_refl). now apply in_CATEGORIES_In.
Qed.

Lemma tagger_classify_email_fallback_witness :
  fst (Tagger.classify_email Fixture.json_loads "Hello"
         (Fixture.world_of ∅ [] Fixture.no_fault (Fixture.answers "Invoices")))
  = Ok "Other".
Proof.
  rewrite (tagger_classify_email_fallback Fixture.json_loads "Hello" "Invoices");
    [reflexivity | reflexivity | left; reflexivity].
Defined.

(** X16: what [tagger.py]'s classifier does not catch: an answer
    without content raises [TypeError] in [json.loads], and an answer that
    decodes to anything but an object raises [AttributeError] at
    [out.get]; both leave [classify_email], which only catches
    [JSONDecodeError]. *)
Theorem tagger_classify_email_uncaught
        (json_loads : string -> option json) (text : string) (w : world) :
  (llm w (length (prompts w)) (tagger_request text) = Responds None ->
   exists e, fst (Tagger.classify_email json_loads text w) = Raise e /\
             exn_cls e = TypeError) /\
  (forall content v,
     llm w (length (prompts w)) (tagger_request text) = Responds (Some content) ->
     json_loads content = Some v ->
     (forall out, v <> JObject out) ->
     exists e, fst (Tagger.classify_email json_loads text w) = Raise e /\
               exn_cls e = AttributeError).
Proof.
  split.
  - intros Hllm. rewrite tagger_classify_email_eq, Hllm. simpl.
    eexists. split; reflexivity.
  - intros content v Hllm Hj Hv. rewrite tagger_classify_email_eq, Hllm.
    unfold Tagger.parse_category. rewrite Hj.
    destruct v as [| | | | |out]; try (eexists; split; reflexivity).
    now destruct (Hv out).
Qed.

Lemma tagger_classify_email_uncaught_witness :
  exists e,
    fst (Tagger.classify_email Fixture.json_loads "Hello"
           (Fixture.world_of ∅ [] Fixture.no_fault (Fixture.answers "[]"))) = Raise e /\
    exn_cls e = AttributeError.
Proof.
  apply (proj2 (tagger_classify_email_uncaught Fixture.json_loads "Hello"
                  (Fixture.world_of ∅ [] Fixture.no_fault (Fixture.answers "[]")))
               "[]" (JArray [])).
  - reflexivity.
  - reflexivity.
  - discriminate.
Defined.

(** * Whole runs *)

(** ** No HttpError leaves [main.py] *)

Lemma nhe_ret {A} (a : A) : no_HttpError_escapes (ret a).
Proof. intros w e. discriminate. Qed.

Lemma nhe_print (s : string) : no_HttpError_escapes (print s).
Proof. intros w e. discriminate. Qed.

Lemma nhe_bind {A B} (m : M A) (k : A -> M B) :
  no_HttpError_escapes m -> (forall a, no_HttpError_escapes (k a)) ->
  no_HttpError_escapes (bind m k).
Proof.
  intros Hm Hk w e. unfold bind. specialize (Hm w).
  destruct (m w) as [[a|e'] w1]; simpl in *.
  - apply Hk.
  - intros [= <-]. now apply Hm.
Qed.

(** A handler for a class that covers [HttpError] lets none through,
    whatever its [try] block does. *)
Lemma nhe_try_except {A} (body : M A) (catches : exn -> bool) (handler : exn -> M A) :
  (forall e, is_HttpError e = true -> catches e = true) ->
  (forall e, no_HttpError_escapes (handler e)) ->
  no_HttpError_escapes (try_except body catches handler).
Proof.
  intros Hc Hh w e. unfold try_except.
  destruct (body w) as [[a|e'] w1]; simpl; [discriminate|].
  destruct (catches e') eqn:Hce.
  - apply Hh.
  - intros [= <-]. destruct (is_HttpError e') eqn:He; [|reflexivity].
    rewrite (Hc e' He) in Hce. discriminate.
Qed.

Lemma nhe_for_each {A} (l : list A) (body : A -> M unit) :
  (forall x, no_HttpError_escapes (body x)) -> no_HttpError_escapes (for_each l body).
Proof.
  intros Hb. induction l as [|x l IH]; simpl.
  - apply nhe_ret.
  - apply nhe_bind; [apply Hb | intros _; exact IH].
Qed.

Lemma nhe_gmail_authenticate : no_HttpError_escapes Main.gmail_authenticate.
Proof.
  intros w e. unfold Main.gmail_authenticate. destruct (auth w); discriminate.
Qed.

Ltac nhe_step :=
  first
    [ apply nhe_ret
    | apply nhe_print
    | apply nhe_gmail_authenticate
    | apply nhe_try_except; [intros ? ?; solve [assumption | reflexivity] | intros ?]
    | apply nhe_for_each; intros ?
    | apply nhe_bind; [|intros ?]
    | match goal with
      | |- no_HttpError_escapes (match ?x with _ => _ end) => destruct x
      | |- no_HttpError_escapes (if ?b then _ else _) => destruct b
      end ].

Lemma nhe_main_fetch : no_HttpError_escapes Main.fetch_unread_message_ids.
Proof. unfold Main.fetch_unread_message_ids. repeat nhe_step. Qed.

Lemma nhe_main_get_message_text (id : string) :
  no_HttpError_escapes (Main.get_message_text id).
Proof. unfold Main.get_message_text. repeat nhe_step. Qed.

Lemma nhe_main_get_or_create_label (name : string) :
  no_HttpError_escapes (Main.get_or_create_label name).
Proof. unfold Main.get_or_create_label. repeat nhe_step. Qed.

Lemma nhe_main_apply_label (id l : string) : no_HttpError_escapes (Main.apply_label id l).
Proof. unfold Main.apply_label. repeat nhe_step. Qed.

Lemma nhe_main_classify_email (text : string) :
  no_HttpError_escapes (Main.classify_email text).
Proof.
  intros w e H. destruct (main_classify_email_total text w) as (c & Hc & _).
  congruence.
Qed.

Lemma nhe_main_loop_body (s : msg_summary) : no_HttpError_escapes (Main.main_loop_body s).
Proof.
  unfold Main.main_loop_body. cbv zeta.
  apply nhe_bind; [apply nhe_main_get_message_text | intros text].
  destruct (negb (truthy_str text)); [apply nhe_print|].
  apply nhe_bind; [apply nhe_main_classify_email | intros category].
  apply nhe_bind; [apply nhe_print | intros _].
  apply nhe_bind; [apply nhe_main_get_or_create_label | intros label_id].
  destruct (truthy_str label_id); [|apply nhe_ret].
  apply nhe_bind; [apply nhe_main_apply_label | intros _; apply nhe_print].
Qed.

(** X17: whatever the mail service does, no [HttpError] leaves a function
    of [main.py], nor its run: each request sits in a [try] whose handler
    catches that class. *)
Theorem main_contains_HttpError :
  no_HttpError_escapes Main.fetch_unread_message_ids /\
  (forall id, no_HttpError_escapes (Main.get_message_text id)) /\
  (forall name, no_HttpError_escapes (Main.get_or_create_label name)) /\
  (forall id l, no_HttpError_escapes (Main.apply_label id l)) /\
  (forall s, no_HttpError_escapes (Main.main_loop_body s)) /\
  no_HttpError_escapes Main.main.
Proof.
  split; [exact nhe_main_fetch|].
  split; [exact nhe_main_get_message_text|].
  split; [exact nhe_main_get_or_create_label|].
  split; [exact nhe_main_apply_label|].
  split; [exact nhe_main_loop_body|].
  unfold Main.main.
  apply nhe_bind; [apply nhe_print | intros _].
  apply nhe_bind; [apply nhe_gmail_authenticate | intros [service|]]; [|apply nhe_print].
  apply nhe_bind; [apply nhe_main_fetch | intros [|s l]]; [apply nhe_print|].
  apply nhe_bind; [apply nhe_print | intros _].
  apply nhe_bind; [|intros _; apply nhe_print].
  apply nhe_for_each. exact nhe_main_loop_body.
Qed.

(** ** The requests of a run *)

Lemma main_loop_body_trace (s : msg_summary) (w : world) :
  exists rs, requests (snd (Main.main_loop_body s w)) = requests w ++ rs /\
             iteration_trace (msg_id s) rs.
Proof.
  rewrite main_loop_body_eq. cbv zeta.
  pose proof (main_get_message_text_requests (msg_id s) w) as H1.
  destruct (Main.get_message_text (msg_id s) w) as [[text|e] w1]; simpl in H1;
    [|exists [GetMessage (msg_id s)]; split; [exact H1 | constructor]].
  destruct (truthy_str text);
    [|exists [GetMessage (msg_id s)]; split; [exact H1 | constructor]].
  pose proof (main_classify_email_requests text w1) as H2.
  destruct (main_classify_email_total text w1) as (c0 & Hc0 & Hcat).
  destruct (Main.classify_email text w1) as [[c|e] w2]; simpl in H2, Hc0;
    [|discriminate].
  injection Hc0 as <-.
  destruct (main_get_or_create_label_requests c
              (log_stdout (Main.classified_line (msg_id s) c) w2)) as (rs & H3 & Hrs).
  simpl in H3.
  assert (E3 : requests (snd (Main.get_or_create_label c
                 (log_stdout (Main.classified_line (msg_id s) c) w2)))
               = requests w ++ GetMessage (msg_id s) :: rs)
    by (rewrite H3, H2, H1, <- app_assoc; reflexivity).
  destruct (Main.get_or_create_label c _) as [[l|e] w3]; simpl in E3;
    [|exists (GetMessage (msg_id s) :: rs); split;
      [exact E3 | now apply (trace_resolve _ c)]].
  destruct (truthy_str l);
    [|exists (GetMessage (msg_id s) :: rs); split;
      [exact E3 | now apply (trace_resolve _ c)]].
  pose proof (main_apply_label_requests (msg_id s) l w3) as H4.
  exists (GetMessage (msg_id s) :: rs ++ [ModifyMessage (msg_id s) [l] [UNREAD]]).
  split; [|now apply (trace_mutation _ c)].
  destruct (Main.apply_label (msg_id s) l w3) as [[[]|e] w4]; simpl in *;
    rewrite H4, E3, <- app_assoc; reflexivity.
Qed.

Lemma tagger_apply_label_requests (id l : string) (w : world) :
  requests (snd (Tagger.apply_label id l w)) = requests w ++ [ModifyMessage id [l] [UNREAD]].
Proof.
  rewrite tagger_apply_label_eq. cbv zeta. repeat break_match; reflexivity.
Qed.

Lemma tagger_loop_body_trace (json_loads : string -> option json)
      (s : msg_summary) (w : world) :
  exists rs, requests (snd (Tagger.main_loop_body json_loads s w)) = requests w ++ rs /\
             iteration_trace (msg_id s) rs.
Proof.
  rewrite tagger_loop_body_eq. cbv zeta.
  pose proof (tagger_get_message_text_requests (msg_id s) w) as H1.
  destruct (Tagger.get_message_text (msg_id s) w) as [[text|e] w1]; simpl in H1;
    [|exists [GetMessage (msg_id s)]; split; [exact H1 | constructor]].
  pose proof (tagger_classify_email_requests json_loads text w1) as H2.
  pose proof (fun c => tagger_classify_email_closed json_loads text c w1) as Hcat.
  destruct (Tagger.classify_email json_loads text w1) as [[c|e] w2]; simpl in H2, Hcat;
    [|exists [GetMessage (msg_id s)]; split; [simpl; congruence | constructor]].
  specialize (Hcat c eq_refl).
  destruct (tagger_get_or_create_label_requests c w2) as (rs & H3 & Hrs).
  assert (E3 : requests (snd (Tagger.get_or_create_label c w2))
               = requests w ++ GetMessage (msg_id s) :: rs)
    by (rewrite H3, H2, H1, <- app_assoc; reflexivity).
  destruct (Tagger.get_or_create_label c w2) as [[l|e] w3]; simpl in E3;
    [|exists (GetMessage (msg_id s) :: rs); split;
      [exact E3 | now apply (trace_resolve _ c)]].
  pose proof (tagger_apply_label_requests (msg_id s) l w3) as H4.
  exists (GetMessage (msg_id s) :: rs ++ [ModifyMessage (msg_id s) [l] [UNREAD]]).
  split; [|now apply (trace_mutation _ c)].
  destruct (Tagger.apply_label (msg_id s) l w3) as [[[]|e] w4]; simpl in *;
    rewrite H4, E3, <- app_assoc; reflexivity.
Qed.

(** What the trace of an iteration tells. *)
Lemma iteration_trace_facts (id : string) (rs : list request) :
  iteration_trace id rs ->
  Forall request_wellformed rs /\
  Forall (fun r => forall i, message_of r = Some i -> i = id) rs /\
  length rs <= 4 /\
  retrieved rs = [id].
Proof.
  assert (Hwf : forall c, In c CATEGORIES ->
            request_wellformed (CreateLabel c "labelShow" "show"))
    by (intros c Hc; simpl; auto).
  assert (Hwm : forall l, request_wellformed (ModifyMessage id [l] [UNREAD]))
    by (intros l; simpl; eauto).
  assert (Hm : forall l i, message_of (ModifyMessage id [l] [UNREAD]) = Some i -> i = id)
    by (intros l i [= <-]; reflexivity).
  assert (Hg : forall i, message_of (GetMessage id) = Some i -> i = id)
    by (intros i [= <-]; reflexivity).
  intros [| c rs' Hc [-> | ->] | c rs' l Hc [-> | ->]]; cbn [app];
    (split; [|split; [|split; [simpl; lia | reflexivity]]]);
    repeat first [apply List.Forall_nil | apply List.Forall_cons];
    first [exact I | now apply Hwf | apply Hwm | exact (Hm _) | exact Hg
          | (intros i Hi; simpl in Hi; discriminate Hi)].
Qed.

Lemma traces_facts (done : list msg_summary) (rss : list (list request)) :
  Forall2 (fun s rs => iteration_trace (msg_id s) rs) done rss ->
  Forall request_wellformed (concat rss) /\
  Forall (fun r => forall i, message_of r = Some i -> In i (map msg_id done)) (concat rss) /\
  length (concat rss) <= 4 * length done /\
  retrieved (concat rss) = map msg_id done.
Proof.
  induction 1 as [|s rs done rss Hs _ IH]; simpl.
  - repeat split; constructor.
  - destruct (iteration_trace_facts _ _ Hs) as (F1 & F2 & F3 & F4).
    destruct IH as (I1 & I2 & I3 & I4).
    split; [now apply Forall_app|]. split; [|split].
    + apply Forall_app. split.
      * eapply List.Forall_impl; [|exact F2]. intros r H i Hi. left. symmetry. now apply H.
      * eapply List.Forall_impl; [|exact I2]. intros r H i Hi. right. now apply H.
    + rewrite length_app. lia.
    + now rewrite retrieved_app, F4, I4.
Qed.

Section Loop.

Variable body : msg_summary -> M unit.

Hypothesis body_trace :
  forall s w, exists rs, requests (snd (body s w)) = requests w ++ rs /\
                         iteration_trace (msg_id s) rs.

(** The loop sends the traces of the messages it gets to, in order; it
    gets to all of them when it returns. *)
Lemma for_each_traces (l : list msg_summary) :
  forall w, exists done rss rest,
    l = done ++ rest /\
    Forall2 (fun s rs => iteration_trace (msg_id s) rs) done rss /\
    requests (snd (for_each l body w)) = requests w ++ concat rss /\
    (fst (for_each l body w) = Ok tt -> rest = []).
Proof.
  induction l as [|s l IH]; intros w; simpl.
  - exists [], [], []. simpl. rewrite app_nil_r. repeat split; constructor.
  - unfold bind. destruct (body_trace s w) as (rs & E & T).
    destruct (body s w) as [[[]|e] w1]; simpl in E.
    + destruct (IH w1) as (done & rss & rest & -> & F & E2 & Hok).
      exists (s :: done), (rs :: rss), rest. simpl.
      split; [reflexivity|]. split; [now constructor|].
      split; [now rewrite E2, E, <- app_assoc | exact Hok].
    + exists [s], [rs], l. simpl. rewrite app_nil_r.
      split; [reflexivity|]. split; [repeat constructor; exact T|].
      split; [exact E | discriminate].
Qed.

End Loop.

Lemma main_fetch_cases (w : world) :
  let r := Main.fetch_unread_message_ids w in
  requests (snd r) = requests w ++ [ListMessages "is:unread" 10] /\
  prompts (snd r) = prompts w /\
  (forall msgs, fst r = Ok msgs -> msgs = fetched w) /\
  (forall e, fst r = Raise e -> fetched w = []).
Proof.
  cbv zeta. unfold Main.fetch_unread_message_ids, messages_list, fetched. unfold_py.
  destruct (fault w (length (requests w))) as [e|]; cbn [fst snd].
  - destruct (is_HttpError e); cbn [fst snd]; repeat split; try reflexivity;
      intros ? [= <-]; reflexivity.
  - repeat split; try reflexivity; [intros ? [= <-]; reflexivity | discriminate].
Qed.

Lemma tagger_fetch_cases (w : world) :
  let r := Tagger.fetch_unread_message_ids w in
  requests (snd r) = requests w ++ [ListMessages "is:unread" 10] /\
  prompts (snd r) = prompts w /\
  (forall msgs, fst r = Ok msgs -> msgs = fetched w) /\
  (forall e, fst r = Raise e -> fetched w = []).
Proof.
  cbv zeta. unfold Tagger.fetch_unread_message_ids, messages_list, fetched. unfold_py.
  destruct (fault w (length (requests w))) as [e|]; cbn [fst snd].
  - repeat split; try reflexivity; discriminate.
  - repeat split; try reflexivity; [intros ? [= <-]; reflexivity | discriminate].
Qed.

(** The requests of a run of [main.py]. *)
Lemma main_run_requests (w : world) :
  exists done rss rest,
    fetched w = done ++ rest /\
    Forall2 (fun s rs => iteration_trace (msg_id s) rs) done rss /\
    sent w (snd (Main.main w)) =
      match auth w with
      | Authenticated => ListMessages "is:unread" 10 :: concat rss
      | _ => []
      end /\
    (auth w = Authenticated -> fst (Main.main w) = Ok tt -> rest = []).
Proof.
  destruct (auth w) eqn:Ha.
  1-3: exists [], [], (fetched w); split; [reflexivity|]; split; [constructor|];
       split; [|discriminate];
       unfold Main.main, Main.gmail_authenticate, sent; unfold_py; simpl; rewrite Ha;
       simpl; apply drop_all.
  rewrite (main_eq w Ha). cbv zeta.
  set (w0 := log_stdout _ (log_stdout _ w)).
  destruct (main_fetch_cases w0) as (R1 & _ & Hok & Hraise).
  change (requests w0) with (requests w) in R1.
  change (fetched w0) with (fetched w) in Hok, Hraise.
  destruct (Main.fetch_unread_message_ids w0) as [[msgs|e] w1]; simpl in R1, Hok, Hraise.
  2:{ exists [], [], []. rewrite (Hraise e eq_refl).
      split; [reflexivity|]. split; [constructor|].
      split; [|reflexivity]. unfold sent. simpl. rewrite R1. apply drop_app_length. }
  rewrite <- (Hok msgs eq_refl).
  destruct msgs as [|s l].
  { exists [], [], []. split; [reflexivity|]. split; [constructor|].
    split; [|reflexivity]. unfold sent. simpl. rewrite R1. apply drop_app_length. }
  set (w2 := log_stdout _ w1).
  destruct (for_each_traces Main.main_loop_body main_loop_body_trace (s :: l) w2)
    as (done & rss & rest & Hl & F & E & Hdone).
  exists done, rss, rest. split; [exact Hl|]. split; [exact F|].
  change (requests w2) with (requests w1) in E.
  destruct (for_each (s :: l) Main.main_loop_body w2) as [[[]|e] w3]; simpl in E, Hdone.
  - split; [|intros _ _; now apply Hdone].
    unfold sent. simpl. rewrite E, R1, <- app_assoc. apply drop_app_length.
  - split; [|discriminate].
    unfold sent. simpl. rewrite E, R1, <- app_assoc. apply drop_app_length.
Qed.

(** The requests of the loop of [tagger.py]'s [main]. *)
Lemma tagger_run_requests (json_loads : string -> option json) (w : world) :
  exists done rss rest,
    fetched w = done ++ rest /\
    Forall2 (fun s rs => iteration_trace (msg_id s) rs) done rss /\
    sent w (snd (Tagger.main_loop json_loads w)) = ListMessages "is:unread" 10 :: concat rss /\
    (fst (Tagger.main_loop json_loads w) = Ok tt -> rest = []).
Proof.
  unfold Tagger.main_loop, bind.
  destruct (tagger_fetch_cases w) as (R1 & _ & Hok & Hraise).
  destruct (Tagger.fetch_unread_message_ids w) as [[msgs|e] w1]; simpl in R1, Hok, Hraise.
  2:{ exists [], [], []. rewrite (Hraise e eq_refl).
      split; [reflexivity|]. split; [constructor|].
      split; [|reflexivity]. unfold sent. simpl. rewrite R1. apply drop_app_length. }
  rewrite <- (Hok msgs eq_refl).
  destruct (for_each_traces (Tagger.main_loop_body json_loads)
              (tagger_loop_body_trace json_loads) msgs w1)
    as (done & rss & rest & Hl & F & E & Hdone).
  exists done, rss, rest. split; [exact Hl|]. split; [exact F|].
  split; [|exact Hdone].
  unfold sent. rewrite E, R1, <- app_assoc. apply drop_app_length.
Qed.

Lemma wellformed_listing : request_wellformed (ListMessages "is:unread" 10).
Proof. split; reflexivity. Qed.

(** X18: the requests of a run, of either variant, are of five kinds
    only, with the constants of the source: the listing of at most ten
    unread messages, retrievals, listings of the labels, creations of a
    label named after a category and shown in both lists, and mutations
    that add one label and remove [UNREAD] and nothing else.  For
    [tagger.py] this holds of the loop of [main] and of [main] as it
    stands. *)
Theorem runs_send_wellformed_requests (json_loads : string -> option json) (w : world) :
  Forall request_wellformed (sent w (snd (Main.main w))) /\
  Forall request_wellformed (sent w (snd (Tagger.main_loop json_loads w))) /\
  Forall request_wellformed (sent w (snd (Tagger.main json_loads w))).
Proof.
  split; [|split].
  3:{ destruct (tagger_main_stops json_loads w) as (e & -> & _).
      cbn [snd]. rewrite sent_same. constructor. }
  - destruct (main_run_requests w) as (done & rss & rest & _ & F & -> & _).
    destruct (traces_facts done rss F) as (Hwf & _).
    destruct (auth w); constructor; [apply wellformed_listing | exact Hwf].
  - destruct (tagger_run_requests json_loads w) as (done & rss & rest & _ & F & -> & _).
    destruct (traces_facts done rss F) as (Hwf & _).
    constructor; [apply wellformed_listing | exact Hwf].
Qed.

Section Touches.

Variable body : msg_summary -> M unit.

Hypothesis body_terminal :
  forall s w, untouched w (snd (body s w)) \/
              labelled_and_read w (snd (body s w)) (msg_id s).

Lemma for_each_touches_only (l : list msg_summary) :
  forall w, touches_only (map msg_id l) w (snd (for_each l body w)).
Proof.
  induction l as [|s l IH]; intros w id Hid; simpl in *.
  - reflexivity.
  - unfold bind.
    assert (H1 : mailbox (snd (body s w)) !! id = mailbox w !! id).
    { destruct (body_terminal s w) as [U | (m & l0 & c & _ & -> & _)].
      - now rewrite U.
      - apply lookup_insert_ne. intros E. apply Hid. now left. }
    destruct (body s w) as [[[]|e] w1]; simpl in *; [|exact H1].
    rewrite IH by tauto. exact H1.
Qed.

End Touches.

Lemma touches_only_main (w : world) :
  touches_only (map msg_id (fetched w)) w (snd (Main.main w)).
Proof.
  intros id Hid. destruct (auth w) eqn:Ha.
  1-3: unfold Main.main, Main.gmail_authenticate; unfold_py; simpl; rewrite Ha;
       reflexivity.
  rewrite (main_eq w Ha). cbv zeta.
  set (w0 := log_stdout _ (log_stdout _ w)).
  pose proof (steadily_main_fetch w0) as [_ S1].
  destruct (main_fetch_cases w0) as (_ & _ & Hok & _).
  change (fetched w0) with (fetched w) in Hok.
  change (mailbox w0) with (mailbox w) in S1.
  destruct (Main.fetch_unread_message_ids w0) as [[msgs|e] w1]; simpl in S1, Hok;
    [|simpl; now rewrite S1].
  rewrite <- (Hok msgs eq_refl) in Hid.
  destruct msgs as [|s l]; [simpl; now rewrite S1|].
  set (w2 := log_stdout _ w1).
  pose proof (for_each_touches_only Main.main_loop_body
                (fun s w => proj1 (main_loop_body_terminal s w)) (s :: l) w2 id Hid) as H.
  change (mailbox w2) with (mailbox w1) in H.
  destruct (for_each (s :: l) Main.main_loop_body w2) as [[[]|e] w3]; simpl in *;
    now rewrite H, S1.
Qed.

Lemma touches_only_tagger (json_loads : string -> option json) (w : world) :
  touches_only (map msg_id (fetched w)) w (snd (Tagger.main_loop json_loads w)).
Proof.
  intros id Hid. unfold Tagger.main_loop, bind.
  pose proof (steadily_tagger_fetch w) as [_ S1].
  destruct (tagger_fetch_cases w) as (_ & _ & Hok & _).
  destruct (Tagger.fetch_unread_message_ids w) as [[msgs|e] w1]; simpl in S1, Hok;
    [|simpl; now rewrite S1].
  rewrite <- (Hok msgs eq_refl) in Hid.
  rewrite (for_each_touches_only (Tagger.main_loop_body json_loads)
             (fun s w => proj1 (tagger_loop_body_terminal json_loads s w)) msgs w1 id Hid).
  now rewrite S1.
Qed.

(** X19: a run touches the messages the fetch returned and no other:
    every retrieval and every mutation it sends names one of them, and
    every other message of the mailbox is at the end as it was.  For
    [tagger.py] this holds of the loop of [main] and of [main] as it
    stands. *)
Theorem runs_touch_fetched_messages_only
        (json_loads : string -> option json) (w : world) :
  let ids := map msg_id (fetched w) in
  (Forall (fun r => forall i, message_of r = Some i -> In i ids)
          (sent w (snd (Main.main w))) /\
   touches_only ids w (snd (Main.main w))) /\
  (Forall (fun r => forall i, message_of r = Some i -> In i ids)
          (sent w (snd (Tagger.main_loop json_loads w))) /\
   touches_only ids w (snd (Tagger.main_loop json_loads w))) /\
  (Forall (fun r => forall i, message_of r = Some i -> In i ids)
          (sent w (snd (Tagger.main json_loads w))) /\
   touches_only ids w (snd (Tagger.main json_loads w))).
Proof.
  cbv zeta.
  assert (Hin : forall done rest rss,
            fetched w = done ++ rest ->
            Forall2 (fun s rs => iteration_trace (msg_id s) rs) done rss ->
            Forall (fun r => forall i, message_of r = Some i ->
                      In i (map msg_id (fetched w))) (concat rss)).
  { intros done rest rss E F. destruct (traces_facts done rss F) as (_ & H & _).
    eapply List.Forall_impl; [|exact H]. intros r Hr i Hi.
    rewrite E, map_app. apply in_or_app. left. now apply Hr. }
  split; [|split]; split.
  - destruct (main_run_requests w) as (done & rss & rest & E & F & -> & _).
    destruct (auth w); constructor; try (intros i; discriminate); eauto.
  - apply touches_only_main.
  - destruct (tagger_run_requests json_loads w) as (done & rss & rest & E & F & -> & _).
    constructor; [intros i; discriminate | eauto].
  - apply touches_only_tagger.
  - destruct (tagger_main_stops json_loads w) as (e & -> & _).
    cbn [snd]. rewrite sent_same. constructor.
  - destruct (tagger_main_stops json_loads w) as (e & -> & _).
    intros id _. reflexivity.
Qed.

(** X20: both loops go through the fetched messages in the order of the
    listing, one retrieval each: the identifiers retrieved are an initial
    part of the identifiers fetched, and all of them when the run ends
    normally.  [tagger.py]'s [main] as it stands retrieves none and does
    not end normally. *)
Theorem runs_retrieve_in_order (json_loads : string -> option json) (w : world) :
  (exists rest,
     map msg_id (fetched w) = retrieved (sent w (snd (Main.main w))) ++ rest /\
     (auth w = Authenticated -> fst (Main.main w) = Ok tt -> rest = [])) /\
  (exists rest,
     map msg_id (fetched w)
       = retrieved (sent w (snd (Tagger.main_loop json_loads w))) ++ rest /\
     (fst (Tagger.main_loop json_loads w) = Ok tt -> rest = [])) /\
  (retrieved (sent w (snd (Tagger.main json_loads w))) = [] /\
   fst (Tagger.main json_loads w) <> Ok tt).
Proof.
  split; [|split].
  3:{ destruct (tagger_main_stops json_loads w) as (e & -> & _).
      cbn [fst snd]. rewrite sent_same. split; [reflexivity | discriminate]. }
  - destruct (main_run_requests w) as (done & rss & rest & E & F & -> & Hok).
    destruct (traces_facts done rss F) as (_ & _ & _ & R).
    destruct (auth w) eqn:Ha.
    4:{ exists (map msg_id rest). simpl. rewrite R, E, map_app.
        split; [reflexivity|]. intros _ H. now rewrite (Hok eq_refl H). }
    all: exists (map msg_id (fetched w)); split; [reflexivity | discriminate].
  - destruct (tagger_run_requests json_loads w) as (done & rss & rest & E & F & -> & Hok).
    destruct (traces_facts done rss F) as (_ & _ & _ & R).
    exists (map msg_id rest). simpl. rewrite R, E, map_app.
    split; [reflexivity|]. intros H. now rewrite (Hok H).
Qed.

Lemma runs_retrieve_in_order_witness :
  map msg_id (fetched Fixture.w_flaky)
    = retrieved (sent Fixture.w_flaky (snd (Main.main Fixture.w_flaky))) /\
  retrieved (sent Fixture.w_flaky (snd (Tagger.main_loop Fixture.json_loads Fixture.w_flaky)))
    = ["m1"].
Proof.
  destruct (runs_retrieve_in_order Fixture.json_loads Fixture.w_flaky)
    as [(rest & E & Hrest) _].
  split; [|reflexivity].
  rewrite E, (Hrest eq_refl eq_refl). now rewrite app_nil_r.
Defined.

Lemma runs_touch_fetched_messages_only_witness :
  let w := Fixture.world_of {[ "m1" := Fixture.single_part; "m2" := Fixture.relabelled ]}
             ["m1"] Fixture.no_fault (Fixture.answers "Invoices") in
  mailbox (snd (Main.main w)) !! "m2" = Some Fixture.relabelled /\
  mailbox (snd (Tagger.main_loop Fixture.json_loads w)) !! "m2" = Some Fixture.relabelled.
Proof.
  intros w.
  destruct (runs_touch_fetched_messages_only Fixture.json_loads w)
    as [[_ Hmain] [[_ Htagger] _]].
  split.
  - rewrite (Hmain "m2"); [reflexivity|]. intros [H | []]. discriminate.
  - rewrite (Htagger "m2"); [reflexivity|]. intros [H | []]. discriminate.
Defined.

(** *** How many calls a run makes *)

Lemma main_get_message_text_prompts (id : string) (w : world) :
  prompts (snd (Main.get_message_text id w)) = prompts w.
Proof. unfold Main.get_message_text, messages_get. py_cases; reflexivity. Qed.

Lemma main_get_or_create_label_prompts (name : string) (w : world) :
  prompts (snd (Main.get_or_create_label name w)) = prompts w.
Proof. rewrite main_get_or_create_label_eq. cbv zeta. repeat break_match; reflexivity. Qed.

Lemma main_apply_label_prompts (id l : string) (w : world) :
  prompts (snd (Main.apply_label id l w)) = prompts w.
Proof. rewrite main_apply_label_eq. cbv zeta. repeat break_match; reflexivity. Qed.

Lemma main_classify_email_prompts (text : string) (w : world) :
  length (prompts (snd (Main.classify_email text w))) <= S (length (prompts w)).
Proof.
  destruct (string_dec text "") as [->|Ht]; [simpl; lia|].
  rewrite (main_classify_email_eq text w Ht).
  destruct (llm w _ _) as [[c|]|e]; simpl; rewrite length_app; simpl; lia.
Qed.

Lemma tagger_get_message_text_prompts (id : string) (w : world) :
  prompts (snd (Tagger.get_message_text id w)) = prompts w.
Proof. unfold Tagger.get_message_text, messages_get. py_cases; reflexivity. Qed.

Lemma tagger_get_or_create_label_prompts (name : string) (w : world) :
  prompts (snd (Tagger.get_or_create_label name w)) = prompts w.
Proof. rewrite tagger_get_or_create_label_eq. cbv zeta. repeat break_match; reflexivity. Qed.

Lemma tagger_apply_label_prompts (id l : string) (w : world) :
  prompts (snd (Tagger.apply_label id l w)) = prompts w.
Proof. rewrite tagger_apply_label_eq. cbv zeta. repeat break_match; reflexivity. Qed.

Lemma tagger_classify_email_prompts (json_loads : string -> option json)
      (text : string) (w : world) :
  length (prompts (snd (Tagger.classify_email json_loads text w))) <= S (length (prompts w)).
Proof.
  rewrite tagger_classify_email_eq.
  repeat break_match; simpl; rewrite length_app; simpl; lia.
Qed.

Lemma main_loop_body_prompts (s : msg_summary) (w : world) :
  length (prompts (snd (Main.main_loop_body s w))) <= S (length (prompts w)).
Proof.
  rewrite main_loop_body_eq. cbv zeta.
  pose proof (main_get_message_text_prompts (msg_id s) w) as H1.
  destruct (Main.get_message_text (msg_id s) w) as [[text|e] w1]; simpl in H1;
    [|simpl; rewrite H1; lia].
  destruct (truthy_str text); [|simpl; rewrite H1; lia].
  pose proof (main_classify_email_prompts text w1) as H2.
  destruct (Main.classify_email text w1) as [[c|e] w2]; simpl in H2;
    [|simpl; rewrite <- H1; lia].
  pose proof (main_get_or_create_label_prompts c
                (log_stdout (Main.classified_line (msg_id s) c) w2)) as H3.
  destruct (Main.get_or_create_label c _) as [[l|e] w3]; simpl in H3;
    [|simpl; rewrite H3, <- H1; lia].
  destruct (truthy_str l); [|simpl; rewrite H3, <- H1; lia].
  pose proof (main_apply_label_prompts (msg_id s) l w3) as H4.
  destruct (Main.apply_label (msg_id s) l w3) as [[[]|e] w4]; simpl in *;
    rewrite H4, H3, <- H1; lia.
Qed.

Lemma tagger_loop_body_prompts (json_loads : string -> option json)
      (s : msg_summary) (w : world) :
  length (prompts (snd (Tagger.main_loop_body json_loads s w))) <= S (length (prompts w)).
Proof.
  rewrite tagger_loop_body_eq. cbv zeta.
  pose proof (tagger_get_message_text_prompts (msg_id s) w) as H1.
  destruct (Tagger.get_message_text (msg_id s) w) as [[text|e] w1]; simpl in H1;
    [|simpl; rewrite H1; lia].
  pose proof (tagger_classify_email_prompts json_loads text w1) as H2.
  destruct (Tagger.classify_email json_loads text w1) as [[c|e] w2]; simpl in H2;
    [|simpl; rewrite <- H1; lia].
  pose proof (tagger_get_or_create_label_prompts c w2) as H3.
  destruct (Tagger.get_or_create_label c w2) as [[l|e] w3]; simpl in H3;
    [|simpl; rewrite H3, <- H1; lia].
  pose proof (tagger_apply_label_prompts (msg_id s) l w3) as H4.
  destruct (Tagger.apply_label (msg_id s) l w3) as [[[]|e] w4]; simpl in *;
    rewrite H4, H3, <- H1; lia.
Qed.

Lemma for_each_prompts (body : msg_summary -> M unit) (l : list msg_summary) :
  (forall s w, length (prompts (snd (body s w))) <= S (length (prompts w))) ->
  forall w, length (prompts (snd (for_each l body w))) <= length (prompts w) + length l.
Proof.
  intros Hb. induction l as [|s l IH]; intros w; simpl; [lia|].
  unfold bind. specialize (Hb s w).
  destruct (body s w) as [[[]|e] w1]; simpl in *; [|lia].
  specialize (IH w1). lia.
Qed.

(** X21: every call is made once: a run sends the listing and at most
    four requests for each fetched message (its retrieval, the listing of
    the labels, a creation, the mutation), and calls the model at most
    once for each.  [tagger.py]'s [main] as it stands sends no request and
    does not call the model. *)
Theorem runs_call_once_per_message (json_loads : string -> option json) (w : world) :
  let n := length (fetched w) in
  (length (sent w (snd (Main.main w))) <= 1 + 4 * n /\
   length (prompts (snd (Main.main w))) <= length (prompts w) + n) /\
  (length (sent w (snd (Tagger.main_loop json_loads w))) <= 1 + 4 * n /\
   length (prompts (snd (Tagger.main_loop json_loads w))) <= length (prompts w) + n) /\
  (sent w (snd (Tagger.main json_loads w)) = [] /\
   prompts (snd (Tagger.main json_loads w)) = prompts w).
Proof.
  cbv zeta.
  assert (Hlen : forall done rest rss,
            fetched w = done ++ rest ->
            Forall2 (fun s rs => iteration_trace (msg_id s) rs) done rss ->
            length (concat rss) <= 4 * length (fetched w)).
  { intros done rest rss E F. destruct (traces_facts done rss F) as (_ & _ & H & _).
    rewrite E, length_app. lia. }
  split; [|split]; split.
  5:{ destruct (tagger_main_stops json_loads w) as (e & -> & _). apply sent_same. }
  5:{ destruct (tagger_main_stops json_loads w) as (e & -> & _). reflexivity. }
  - destruct (main_run_requests w) as (done & rss & rest & E & F & -> & _).
    pose proof (Hlen done rest rss E F).
    destruct (auth w); simpl; lia.
  - destruct (auth w) eqn:Ha.
    1-3: unfold Main.main, Main.gmail_authenticate; unfold_py; simpl; rewrite Ha;
         simpl; lia.
    rewrite (main_eq w Ha). cbv zeta.
    set (w0 := log_stdout _ (log_stdout _ w)).
    destruct (main_fetch_cases w0) as (_ & P1 & Hok & _).
    change (fetched w0) with (fetched w) in Hok.
    change (prompts w0) with (prompts w) in P1.
    destruct (Main.fetch_unread_message_ids w0) as [[msgs|e] w1]; simpl in P1, Hok;
      [|simpl; rewrite P1; lia].
    rewrite <- (Hok msgs eq_refl).
    destruct msgs as [|s l]; [simpl; rewrite P1; lia|].
    set (w2 := log_stdout _ w1).
    pose proof (for_each_prompts Main.main_loop_body (s :: l) main_loop_body_prompts w2) as H.
    change (prompts w2) with (prompts w1) in H. rewrite P1 in H.
    destruct (for_each (s :: l) Main.main_loop_body w2) as [[[]|e] w3]; simpl in *; lia.
  - destruct (tagger_run_requests json_loads w) as (done & rss & rest & E & F & -> & _).
    pose proof (Hlen done rest rss E F). simpl. lia.
  - unfold Tagger.main_loop, bind.
    destruct (tagger_fetch_cases w) as (_ & P1 & Hok & _).
    destruct (Tagger.fetch_unread_message_ids w) as [[msgs|e] w1]; simpl in P1, Hok;
      [|simpl; rewrite P1; lia].
    rewrite <- (Hok msgs eq_refl).
    pose proof (for_each_prompts (Tagger.main_loop_body json_loads) msgs
                  (tagger_loop_body_prompts json_loads) w1) as H.
    rewrite P1 in H. lia.
Qed.

(** ** What a run leaves alone *)

#[local] Instance keeps_labels_preorder : PreOrder keeps_labels.
Proof.
  split.
  - intros w id m Hm. exists m. split; [exact Hm|]. split; [|tauto].
    intros x. rewrite elem_of_difference. tauto.
  - intros w1 w2 w3 H12 H23 id m3 Hm3.
    destruct (H23 id m3 Hm3) as (m2 & Hm2 & S23 & U23).
    destruct (H12 id m2 Hm2) as (m1 & Hm1 & S12 & U12).
    exists m1. split; [exact Hm1|]. split; [|tauto].
    intros x Hx. apply S23. rewrite elem_of_difference in *.
    split; [apply S12; rewrite elem_of_difference; tauto | tauto].
Qed.

Lemma keeps_labels_of_steadily {A} (m : M A) : steadily m -> stable keeps_labels m.
Proof.
  intros H w id m' Hm'. destruct (H w) as [_ E]. rewrite E in Hm'.
  exists m'. split; [exact Hm'|]. split; [|tauto].
  intros x. rewrite elem_of_difference. tauto.
Qed.

Lemma keeps_labels_modify (id l : string) :
  stable keeps_labels (messages_modify id [l] [UNREAD]).
Proof.
  intros w id' m' Hm'. unfold messages_modify, bind, execute in Hm'.
  destruct (fault w _); cbn [snd mailbox log_request] in Hm'.
  - exists m'. split; [exact Hm'|]. split; [|tauto].
    intros x. rewrite elem_of_difference. tauto.
  - destruct (mailbox w !! id) as [m|] eqn:Hm; cbn [snd mailbox set_mailbox log_request] in Hm'.
    + destruct (decide (id = id')) as [<-|Hne].
      * rewrite lookup_insert_eq in Hm'. injection Hm' as <-.
        exists m. split; [exact Hm|]. rewrite relabel_labelIds. split.
        -- intros x. rewrite !elem_of_difference, elem_of_union. tauto.
        -- rewrite elem_of_difference, elem_of_singleton. tauto.
      * rewrite lookup_insert_ne in Hm' by exact Hne.
        exists m'. split; [exact Hm'|]. split; [|tauto].
        intros x. rewrite elem_of_difference. tauto.
    + exists m'. split; [exact Hm'|]. split; [|tauto].
      intros x. rewrite elem_of_difference. tauto.
Qed.

#[local] Hint Resolve keeps_labels_of_steadily keeps_labels_modify : stable.

(** X22: a run never removes from a message a label other than
    [UNREAD], never marks a message unread, and adds no message to the
    mailbox: each message of the end was there at the start, with at most
    [UNREAD] more.  For [tagger.py] this holds of the loop of [main] and
    of [main] as it stands. *)
Theorem runs_keep_labels (json_loads : string -> option json) (w : world) :
  keeps_labels w (snd (Main.main w)) /\
  keeps_labels w (snd (Tagger.main_loop json_loads w)) /\
  keeps_labels w (snd (Tagger.main json_loads w)).
Proof.
  split; [|split].
  3:{ destruct (tagger_main_stops json_loads w) as (e & -> & _). reflexivity. }
  - revert w. change (stable keeps_labels Main.main).
    unfold Main.main, Main.main_loop_body, Main.apply_label. cbv zeta. stable_loop.
  - revert w. change (stable keeps_labels (Tagger.main_loop json_loads)).
    unfold Tagger.main_loop, Tagger.main_loop_body, Tagger.apply_label. cbv zeta. stable_loop.
Qed.

Lemma runs_keep_labels_witness :
  exists m', mailbox (snd (Main.main Fixture.w_relabelled)) !! "m1" = Some m' /\
             labelIds Fixture.relabelled ∖ {[ UNREAD ]} ⊆ labelIds m'.
Proof.
  destruct (mailbox (snd (Main.main Fixture.w_relabelled)) !! "m1") as [m'|] eqn:Hm';
    [|vm_compute in Hm'; discriminate Hm'].
  exists m'. split; [reflexivity|].
  destruct (proj1 (runs_keep_labels Fixture.json_loads Fixture.w_relabelled) "m1" m' Hm')
    as (m & Hm & Hsub & _).
  vm_compute in Hm. injection Hm as <-. exact Hsub.
Defined.

(** X23: a run changes no payload, adds no message and removes none,
    and keeps every label of the table in its place: the table of the end
    is the table of the start followed by the labels created.  For
    [tagger.py] this holds of the loop of [main] and of [main] as it
    stands. *)
Theorem runs_keep_payloads_and_table (json_loads : string -> option json) (w : world) :
  ((forall id, msg_payload <$> (mailbox (snd (Main.main w)) !! id)
               = msg_payload <$> (mailbox w !! id)) /\
   dom (mailbox (snd (Main.main w))) = dom (mailbox w) /\
   exists new, labels (snd (Main.main w)) = labels w ++ new) /\
  ((forall id, msg_payload <$> (mailbox (snd (Tagger.main_loop json_loads w)) !! id)
               = msg_payload <$> (mailbox w !! id)) /\
   dom (mailbox (snd (Tagger.main_loop json_loads w))) = dom (mailbox w) /\
   exists new, labels (snd (Tagger.main_loop json_loads w)) = labels w ++ new) /\
  ((forall id, msg_payload <$> (mailbox (snd (Tagger.main json_loads w)) !! id)
               = msg_payload <$> (mailbox w !! id)) /\
   dom (mailbox (snd (Tagger.main json_loads w))) = dom (mailbox w) /\
   exists new, labels (snd (Tagger.main json_loads w)) = labels w ++ new).
Proof.
  assert (H : forall w', evolves w w' ->
            (forall id, msg_payload <$> (mailbox w' !! id) = msg_payload <$> (mailbox w !! id)) /\
            dom (mailbox w') = dom (mailbox w) /\
            exists new, labels w' = labels w ++ new).
  { intros w' [_ _ _ _ P (new & E & _) _]. split; [exact P|]. split; [|eauto].
    apply set_eq. intros id. rewrite !elem_of_dom. specialize (P id).
    destruct (mailbox w' !! id), (mailbox w !! id); simpl in P; try discriminate;
      split; intros [x Hx]; try discriminate; eauto. }
  split; [|split]; apply H; [apply evolving_main | apply evolving_tagger_main |].
  destruct (tagger_main_stops json_loads w) as (e & -> & _). reflexivity.
Qed.

(** ** The labels a run creates *)

#[local] Instance same_labels_preorder : PreOrder same_labels.
Proof.
  split; [intros w; reflexivity | intros w1 w2 w3; unfold same_labels; congruence].
Qed.

Lemma same_labels_print (s : string) : stable same_labels (print s).
Proof. intros w. reflexivity. Qed.

Lemma same_labels_execute (r : request) : stable same_labels (execute r).
Proof. intros w. unfold execute. destruct (fault w _); reflexivity. Qed.

Lemma same_labels_generate (r : model_request) : stable same_labels (generate r).
Proof. intros w. unfold generate. destruct (llm w _ _); reflexivity. Qed.

Lemma same_labels_gmail_authenticate : stable same_labels Main.gmail_authenticate.
Proof. intros w. unfold Main.gmail_authenticate. destruct (auth w); reflexivity. Qed.

#[local] Hint Resolve same_labels_print same_labels_execute same_labels_generate
  same_labels_gmail_authenticate : stable.

Lemma same_labels_messages_list (q : string) (n : nat) :
  stable same_labels (messages_list q n).
Proof. unfold messages_list. stable_tac. intros w. reflexivity. Qed.

Lemma same_labels_messages_get (id : string) : stable same_labels (messages_get id).
Proof.
  unfold messages_get. stable_tac. intros w. destruct (mailbox w !! id); reflexivity.
Qed.

Lemma same_labels_messages_modify (id : string) (add remove : list string) :
  stable same_labels (messages_modify id add remove).
Proof.
  unfold messages_modify. stable_tac. intros w. destruct (mailbox w !! id); reflexivity.
Qed.

#[local] Hint Resolve same_labels_messages_list same_labels_messages_get
  same_labels_messages_modify : stable.

Lemma same_labels_main_fetch : stable same_labels Main.fetch_unread_message_ids.
Proof. unfold Main.fetch_unread_message_ids. stable_tac. Qed.

Lemma same_labels_main_get_message_text (id : string) :
  stable same_labels (Main.get_message_text id).
Proof. unfold Main.get_message_text. stable_tac. Qed.

Lemma same_labels_main_classify_email (text : string) :
  stable same_labels (Main.classify_email text).
Proof. unfold Main.classify_email. stable_tac. Qed.

Lemma same_labels_main_apply_label (id l : string) :
  stable same_labels (Main.apply_label id l).
Proof. unfold Main.apply_label. stable_tac. Qed.

Lemma same_labels_tagger_fetch : stable same_labels Tagger.fetch_unread_message_ids.
Proof. unfold Tagger.fetch_unread_message_ids. stable_tac. Qed.

Lemma same_labels_tagger_get_message_text (id : string) :
  stable same_labels (Tagger.get_message_text id).
Proof. unfold Tagger.get_message_text. stable_tac. Qed.

Lemma same_labels_tagger_classify_email (json_loads : string -> option json) (text : string) :
  stable same_labels (Tagger.classify_email json_loads text).
Proof. unfold Tagger.classify_email. stable_tac. Qed.

Lemma same_labels_tagger_apply_label (id l : string) :
  stable same_labels (Tagger.apply_label id l).
Proof. unfold Tagger.apply_label. stable_tac. Qed.

Lemma creates_fresh_same (w w' : world) : same_labels w w' -> creates_fresh w w'.
Proof.
  intros E. exists []. rewrite app_nil_r. split; [exact E|].
  split; constructor.
Qed.

#[local] Instance creates_fresh_preorder : PreOrder creates_fresh.
Proof.
  split.
  - intros w. now apply creates_fresh_same.
  - intros w1 w2 w3 (n1 & E1 & D1 & F1) (n2 & E2 & D2 & F2).
    exists (n1 ++ n2). split; [now rewrite E2, E1, <- app_assoc|].
    rewrite E1 in F2. split.
    + rewrite map_app. apply NoDup_app. split; [exact D1|]. split; [|exact D2].
      intros name H1 H2. rewrite list_elem_of_In in H1, H2.
      apply in_map_iff in H1. destruct H1 as (x & <- & Hx).
      apply in_map_iff in H2. destruct H2 as (y & Hy & Hyin).
      rewrite List.Forall_forall in F2. destruct (F2 y Hyin) as [_ Fy].
      apply Forall_app in Fy. destruct Fy as [_ Fy].
      rewrite List.Forall_forall in Fy. exact (Fy x Hx (eq_sym Hy)).
    + apply Forall_app. split; [exact F1|].
      eapply List.Forall_impl; [|exact F2]. intros y [Hc Fy]. split; [exact Hc|].
      apply Forall_app in Fy. tauto.
Qed.

Lemma find_none_names (name : string) (ls : list label) :
  List.find (fun l => String.eqb (lname l) name) ls = None ->
  Forall (fun y => lname y <> name) ls.
Proof.
  intros H. apply List.Forall_forall. intros y Hy E.
  pose proof (find_none _ _ H y Hy) as Hn. simpl in Hn.
  rewrite E, String.eqb_refl in Hn. discriminate.
Qed.

Lemma creates_fresh_one (name i : string) (w w' : world) :
  In name CATEGORIES ->
  List.find (fun l => String.eqb (lname l) name) (labels w) = None ->
  labels w' = labels w ++ [Label name i] ->
  creates_fresh w w'.
Proof.
  intros Hc Hf E. exists [Label name i]. split; [exact E|]. split.
  - simpl. apply NoDup_singleton.
  - apply List.Forall_cons; [|apply List.Forall_nil].
    split; [exact Hc | now apply find_none_names].
Qed.

(** Resolving the label of a category creates at most the one label that
    was missing. *)
Lemma creates_fresh_main_get_or_create_label (name : string) (w : world) :
  In name CATEGORIES ->
  creates_fresh w (snd (Main.get_or_create_label name w)).
Proof.
  intros Hc. rewrite main_get_or_create_label_eq. cbv zeta.
  destruct (fault w (length (requests w))) as [e|].
  { destruct (is_HttpError e); now apply creates_fresh_same. }
  destruct (List.find _ (labels w)) as [x|] eqn:Hf; [now apply creates_fresh_same|].
  destruct (fault w (S (length (requests w)))) as [e|].
  { destruct (is_HttpError e); now apply creates_fresh_same. }
  now apply (creates_fresh_one name ("Label_" ++ str_of_nat (next_label w))).
Qed.

Lemma creates_fresh_tagger_get_or_create_label (name : string) (w : world) :
  In name CATEGORIES ->
  creates_fresh w (snd (Tagger.get_or_create_label name w)).
Proof.
  intros Hc. rewrite tagger_get_or_create_label_eq. cbv zeta.
  destruct (fault w (length (requests w))) as [e|]; [now apply creates_fresh_same|].
  destruct (List.find _ (labels w)) as [x|] eqn:Hf; [now apply creates_fresh_same|].
  destruct (fault w (S (length (requests w)))) as [e|]; [now apply creates_fresh_same|].
  now apply (creates_fresh_one name ("Label_" ++ str_of_nat (next_label w))).
Qed.

Lemma creates_fresh_main_loop_body (s : msg_summary) :
  stable creates_fresh (Main.main_loop_body s).
Proof.
  intros w. rewrite main_loop_body_eq. cbv zeta.
  pose proof (same_labels_main_get_message_text (msg_id s) w) as E1.
  destruct (Main.get_message_text (msg_id s) w) as [[text|e] w1]; simpl in E1;
    [|now apply creates_fresh_same].
  destruct (truthy_str text); [|now apply creates_fresh_same].
  pose proof (same_labels_main_classify_email text w1) as E2.
  destruct (main_classify_email_total text w1) as (c0 & Hc0 & Hcat).
  destruct (Main.classify_email text w1) as [[c|e] w2]; simpl in E2, Hc0; [|discriminate].
  injection Hc0 as <-.
  assert (E02 : same_labels w (log_stdout (Main.classified_line (msg_id s) c) w2))
    by (unfold same_labels in *; simpl; congruence).
  pose proof (creates_fresh_main_get_or_create_label c
                (log_stdout (Main.classified_line (msg_id s) c) w2) Hcat) as C3.
  destruct (Main.get_or_create_label c _) as [[l|e] w3]; simpl in C3;
    assert (C03 : creates_fresh w w3)
      by (etransitivity; [apply creates_fresh_same, E02 | exact C3]);
    [|exact C03].
  destruct (truthy_str l); [|exact C03].
  pose proof (same_labels_main_apply_label (msg_id s) l w3) as E4.
  destruct (Main.apply_label (msg_id s) l w3) as [[[]|e] w4]; simpl in *;
    (etransitivity; [exact C03 | apply creates_fresh_same; exact E4]).
Qed.

Lemma creates_fresh_tagger_loop_body (json_loads : string -> option json) (s : msg_summary) :
  stable creates_fresh (Tagger.main_loop_body json_loads s).
Proof.
  intros w. rewrite tagger_loop_body_eq. cbv zeta.
  pose proof (same_labels_tagger_get_message_text (msg_id s) w) as E1.
  destruct (Tagger.get_message_text (msg_id s) w) as [[text|e] w1]; simpl in E1;
    [|now apply creates_fresh_same].
  pose proof (same_labels_tagger_classify_email json_loads text w1) as E2.
  pose proof (fun c => tagger_classify_email_closed json_loads text c w1) as Hcat.
  destruct (Tagger.classify_email json_loads text w1) as [[c|e] w2]; simpl in E2, Hcat;
    [|apply creates_fresh_same; unfold same_labels in *; simpl; congruence].
  specialize (Hcat c eq_refl).
  assert (E02 : same_labels w w2) by (unfold same_labels in *; congruence).
  pose proof (creates_fresh_tagger_get_or_create_label c w2 Hcat) as C3.
  destruct (Tagger.get_or_create_label c w2) as [[l|e] w3]; simpl in C3;
    assert (C03 : creates_fresh w w3)
      by (etransitivity; [apply creates_fresh_same, E02 | exact C3]);
    [|exact C03].
  pose proof (same_labels_tagger_apply_label (msg_id s) l w3) as E4.
  destruct (Tagger.apply_label (msg_id s) l w3) as [[[]|e] w4]; simpl in *;
    (etransitivity; [exact C03 | apply creates_fresh_same; exact E4]).
Qed.

Lemma creates_fresh_of_same_labels {A} (m : M A) :
  stable same_labels m -> stable creates_fresh m.
Proof. intros H w. apply creates_fresh_same, H. Qed.

Lemma creates_fresh_main : stable creates_fresh Main.main.
Proof.
  unfold Main.main.
  apply stable_bind; [typeclasses eauto | apply creates_fresh_of_same_labels, same_labels_print |].
  intros _.
  apply stable_bind;
    [typeclasses eauto
    | apply creates_fresh_of_same_labels, same_labels_gmail_authenticate |].
  intros [service|]; [|apply creates_fresh_of_same_labels, same_labels_print].
  apply stable_bind;
    [typeclasses eauto | apply creates_fresh_of_same_labels, same_labels_main_fetch |].
  intros [|s l]; [apply creates_fresh_of_same_labels, same_labels_print|].
  apply stable_bind; [typeclasses eauto | apply creates_fresh_of_same_labels, same_labels_print |].
  intros _.
  apply stable_bind;
    [typeclasses eauto | | intros _; apply creates_fresh_of_same_labels, same_labels_print].
  apply stable_for_each; [typeclasses eauto | exact creates_fresh_main_loop_body].
Qed.

Lemma creates_fresh_tagger_main (json_loads : string -> option json) :
  stable creates_fresh (Tagger.main_loop json_loads).
Proof.
  unfold Tagger.main_loop.
  apply stable_bind;
    [typeclasses eauto | apply creates_fresh_of_same_labels, same_labels_tagger_fetch |].
  intros msgs.
  apply stable_for_each; [typeclasses eauto | exact (creates_fresh_tagger_loop_body json_loads)].
Qed.

Lemma creates_fresh_at_most_three (w w' : world) :
  creates_fresh w w' ->
  exists new,
    labels w' = labels w ++ new /\
    length new <= 3 /\
    NoDup (map lname new) /\
    Forall (fun x => In (lname x) CATEGORIES /\
                     forall y, In y (labels w) -> lname y <> lname x) new.
Proof.
  intros (new & E & D & F). exists new. split; [exact E|]. split; [|split; [exact D|]].
  - rewrite <- (length_map lname new).
    change 3 with (length CATEGORIES).
    apply NoDup_incl_length; [now apply NoDup_ListNoDup|].
    intros name Hn. apply in_map_iff in Hn. destruct Hn as (x & <- & Hx).
    rewrite List.Forall_forall in F. exact (proj1 (F x Hx)).
  - eapply List.Forall_impl; [|exact F]. intros x [Hc Fx]. split; [exact Hc|].
    now apply List.Forall_forall.
Qed.

(** X24: a run creates labels under the names of categories only, never
    under a name that a listed label bears, and at most one under each
    name: at most three in all, as long as the service lists what it
    created.  [tagger.py]'s [main] as it stands creates none. *)
Theorem runs_create_at_most_three_labels
        (json_loads : string -> option json) (w : world) :
  (exists new,
     labels (snd (Main.main w)) = labels w ++ new /\
     length new <= 3 /\
     NoDup (map lname new) /\
     Forall (fun x => In (lname x) CATEGORIES /\
                      forall y, In y (labels w) -> lname y <> lname x) new) /\
  (exists new,
     labels (snd (Tagger.main_loop json_loads w)) = labels w ++ new /\
     length new <= 3 /\
     NoDup (map lname new) /\
     Forall (fun x => In (lname x) CATEGORIES /\
                      forall y, In y (labels w) -> lname y <> lname x) new) /\
  labels (snd (Tagger.main json_loads w)) = labels w.
Proof.
  split; [|split].
  - apply creates_fresh_at_most_three, creates_fresh_main.
  - apply creates_fresh_at_most_three, creates_fresh_tagger_main.
  - destruct (tagger_main_stops json_loads w) as (e & -> & _). reflexivity.
Qed.

(** Three messages, one per category, and no label to begin with: the
    three labels are created, each once. *)
Example main_creates_the_three_labels :
  labels (snd (Main.main Cases.w_three))
  = [Label "Orders" "Label_1"; Label "Invoices" "Label_2"; Label "Other" "Label_3"].
Proof. reflexivity. Qed.

(** ** The ways [main.py]'s run ends early *)

(** X25: without usable credentials [main.py]'s run ends normally before
    it does anything: no request is sent, the model is not called, the
    mailbox and the labels are as they were, and the last line printed says
    that authentication failed. *)
Theorem main_without_credentials (w : world) :
  auth w <> Authenticated ->
  let r := Main.main w in
  fst r = Ok tt /\
  requests (snd r) = requests w /\
  prompts (snd r) = prompts w /\
  mailbox (snd r) = mailbox w /\
  labels (snd r) = labels w /\
  last (stdout (snd r)) = Some "Could not authenticate with Gmail. Exiting.".
Proof.
  intros Ha. cbv zeta. unfold Main.main, Main.gmail_authenticate. unfold_py.
  cbn [auth log_stdout].
  destruct (auth w) as [| |e|]; [| | |contradiction];
    cbn [fst snd requests prompts mailbox labels stdout log_stdout];
    repeat split; apply last_snoc.
Qed.

Lemma main_without_credentials_witness :
  fst (Main.main Cases.w_no_key) = Ok tt /\
  requests (snd (Main.main Cases.w_no_key)) = [] /\
  mailbox (snd (Main.main Cases.w_no_key)) = mailbox Cases.w_no_key.
Proof.
  destruct (main_without_credentials Cases.w_no_key) as (H1 & H2 & _ & H4 & _);
    [discriminate|].
  split; [exact H1|]. split; [exact H2 | exact H4].
Defined.

(** X26: when the listing names no message, or raises [HttpError],
    [main.py]'s run ends normally after that one request: the model is not
    called, the mailbox and the labels are as they were, and the last line
    printed says that nothing is unread. *)
Theorem main_nothing_unread (w : world) :
  auth w = Authenticated ->
  (fault w (length (requests w)) = None /\ default [] (unread w) = []) \/
  (exists e, fault w (length (requests w)) = Some e /\ is_HttpError e = true) ->
  let r := Main.main w in
  fst r = Ok tt /\
  sent w (snd r) = [ListMessages "is:unread" 10] /\
  prompts (snd r) = prompts w /\
  mailbox (snd r) = mailbox w /\
  labels (snd r) = labels w /\
  last (stdout (snd r)) = Some "No unread messages found.".
Proof.
  intros Ha Hcase. cbv zeta. rewrite (main_eq w Ha). cbv zeta.
  unfold Main.fetch_unread_message_ids, messages_list, sent. unfold_py.
  cbn [requests log_stdout fault].
  destruct Hcase as [[Hf Hu] | (e & Hf & Hh)]; rewrite Hf; cbn [fst snd].
  - cbn [unread log_request log_stdout]. rewrite Hu.
    cbn [fst snd requests prompts mailbox labels stdout log_stdout log_request].
    rewrite drop_app_length. repeat split. apply last_snoc.
  - rewrite Hh.
    cbn [fst snd requests prompts mailbox labels stdout log_stdout log_request].
    rewrite drop_app_length. repeat split. apply last_snoc.
Qed.

Lemma main_nothing_unread_witness :
  fst (Main.main Cases.w_nothing_unread) = Ok tt /\
  sent Cases.w_nothing_unread (snd (Main.main Cases.w_nothing_unread))
  = [ListMessages "is:unread" 10] /\
  fst (Main.main Cases.w_fetch_fails) = Ok tt.
Proof.
  destruct (main_nothing_unread Cases.w_nothing_unread) as (H1 & H2 & _);
    [reflexivity | left; split; reflexivity |].
  destruct (main_nothing_unread Cases.w_fetch_fails) as (H3 & _);
    [reflexivity | right; eexists; split; reflexivity |].
  split; [exact H1|]. split; [exact H2 | exact H3].
Defined.

(** X27: a message whose text comes out empty is passed over by
    [main.py]: the retrieval is the only request of the iteration, the
    model is not called, the message keeps its labels and stays unread if
    it was, and the line printed last says that it was skipped. *)
Theorem main_loop_body_skips_empty_text (s : msg_summary) (w : world) :
  fst (Main.get_message_text (msg_id s) w) = Ok "" ->
  let r := Main.main_loop_body s w in
  fst r = Ok tt /\
  sent w (snd r) = [GetMessage (msg_id s)] /\
  prompts (snd r) = prompts w /\
  mailbox (snd r) = mailbox w /\
  labels (snd r) = labels w /\
  last (stdout (snd r)) = Some (Main.skipped_line (msg_id s)).
Proof.
  intros Ht. cbv zeta. rewrite main_loop_body_eq. cbv zeta.
  pose proof (main_get_message_text_requests (msg_id s) w) as Hr.
  pose proof (main_get_message_text_prompts (msg_id s) w) as Hp.
  pose proof (steadily_main_get_message_text (msg_id s) w) as [Hev Hm].
  pose proof (same_labels_main_get_message_text (msg_id s) w) as Hl.
  destruct (Main.get_message_text (msg_id s) w) as [[text|e] w1];
    cbn [fst snd] in *; [|discriminate].
  injection Ht as ->. cbn [truthy_str]. unfold sent.
  cbn [fst snd requests prompts mailbox labels stdout log_stdout].
  rewrite Hr, drop_app_length. repeat split; try assumption. apply last_snoc.
Qed.

Lemma main_loop_body_skips_empty_text_witness :
  fst (Main.main_loop_body (Summary "m9") Fixture.w_single) = Ok tt /\
  sent Fixture.w_single (snd (Main.main_loop_body (Summary "m9") Fixture.w_single))
  = [GetMessage "m9"].
Proof.
  destruct (main_loop_body_skips_empty_text (Summary "m9") Fixture.w_single)
    as (H1 & H2 & _); [reflexivity|].
  split; [exact H1 | exact H2].
Defined.
